(** * Tier list: storage provider and mutation engine

    A shallow embedding of the TypeScript sources of the tier-list
    application: the [TierListService] (the engine) and the
    [LocalStorageProvider] (the local store), together with the JSON
    values, parsing and serialisation they rely on.

    Modelling conventions.
    - JavaScript strings are [String.string] holding their UTF-8 encoding,
      so [new Blob([s]).size] is [String.length s].
    - JavaScript numbers occurring in the documents are integers ([Z]).
    - Fallible code runs in the state/error monad [SE]: a thrown [Error]
      is [Err message] together with the state reached when it was
      thrown.
    - [generateId] reads successive identifiers from an id source
      [gen : nat -> string]; [new Date()] reads the clock field [now]. *)

From Stdlib Require Import ZArith String Ascii Bool Lia.
From stdpp Require Import base list strings gmap.

Open Scope Z_scope.
Set Warnings "-register-all".

(* ------------------------------------------------------------------ *)
(** ** Results and the state/error monad *)

Inductive result (A : Type) : Type :=
| Ok (a : A)
| Err (msg : string).
Arguments Ok {A} a.
Arguments Err {A} msg.

(** A computation over a state [S] that may throw an [Error]. *)
Definition SE (S A : Type) : Type := S -> result A * S.

Definition se_ret {S A} (a : A) : SE S A := fun s => (Ok a, s).
Definition se_throw {S A} (msg : string) : SE S A := fun s => (Err msg, s).
Definition se_bind {S A B} (m : SE S A) (k : A -> SE S B) : SE S B :=
  fun s => match m s with
           | (Ok a, s') => k a s'
           | (Err e, s') => (Err e, s')
           end.
(** [try { m } catch (e) { h(e) }] *)
Definition se_catch {S A} (m : SE S A) (h : string -> SE S A) : SE S A :=
  fun s => match m s with
           | (Ok a, s') => (Ok a, s')
           | (Err e, s') => h e s'
           end.
Definition se_get {S} : SE S S := fun s => (Ok s, s).
Definition se_put {S} (s : S) : SE S unit := fun _ => (Ok tt, s).
(** A pure fallible step: [inl] is a thrown error message. *)
Definition se_lift {S A} (r : string + A) : SE S A :=
  match r with inl e => se_throw e | inr a => se_ret a end.

Declare Scope se_scope.
Delimit Scope se_scope with se.
Notation "x <- c ;; k" := (se_bind c (fun x => k))
  (at level 100, c at next level, right associativity) : se_scope.
Notation "c ;;; k" := (se_bind c (fun _ => k))
  (at level 100, right associativity) : se_scope.

(* ------------------------------------------------------------------ *)
(** ** JavaScript values as JSON sees them *)

(** The values that [JSON.parse] produces and [JSON.stringify] consumes.
    A [Date] object is [JDate t] with [t] its time value in
    milliseconds, [None] for an invalid date.  Objects keep their own
    properties in insertion order. *)
Inductive jval : Type :=
| JNull
| JBool (b : bool)
| JNum (n : Z)
| JStr (s : string)
| JArr (l : list jval)
| JObj (kvs : list (string * jval))
| JDate (t : option Z).

(** JavaScript truthiness. *)
Definition truthy (v : jval) : bool :=
  match v with
  | JNull => false
  | JBool b => b
  | JNum n => negb (n =? 0)
  | JStr s => negb (String.eqb s "")
  | _ => true
  end.

(** [typeof v === 'object'] *)
Definition is_object (v : jval) : bool :=
  match v with
  | JNull | JArr _ | JObj _ | JDate _ => true
  | _ => false
  end.

Fixpoint assoc_get {A} (k : string) (kvs : list (string * A)) : option A :=
  match kvs with
  | [] => None
  | (k', v) :: r => if String.eqb k k' then Some v else assoc_get k r
  end.

(** [o[k] = v] on an object: overwrite in place, or append a new key. *)
Fixpoint assoc_set {A} (k : string) (v : A) (kvs : list (string * A))
  : list (string * A) :=
  match kvs with
  | [] => [(k, v)]
  | (k', v') :: r =>
      if String.eqb k k' then (k, v) :: r else (k', v') :: assoc_set k v r
  end.

(** Property read [v.k]; [None] is [undefined].  Only plain objects carry
    the string-named properties read by this code. *)
Definition get_prop (k : string) (v : jval) : option jval :=
  match v with JObj kvs => assoc_get k kvs | _ => None end.

(** Property write [v.k = x] in strict mode code.  Named properties
    written on arrays and dates are invisible to JSON and are not
    represented. *)
Definition set_prop (k : string) (x : jval) (v : jval) : string + jval :=
  match v with
  | JObj kvs => inr (JObj (assoc_set k x kvs))
  | JArr _ | JDate _ => inr v
  | JNull => inl ("Cannot set properties of null (setting '" ++ k ++ "')")%string
  | _ => inl ("Cannot create property '" ++ k ++ "' on a primitive value")%string
  end.

(** Property write through an intermediate read, [v.o.k = x]: the read
    [v.o] must yield an object. *)
Definition set_nested (o k : string) (x : jval) (v : jval) : string + jval :=
  match get_prop o v with
  | None => inl ("Cannot set properties of undefined (setting '" ++ k ++ "')")%string
  | Some inner =>
      match set_prop k x inner with
      | inl e => inl e
      | inr inner' => set_prop o inner' v
      end
  end.

(* ------------------------------------------------------------------ *)
(** ** [JSON.stringify] *)

Definition digit_char (d : Z) : ascii := ascii_of_nat (48 + Z.to_nat d).

Fixpoint dec_digits (fuel : nat) (n : Z) (acc : string) : string :=
  match fuel with
  | O => acc
  | S f =>
      let acc' := String (digit_char (n mod 10)) acc in
      if n <? 10 then acc' else dec_digits f (n / 10) acc'
  end.

(** [Number.prototype.toString] on an integer. *)
Definition Z_to_dec (n : Z) : string :=
  let body := dec_digits (S (Z.to_nat (Z.log2 (Z.abs n)))) (Z.abs n) "" in
  if n <? 0 then ("-" ++ body)%string else body.

(** Left-pad with zeros to width [w]. *)
Definition pad (w : nat) (n : Z) : string :=
  let s := Z_to_dec n in
  (String.concat "" (repeat "0"%string (w - String.length s)) ++ s)%string.

Definition hex_char (d : nat) : ascii :=
  match String.get d "0123456789abcdef" with Some c => c | None => "0"%char end.

(** The double-quote character, and a string holding it alone. *)
Definition dq_char : ascii := ascii_of_nat 34.
Definition dq_str : string := String dq_char EmptyString.

(** A text written with single quotes standing for double quotes (the JSON texts below). *)
Fixpoint squote (s : string) : string :=
  match s with
  | EmptyString => EmptyString
  | String c r => String (if Ascii.eqb c "'"%char then dq_char else c) (squote r)
  end.

(** QuoteJSONString, on the UTF-8 bytes of the string. *)
Fixpoint quote_body (s : string) : string :=
  match s with
  | EmptyString => ""
  | String c r =>
      let n := nat_of_ascii c in
      let esc :=
        if (n =? 8)%nat then "\b"
        else if (n =? 9)%nat then "\t"
        else if (n =? 10)%nat then "\n"
        else if (n =? 12)%nat then "\f"
        else if (n =? 13)%nat then "\r"
        else if (n =? 34)%nat then String "\"%char (dq_str)
        else if (n =? 92)%nat then "\\"
        else if (n <? 32)%nat then
          ("\u00" ++ String (hex_char (n / 16)) (String (hex_char (n mod 16)) ""))
        else String c EmptyString in
      (esc ++ quote_body r)%string
  end%string.

Definition quote (s : string) : string :=
  (dq_str ++ quote_body s ++ dq_str)%string.

(** Proleptic Gregorian calendar date of a day number (days since
    1970-01-01). *)
Definition civil_from_days (days : Z) : Z * Z * Z :=
  let z := days + 719468 in
  let era := z / 146097 in
  let doe := z - era * 146097 in
  let yoe := (doe - doe / 1460 + doe / 36524 - doe / 146096) / 365 in
  let y := yoe + era * 400 in
  let doy := doe - (365 * yoe + yoe / 4 - yoe / 100) in
  let mp := (5 * doy + 2) / 153 in
  let d := doy - (153 * mp + 2) / 5 + 1 in
  let m := if mp <? 10 then mp + 3 else mp - 9 in
  (if m <=? 2 then y + 1 else y, m, d).

(** [Date.prototype.toISOString] of a valid time value. *)
Definition iso_string (t : Z) : string :=
  let days := t / 86400000 in
  let ms := t mod 86400000 in
  let '(y, mo, d) := civil_from_days days in
  let year :=
    if Z.leb 0 y && Z.leb y 9999 then pad 4 y
    else ((if Z.ltb y 0 then "-" else "+") ++ pad 6 (Z.abs y))%string in
  (year ++ "-" ++ pad 2 mo ++ "-" ++ pad 2 d ++ "T" ++
   pad 2 (ms / 3600000) ++ ":" ++ pad 2 (ms / 60000 mod 60) ++ ":" ++
   pad 2 (ms / 1000 mod 60) ++ "." ++ pad 3 (ms mod 1000) ++ "Z")%string.

(** [JSON.stringify]; a [Date] goes through [toJSON], which gives [null]
    for an invalid date. *)
Fixpoint stringify (v : jval) : string :=
  match v with
  | JNull => "null"
  | JBool b => if b then "true" else "false"
  | JNum n => Z_to_dec n
  | JStr s => quote s
  | JArr l => ("[" ++ String.concat "," (map stringify l) ++ "]")
  | JObj kvs =>
      ("{" ++ String.concat ","
               (map (fun kv => quote (fst kv) ++ ":" ++ stringify (snd kv)) kvs)
           ++ "}")
  | JDate None => "null"
  | JDate (Some t) => quote (iso_string t)
  end%string.

(* ------------------------------------------------------------------ *)
(** ** A [JSON.parse] for concrete inputs

    The theorems below take [JSON.parse] as a parameter.  Concrete runs
    use [json_parse], which agrees with [JSON.parse] on the texts it
    accepts: JSON whose numbers are integers and whose strings use no
    [\u] escape.  Every other text it rejects as a [SyntaxError]. *)

Definition is_ws (c : ascii) : bool :=
  let n := nat_of_ascii c in
  ((n =? 32) || (n =? 9) || (n =? 10) || (n =? 13))%nat.

Definition is_digit (c : ascii) : bool :=
  let n := nat_of_ascii c in ((48 <=? n) && (n <=? 57))%nat.

Definition digit_val (c : ascii) : Z := Z.of_nat (nat_of_ascii c) - 48.

Fixpoint skip_ws (s : string) : string :=
  match s with
  | String c r => if is_ws c then skip_ws r else s
  | EmptyString => s
  end.

Definition chr (c : ascii) (s : string) : option string :=
  match s with
  | String c' r => if Ascii.eqb c c' then Some r else None
  | EmptyString => None
  end.

(** Body of a string literal, after the opening quote. *)
Fixpoint str_body (s : string) : option (string * string) :=
  match s with
  | EmptyString => None
  | String c r =>
      if Ascii.eqb c dq_char then Some (EmptyString, r)
      else if Ascii.eqb c "\"%char then
        match r with
        | String e r' =>
            let n := nat_of_ascii e in
            let dec :=
              if (n =? 34)%nat then Some e
              else if (n =? 92)%nat then Some e
              else if (n =? 47)%nat then Some e
              else if (n =? 98)%nat then Some (ascii_of_nat 8)
              else if (n =? 102)%nat then Some (ascii_of_nat 12)
              else if (n =? 110)%nat then Some (ascii_of_nat 10)
              else if (n =? 114)%nat then Some (ascii_of_nat 13)
              else if (n =? 116)%nat then Some (ascii_of_nat 9)
              else None in
            match dec, str_body r' with
            | Some d, Some (x, rest) => Some (String d x, rest)
            | _, _ => None
            end
        | EmptyString => None
        end
      else if (nat_of_ascii c <? 32)%nat then None
      else match str_body r with
           | Some (x, rest) => Some (String c x, rest)
           | None => None
           end
  end.

Fixpoint digits (s : string) (acc : Z) : Z * string :=
  match s with
  | String c r => if is_digit c then digits r (acc * 10 + digit_val c) else (acc, s)
  | EmptyString => (acc, s)
  end.

(** An integer literal; a fraction or an exponent is not supported. *)
Definition int_lit (s : string) : option (Z * string) :=
  let '(neg, s1) := match chr "-" s with Some r => (true, r) | None => (false, s) end in
  match s1 with
  | String c r =>
      if negb (is_digit c) then None else
      let '(n, rest) :=
        if Ascii.eqb c "0"%char then (0, r) else digits r (digit_val c) in
      match rest with
      | String c' _ =>
          if is_digit c' || Ascii.eqb c' "."%char || Ascii.eqb c' "e"%char
             || Ascii.eqb c' "E"%char then None
          else Some (if neg then - n else n, rest)
      | EmptyString => Some (if neg then - n else n, rest)
      end
  | EmptyString => None
  end.

Definition keyword (w : string) (s : string) : option string :=
  if String.prefix w s
  then Some (substring (String.length w) (String.length s) s) else None.

Fixpoint pval (fuel : nat) (s : string) {struct fuel} : option (jval * string) :=
  match fuel with
  | O => None
  | S f =>
      let s := skip_ws s in
      match s with
      | EmptyString => None
      | String c r =>
          if Ascii.eqb c dq_char then
            match str_body r with Some (x, r') => Some (JStr x, r') | None => None end
          else if Ascii.eqb c "["%char then
            match chr "]" (skip_ws r) with
            | Some r' => Some (JArr [], r')
            | None => parr f r []
            end
          else if Ascii.eqb c "{"%char then
            match chr "}" (skip_ws r) with
            | Some r' => Some (JObj [], r')
            | None => pobj f r []
            end
          else match keyword "null" s with Some r' => Some (JNull, r') | None =>
               match keyword "true" s with Some r' => Some (JBool true, r') | None =>
               match keyword "false" s with Some r' => Some (JBool false, r') | None =>
               match int_lit s with Some (n, r') => Some (JNum n, r') | None => None
               end end end end
      end
  end
with parr (fuel : nat) (s : string) (acc : list jval) {struct fuel}
  : option (jval * string) :=
  match fuel with
  | O => None
  | S f =>
      match pval f s with
      | None => None
      | Some (v, r) =>
          let r := skip_ws r in
          match chr "," r with
          | Some r' => parr f r' (acc ++ [v])
          | None => match chr "]" r with
                    | Some r' => Some (JArr (acc ++ [v]), r')
                    | None => None
                    end
          end
      end
  end
with pobj (fuel : nat) (s : string) (acc : list (string * jval)) {struct fuel}
  : option (jval * string) :=
  match fuel with
  | O => None
  | S f =>
      match chr dq_char (skip_ws s) with
      | None => None
      | Some r =>
          match str_body r with
          | None => None
          | Some (k, r1) =>
              match chr ":" (skip_ws r1) with
              | None => None
              | Some r2 =>
                  match pval f r2 with
                  | None => None
                  | Some (v, r3) =>
                      let acc' := assoc_set k v acc in
                      let r3 := skip_ws r3 in
                      match chr "," r3 with
                      | Some r4 => pobj f r4 acc'
                      | None => match chr "}" r3 with
                                | Some r4 => Some (JObj acc', r4)
                                | None => None
                                end
                      end
                  end
              end
          end
      end
  end.

Definition json_parse (s : string) : string + jval :=
  match pval (S (2 * String.length s)) s with
  | Some (v, rest) =>
      match skip_ws rest with
      | EmptyString => inr v
      | _ => inl "Unexpected non-whitespace character after JSON"%string
      end
  | None => inl "Unexpected token in JSON"%string
  end.

Definition days_from_civil (y m d : Z) : Z :=
  let y' := if m <=? 2 then y - 1 else y in
  let era := y' / 400 in
  let yoe := y' - era * 400 in
  let doy := (153 * (if m >? 2 then m - 3 else m + 9) + 2) / 5 + d - 1 in
  let doe := yoe * 365 + yoe / 4 - yoe / 100 + doy in
  era * 146097 + doe - 719468.

Fixpoint all_digits (s : string) : bool :=
  match s with
  | EmptyString => true
  | String c r => is_digit c && all_digits r
  end.

Definition num_at (i len : nat) (s : string) : Z :=
  fst (digits (substring i len s) 0).

(** A [Date.parse] for concrete inputs: the date-time format that
    [toISOString] produces, [YYYY-MM-DDTHH:mm:ss.sssZ].  Strings of other
    shapes, whose parsing is implementation-defined, are taken as
    invalid dates. *)
Definition date_parse_iso (s : string) : option Z :=
  let shape :=
    (String.length s =? 24)%nat
    && String.eqb (substring 4 1 s) "-" && String.eqb (substring 7 1 s) "-"
    && String.eqb (substring 10 1 s) "T" && String.eqb (substring 13 1 s) ":"
    && String.eqb (substring 16 1 s) ":" && String.eqb (substring 19 1 s) "."
    && String.eqb (substring 23 1 s) "Z"
    && all_digits (substring 0 4 s) && all_digits (substring 5 2 s)
    && all_digits (substring 8 2 s) && all_digits (substring 11 2 s)
    && all_digits (substring 14 2 s) && all_digits (substring 17 2 s)
    && all_digits (substring 20 3 s) in
  let y := num_at 0 4 s in let mo := num_at 5 2 s in let d := num_at 8 2 s in
  let h := num_at 11 2 s in let mi := num_at 14 2 s in let se := num_at 17 2 s in
  let ms := num_at 20 3 s in
  if shape && (1 <=? mo) && (mo <=? 12) && (1 <=? d) && (d <=? 31)
     && (h <=? 23) && (mi <=? 59) && (se <=? 59)
  then Some (days_from_civil y mo d * 86400000 + h * 3600000 + mi * 60000
             + se * 1000 + ms)
  else None.

(* ------------------------------------------------------------------ *)
(** ** Helpers of [src/utils] used by the local store *)

(** [key.includes(sub)] *)
Definition includes (s sub : string) : bool :=
  match String.index 0 sub s with Some _ => true | None => false end.

Section Utils.
(** [new Date(s)] for a string [s]: its time value, [None] when
    invalid. *)
Variable date_parse : string -> option Z.

(** [parseDates]: turn the string values of temporal keys (those whose
    name contains [Date] or [At]) into [Date] objects, recursively. *)
Fixpoint parseDates (v : jval) : jval :=
  match v with
  | JArr l => JArr (map parseDates l)
  | JObj kvs =>
      JObj (map (fun '(k, x) =>
                   (k, if includes k "Date" || includes k "At" then
                         match x with JStr s => JDate (date_parse s) | _ => x end
                       else if is_object x then parseDates x else x)) kvs)
  (* [{ ...date }] copies no own property of a [Date]. *)
  | JDate _ => JObj []
  | _ => v
  end.
End Utils.

(** [validateTierList]: the structural check. *)
Definition validateTierList (v : jval) : bool :=
  truthy v
  && match get_prop "id" v with Some (JStr _) => true | _ => false end
  && match get_prop "title" v with Some (JStr _) => true | _ => false end
  && match get_prop "tiers" v with Some (JArr _) => true | _ => false end
  && match get_prop "unrankedItems" v with Some (JArr _) => true | _ => false end
  && match get_prop "metadata" v with Some m => truthy m | None => false end
  && match get_prop "settings" v with Some m => truthy m | None => false end.

(** [Object.entries(v)] for an object-typed [v]. *)
Definition entries (v : jval) : list (string * jval) :=
  match v with
  | JObj kvs => kvs
  | JArr l => imap (fun i x => (Z_to_dec (Z.of_nat i), x)) l
  | _ => []
  end.

(** The own enumerable properties copied by an object spread [{ ...v }]. *)
Definition spread_entries (v : jval) : list (string * jval) :=
  match v with
  | JObj _ | JArr _ => entries v
  | JStr s => imap (fun i c => (Z_to_dec (Z.of_nat i), JStr (String c EmptyString)))
                   (list_ascii_of_string s)
  | _ => []
  end.

(** [String(v)], used when [v] is a property key.  Keys are strings in
    every call the engine makes; a [Date] key does not arise and its
    [toString] form is stood in for by the ISO form. *)
Fixpoint js_to_string (v : jval) : string :=
  match v with
  | JStr s => s
  | JNum n => Z_to_dec n
  | JBool b => if b then "true" else "false"
  | JNull => "null"
  | JArr l => String.concat ","
                (map (fun x => match x with JNull => EmptyString | _ => js_to_string x end) l)
  | JObj _ => "[object Object]"
  | JDate None => "Invalid Date"
  | JDate (Some t) => iso_string t
  end%string.

(* ------------------------------------------------------------------ *)
(** ** The local store provider ([LocalStorageProvider]) *)

(** [LocalStorageConfig] *)
Record LocalStorageConfig := {
  storageKey : option string;
  versionKey : option string;
  maxSize : option Z
}.

Definition CURRENT_VERSION : string := "1.0.0".

(** [config.storageKey || 'tierlist_app_data'] *)
Definition STORAGE_KEY (cfg : LocalStorageConfig) : string :=
  match storageKey cfg with
  | Some k => if String.eqb k "" then "tierlist_app_data" else k
  | None => "tierlist_app_data"
  end.

Definition VERSION_KEY (cfg : LocalStorageConfig) : string :=
  match versionKey cfg with
  | Some k => if String.eqb k "" then "tierlist_app_version" else k
  | None => "tierlist_app_version"
  end.

(** [config.maxSize || 5 * 1024 * 1024]: the capacity of the provider. *)
Definition provider_maxSize (cfg : LocalStorageConfig) : Z :=
  match maxSize cfg with
  | Some n => if n =? 0 then 5 * 1024 * 1024 else n
  | None => 5 * 1024 * 1024
  end.

(** The browser's [localStorage]: whether it can be used at all, its
    key/value contents, and its quota.  [ls_fits] tells whether the
    browser admits the contents a write would leave behind; a write it
    does not admit throws a [QuotaExceededError] and changes nothing. *)
Record Medium := {
  ls_available : bool;
  ls_items : gmap string string;
  ls_fits : gmap string string -> bool
}.

(** The medium with its contents replaced. *)
Definition with_items (m : Medium) (items : gmap string string) : Medium :=
  {| ls_available := ls_available m; ls_items := items; ls_fits := ls_fits m |}.

(** A thrown [QuotaExceededError], represented by its [name]. *)
Definition QuotaExceededError : string := "QuotaExceededError".

Definition setItem (k v : string) : SE Medium unit :=
  fun m => if ls_fits m (<[k := v]> (ls_items m))
           then (Ok tt, with_items m (<[k := v]> (ls_items m)))
           else (Err QuotaExceededError, m).

Definition getItem (k : string) : SE Medium (option string) :=
  fun m => (Ok (ls_items m !! k), m).

Definition removeItem (k : string) : SE Medium unit :=
  fun m => (Ok tt, with_items m (delete k (ls_items m))).

Definition test_key : string := "__localStorage_test__".

(** [isLocalStorageAvailable]: writes and removes a probe key; any throw
    (storage disabled, or the probe write refused) yields [false]. *)
Definition isLocalStorageAvailable : SE Medium bool :=
  fun m =>
    if ls_available m then
      se_catch (setItem test_key test_key ;;; removeItem test_key ;;; se_ret true)%se
               (fun _ => se_ret false) m
    else (Ok false, m).

(** [LocalStorageData] *)
Record LocalStorageData := {
  ld_version : jval;
  ld_tierLists : list (string * jval);
  ld_theme : jval;
  ld_autoSave : jval
}.

Definition ld_to_jval (d : LocalStorageData) : jval :=
  JObj [("version", ld_version d); ("tierLists", JObj (ld_tierLists d));
        ("settings", JObj [("theme", ld_theme d); ("autoSave", ld_autoSave d)])].

Definition createEmptyData : LocalStorageData :=
  {| ld_version := JStr CURRENT_VERSION; ld_tierLists := [];
     ld_theme := JStr "default"; ld_autoSave := JBool true |}.

(** [Math.round(n / 1024)] *)
Definition round_kb (n : Z) : Z := (n + 512) / 1024.

(** The message thrown when the serialised blob is over capacity. *)
Definition capacity_error (cfg : LocalStorageConfig) (size : Z) : string :=
  ("Data size (" ++ Z_to_dec (round_kb size) ++ "KB) exceeds maximum allowed size ("
   ++ Z_to_dec (round_kb (provider_maxSize cfg)) ++ "KB)")%string.

(** The medium after the availability probe: the probe key is gone. *)
Definition probed (m : Medium) : Medium := with_items m (delete test_key (ls_items m)).

(** Whether the availability probe succeeds on the medium. *)
Definition probe_ok (m : Medium) : bool :=
  ls_available m && ls_fits m (<[test_key := test_key]> (ls_items m)).

(** The message [saveAllData] throws for a [QuotaExceededError]. *)
Definition quota_message : string :=
  "Storage quota exceeded. Please delete some tier lists or clear browser data.".

Section LocalStore.
(** [JSON.parse]: the parsed value, or the message of the thrown
    [SyntaxError]. *)
Variable json_parse_fn : string -> string + jval.
Variable date_parse : string -> option Z.
Variable cfg : LocalStorageConfig.

Definition validateAndMigrateData (data : jval) : LocalStorageData :=
  if negb (truthy data) || negb (is_object data) then createEmptyData else
  let settings := get_prop "settings" data in
  let setting k := match settings with Some sv => get_prop k sv | None => None end in
  {| ld_version :=
       match get_prop "version" data with
       | Some v => if truthy v then v else JStr CURRENT_VERSION
       | None => JStr CURRENT_VERSION
       end;
     ld_tierLists :=
       match get_prop "tierLists" data with
       | Some tl =>
           if truthy tl && is_object tl then
             fold_left (fun acc '(id, x) =>
                          if validateTierList x
                          then assoc_set id (parseDates date_parse x) acc
                          else acc) (entries tl) []
           else []
       | None => []
       end;
     ld_theme :=
       match setting "theme" with
       | Some v => if truthy v then v else JStr "default"
       | None => JStr "default"
       end;
     ld_autoSave :=
       match setting "autoSave" with
       | None | Some JNull => JBool true
       | Some v => v
       end |}.

Definition loadAllData : SE Medium LocalStorageData :=
  se_catch
    (avail <- isLocalStorageAvailable ;;
     if negb avail then se_throw "localStorage is not available" else
     data <- getItem (STORAGE_KEY cfg) ;;
     match data with
     | None => se_ret createEmptyData
     | Some s =>
         if String.eqb s "" then se_ret createEmptyData else
         parsed <- se_lift (json_parse_fn s) ;;
         se_ret (validateAndMigrateData parsed)
     end)%se
    (fun _ => se_ret createEmptyData).

(** [saveAllData].  Its [catch] replaces a [QuotaExceededError] by
    [quota_message] and rethrows every other error. *)
Definition saveAllData (data : LocalStorageData) : SE Medium unit :=
  se_catch
    (avail <- isLocalStorageAvailable ;;
     if negb avail then se_throw "localStorage is not available" else
     let serialized := stringify (ld_to_jval data) in
     let size := Z.of_nat (String.length serialized) in
     if size >? provider_maxSize cfg then se_throw (capacity_error cfg size)
     else
       setItem (STORAGE_KEY cfg) serialized ;;;
       setItem (VERSION_KEY cfg) CURRENT_VERSION)%se
    (fun e => if String.eqb e QuotaExceededError then se_throw quota_message
              else se_throw e).

(** The document a [save] stores:
    [{ ...tierList, metadata: { ...tierList.metadata, updatedAt: new Date() } }]. *)
Definition stamped (now : Z) (tierList : jval) : jval :=
  let md := match get_prop "metadata" tierList with Some m => m | None => JNull end in
  JObj (assoc_set "metadata"
          (JObj (assoc_set "updatedAt" (JDate (Some now)) (spread_entries md)))
          (spread_entries tierList)).

Definition doc_key (tierList : jval) : string :=
  match get_prop "id" tierList with Some v => js_to_string v | None => "undefined" end.

(** [data.tierLists[tierList.id] = ...] *)
Definition upsert (now : Z) (tierList : jval) (data : LocalStorageData)
  : LocalStorageData :=
  {| ld_version := ld_version data;
     ld_tierLists := assoc_set (doc_key tierList) (stamped now tierList)
                               (ld_tierLists data);
     ld_theme := ld_theme data; ld_autoSave := ld_autoSave data |}.

(** [save(tierList)], at clock time [now]. *)
Definition lsp_save (now : Z) (tierList : jval) : SE Medium unit :=
  (data <- loadAllData ;; saveAllData (upsert now tierList data))%se.

(** [load(id)] *)
Definition lsp_load (id : string) : SE Medium (option jval) :=
  (data <- loadAllData ;;
   se_ret (match assoc_get id (ld_tierLists data) with
           | Some v => if truthy v then Some (parseDates date_parse v) else None
           | None => None
           end))%se.

(** [import(jsonData)] *)
Definition lsp_import (jsonData : string) : SE Medium unit :=
  se_catch
    (importedData <- se_lift (json_parse_fn jsonData) ;;
     saveAllData (validateAndMigrateData importedData))%se
    (fun e => se_throw ("Failed to import data: " ++ e)%string).
End LocalStore.

(* ------------------------------------------------------------------ *)
(** ** The document model ([src/types]) *)

Inductive ItemType := Text | Image.

Record ItemMetadata := {
  originalFileName : option string;
  uploadDate : option Z;
  file_size : option Z
}.

(** [TierListItem] *)
Record TierListItem := {
  item_id : string;
  item_type : ItemType;
  content : string;
  item_metadata : option ItemMetadata
}.

(** [Tier] *)
Record Tier := {
  tier_id : string;
  label : string;
  color : string;
  items : list TierListItem;
  order : Z
}.

Record Metadata := {
  createdAt : Z;
  updatedAt : Z;
  version : Z;
  author : option string
}.

Inductive Layout := Standard | Compact.

Record Settings := {
  theme : string;
  layout : Layout;
  showLabels : bool
}.

(** [TierList] *)
Record TierList := {
  tl_id : string;
  title : string;
  description : option string;
  tiers : list Tier;
  unrankedItems : list TierListItem;
  metadata : Metadata;
  settings : Settings
}.

(** Field writes [x.f = v]. *)
Definition set_item_id (i : string) (it : TierListItem) : TierListItem :=
  {| item_id := i; item_type := item_type it; content := content it;
     item_metadata := item_metadata it |}.
Definition set_tier_id (i : string) (t : Tier) : Tier :=
  {| tier_id := i; label := label t; color := color t; items := items t; order := order t |}.
Definition set_items (l : list TierListItem) (t : Tier) : Tier :=
  {| tier_id := tier_id t; label := label t; color := color t; items := l; order := order t |}.
Definition set_order (o : Z) (t : Tier) : Tier :=
  {| tier_id := tier_id t; label := label t; color := color t; items := items t; order := o |}.
Definition set_label_color (lb cl : string) (t : Tier) : Tier :=
  {| tier_id := tier_id t; label := lb; color := cl; items := items t; order := order t |}.
Definition set_tiers (ts : list Tier) (tl : TierList) : TierList :=
  {| tl_id := tl_id tl; title := title tl; description := description tl; tiers := ts;
     unrankedItems := unrankedItems tl; metadata := metadata tl; settings := settings tl |}.
Definition set_unranked (l : list TierListItem) (tl : TierList) : TierList :=
  {| tl_id := tl_id tl; title := title tl; description := description tl; tiers := tiers tl;
     unrankedItems := l; metadata := metadata tl; settings := settings tl |}.
Definition set_metadata (md : Metadata) (tl : TierList) : TierList :=
  {| tl_id := tl_id tl; title := title tl; description := description tl; tiers := tiers tl;
     unrankedItems := unrankedItems tl; metadata := md; settings := settings tl |}.
Definition set_id_title (i t : string) (tl : TierList) : TierList :=
  {| tl_id := i; title := t; description := description tl; tiers := tiers tl;
     unrankedItems := unrankedItems tl; metadata := metadata tl; settings := settings tl |}.

(** Every item of a document: the tiers' item lists, then the pool. *)
Definition all_items (tl : TierList) : list TierListItem :=
  concat (map items (tiers tl)) ++ unrankedItems tl.

(** The document as the JavaScript object handed to the provider and to
    event handlers (properties in the order of the interfaces; absent
    optional fields are left out, as [JSON.stringify] does). *)
Definition opt_field (k : string) (o : option jval) : list (string * jval) :=
  match o with Some v => [(k, v)] | None => [] end.

Definition item_to_jval (it : TierListItem) : jval :=
  JObj ([("id", JStr (item_id it));
         ("type", JStr (match item_type it with Text => "text" | Image => "image" end));
         ("content", JStr (content it))]
        ++ match item_metadata it with
           | Some md =>
               [("metadata",
                 JObj (opt_field "originalFileName" (option_map JStr (originalFileName md))
                       ++ opt_field "uploadDate" (option_map (fun t => JDate (Some t)) (uploadDate md))
                       ++ opt_field "size" (option_map JNum (file_size md))))]
           | None => []
           end).

Definition tier_to_jval (t : Tier) : jval :=
  JObj [("id", JStr (tier_id t)); ("label", JStr (label t)); ("color", JStr (color t));
        ("items", JArr (map item_to_jval (items t))); ("order", JNum (order t))].

Definition tl_to_jval (tl : TierList) : jval :=
  JObj ([("id", JStr (tl_id tl)); ("title", JStr (title tl))]
        ++ opt_field "description" (option_map JStr (description tl))
        ++ [("tiers", JArr (map tier_to_jval (tiers tl)));
            ("unrankedItems", JArr (map item_to_jval (unrankedItems tl)));
            ("metadata",
             JObj ([("createdAt", JDate (Some (createdAt (metadata tl))));
                    ("updatedAt", JDate (Some (updatedAt (metadata tl))));
                    ("version", JNum (version (metadata tl)))]
                   ++ opt_field "author" (option_map JStr (author (metadata tl)))));
            ("settings",
             JObj [("theme", JStr (theme (settings tl)));
                   ("layout", JStr (match layout (settings tl) with
                                    | Standard => "standard" | Compact => "compact" end));
                   ("showLabels", JBool (showLabels (settings tl)))])]).

(** [JSON.stringify(v, null, 2)] *)
Definition newline : string := String (ascii_of_nat 10) EmptyString.

Fixpoint stringify_indented (ind : string) (v : jval) : string :=
  let ind' := (ind ++ "  ")%string in
  match v with
  | JArr [] => "[]"
  | JArr l =>
      ("[" ++ newline
       ++ String.concat ("," ++ newline) (map (fun x => ind' ++ stringify_indented ind' x) l)
       ++ newline ++ ind ++ "]")
  | JObj [] => "{}"
  | JObj kvs =>
      ("{" ++ newline
       ++ String.concat ("," ++ newline)
            (map (fun '(k, x) => ind' ++ quote k ++ ": " ++ stringify_indented ind' x) kvs)
       ++ newline ++ ind ++ "}")
  | _ => stringify v
  end%string.

(* ------------------------------------------------------------------ *)
(** ** Array primitives *)

(** [l.findIndex(p)]; [None] stands for [-1]. *)
Fixpoint findIndex {A} (p : A -> bool) (l : list A) : option nat :=
  match l with
  | [] => None
  | x :: r => if p x then Some 0%nat else option_map S (findIndex p r)
  end.

(** [l.splice(i, 1)]: the removed element and the remaining array. *)
Definition splice_remove {A} (l : list A) (i : nat) : option (A * list A) :=
  match l !! i with
  | Some x => Some (x, take i l ++ drop (S i) l)
  | None => None
  end.

(** The start index [splice] derives from its first argument: a negative
    one counts from the end; the result lies in [0, length]. *)
Definition splice_start (len : nat) (start : Z) : nat :=
  if start <? 0 then Z.to_nat (Z.max (Z.of_nat len + start) 0)
  else Z.to_nat (Z.min start (Z.of_nat len)).

(** [l.splice(start, 0, x)] *)
Definition splice_insert {A} (l : list A) (start : Z) (x : A) : list A :=
  let k := splice_start (length l) start in take k l ++ x :: drop k l.

(** [l.forEach((t, index) => { t.order = index; })] *)
Definition renumber (ts : list Tier) : list Tier :=
  imap (fun i t => set_order (Z.of_nat i) t) ts.

(* ------------------------------------------------------------------ *)
(** ** The document mutations of the engine

    Each engine operation loads the document, mutates it by one of the
    functions below, then hands it to [updateTierList]. *)

Definition has_item_id (itemId : string) (it : TierListItem) : bool :=
  String.eqb (item_id it) itemId.
Definition has_tier_id (tierId : string) (t : Tier) : bool :=
  String.eqb (tier_id t) tierId.

(** The [for (const tier of tierList.tiers)] loop of [findAndRemoveItem]. *)
Fixpoint remove_from_tiers (ts : list Tier) (itemId : string)
  : option (TierListItem * list Tier) :=
  match ts with
  | [] => None
  | t :: r =>
      match findIndex (has_item_id itemId) (items t) with
      | Some i =>
          match splice_remove (items t) i with
          | Some (it, rest) => Some (it, set_items rest t :: r)
          | None => None
          end
      | None =>
          match remove_from_tiers r itemId with
          | Some (it, r') => Some (it, t :: r')
          | None => None
          end
      end
  end.

(** [findAndRemoveItem]: the unranked pool first, then the tiers. *)
Definition findAndRemoveItem (tl : TierList) (itemId : string)
  : option (TierListItem * TierList) :=
  match findIndex (has_item_id itemId) (unrankedItems tl) with
  | Some i =>
      match splice_remove (unrankedItems tl) i with
      | Some (it, rest) => Some (it, set_unranked rest tl)
      | None => None
      end
  | None =>
      match remove_from_tiers (tiers tl) itemId with
      | Some (it, ts) => Some (it, set_tiers ts tl)
      | None => None
      end
  end.

(** [if (targetTierId)]: [null] and [""] are falsy. *)
Definition targets_tier (targetTierId : option string) : option string :=
  match targetTierId with
  | Some t => if String.eqb t "" then None else Some t
  | None => None
  end.

(** The body of [moveItem]. *)
Definition moveItem_body (tl : TierList) (itemId : string)
    (targetTierId : option string) (position : Z) : result TierList :=
  match findAndRemoveItem tl itemId with
  | None => Err "Item not found"
  | Some (item, tl1) =>
      match targets_tier targetTierId with
      | Some tid =>
          match findIndex (has_tier_id tid) (tiers tl1) with
          | None => Err "Target tier not found"
          | Some i =>
              match tiers tl1 !! i with
              | Some t =>
                  Ok (set_tiers (<[i := set_items (splice_insert (items t) position item) t]>
                                   (tiers tl1)) tl1)
              | None => Err "Target tier not found"
              end
          end
      | None => Ok (set_unranked (splice_insert (unrankedItems tl1) position item) tl1)
      end
  end.

(** The body of [updateTier]: [Object.assign(tier, updates)] with the
    fields present in [updates]. *)
Definition updateTier_body (tl : TierList) (tierId : string)
    (newLabel newColor : option string) : result TierList :=
  match findIndex (has_tier_id tierId) (tiers tl) with
  | None => Err "Tier not found"
  | Some i =>
      match tiers tl !! i with
      | Some t =>
          Ok (set_tiers (<[i := set_label_color (default (label t) newLabel)
                                              (default (color t) newColor) t]> (tiers tl)) tl)
      | None => Err "Tier not found"
      end
  end.

(** The body of [addTier], given the generated id: the new document and
    the new tier. *)
Definition addTier_body (tl : TierList) (newId label color : string) : TierList * Tier :=
  let newTier := {| tier_id := newId; label := label; color := color; items := [];
                    order := Z.of_nat (length (tiers tl)) |} in
  (set_tiers (tiers tl ++ [newTier]) tl, newTier).

(** The body of [removeTier]. *)
Definition removeTier_body (tl : TierList) (tierId : string) : result TierList :=
  match findIndex (has_tier_id tierId) (tiers tl) with
  | None => Err "Tier not found"
  | Some i =>
      match tiers tl !! i with
      | Some t =>
          let tl1 := set_unranked (unrankedItems tl ++ items t) tl in
          Ok (set_tiers (renumber (take i (tiers tl1) ++ drop (S i) (tiers tl1))) tl1)
      | None => Err "Tier not found"
      end
  end.

(** The body of [reorderTiers].  [tierMap] holds the tier objects by id
    ([new Map] keeps the last tier of a repeated id); the [map] callback
    writes [order] on the shared tier object, so the tiers are read back
    from [tierMap] once the loop is done. *)
Definition tierMap_of (ts : list Tier) : gmap string Tier :=
  foldl (fun m t => <[tier_id t := t]> m) ∅ ts.

Fixpoint reorder_loop (tierMap : gmap string Tier) (ids : list string) (index : nat)
  : result (gmap string Tier) :=
  match ids with
  | [] => Ok tierMap
  | id :: r =>
      match tierMap !! id with
      | None => Err ("Tier with id " ++ id ++ " not found")%string
      | Some t => reorder_loop (<[id := set_order (Z.of_nat index) t]> tierMap) r (S index)
      end
  end.

Definition reorderTiers_body (tl : TierList) (tierIds : list string) : result TierList :=
  match reorder_loop (tierMap_of (tiers tl)) tierIds 0 with
  | Err e => Err e
  | Ok m => Ok (set_tiers (omap (fun id => m !! id) tierIds) tl)
  end.

(** [updateTierList]'s writes to the document. *)
Definition stamp_update (now : Z) (tl : TierList) : TierList :=
  set_metadata {| createdAt := createdAt (metadata tl); updatedAt := now;
                  version := version (metadata tl) + 1;
                  author := author (metadata tl) |} tl.

(* ------------------------------------------------------------------ *)
(** ** The engine ([TierListService]) *)

(** An event handler: its identity (what [indexOf] compares) and its
    behaviour on the emitted data, [Some msg] when it throws. *)
Record Handler := {
  h_id : nat;
  h_run : jval -> option string
}.

(** The service and its environment: the provider's state, the
    [eventListeners] registry, the log of handler invocations, the
    position in the id source and the clock. *)
Record Svc (St : Type) := mkSvc {
  storage : St;
  eventListeners : list (string * list Handler);
  called : list (string * nat);
  next_id : nat;
  clock : Z
}.
Arguments mkSvc {St}.
Arguments storage {St}.
Arguments eventListeners {St}.
Arguments called {St}.
Arguments next_id {St}.
Arguments clock {St}.

Definition set_storage {St} (st : St) (s : Svc St) : Svc St :=
  mkSvc st (eventListeners s) (called s) (next_id s) (clock s).
Definition set_listeners {St} (l : list (string * list Handler)) (s : Svc St) : Svc St :=
  mkSvc (storage s) l (called s) (next_id s) (clock s).
Definition log_call {St} (ev : string) (h : Handler) (s : Svc St) : Svc St :=
  mkSvc (storage s) (eventListeners s) (called s ++ [(ev, h_id h)]) (next_id s) (clock s).
Definition bump_id {St} (s : Svc St) : Svc St :=
  mkSvc (storage s) (eventListeners s) (called s) (S (next_id s)) (clock s).

Definition se_result {S A} (r : result A) : SE S A :=
  match r with Ok a => se_ret a | Err e => se_throw e end.

(** [listeners.forEach(listener => listener(data))] *)
Fixpoint run_listeners {St} (ev : string) (hs : list Handler) (data : jval)
  : SE (Svc St) unit :=
  match hs with
  | [] => se_ret tt
  | h :: r => fun s =>
      let s' := log_call ev h s in
      match h_run h data with
      | Some e => (Err e, s')
      | None => run_listeners ev r data s'
      end
  end.

Definition listeners_of {St} (ev : string) (s : Svc St) : list Handler :=
  default [] (assoc_get ev (eventListeners s)).

(** [emit(event, data)] *)
Definition emit {St} (ev : string) (data : jval) : SE (Svc St) unit :=
  fun s => run_listeners ev (listeners_of ev s) data s.

(** [on(event, listener)] *)
Definition on {St} (ev : string) (h : Handler) : SE (Svc St) unit :=
  fun s => (Ok tt, set_listeners (assoc_set ev (listeners_of ev s ++ [h]) (eventListeners s)) s).

(** [off(event, listener)] *)
Definition off {St} (ev : string) (h : Handler) : SE (Svc St) unit :=
  fun s =>
    match assoc_get ev (eventListeners s) with
    | Some hs =>
        match findIndex (fun h' => Nat.eqb (h_id h') (h_id h)) hs with
        | Some i =>
            (Ok tt, set_listeners (assoc_set ev (take i hs ++ drop (S i) hs)
                                             (eventListeners s)) s)
        | None => (Ok tt, s)
        end
    | None => (Ok tt, s)
    end.

Section Engine.
Context {St : Type}.
(** The [StorageProvider] the service was built with: [load], and
    [save], which resolves or rejects and may change the provider's
    state either way. *)
Variable st_load : St -> string -> option TierList.
Variable st_save : jval -> St -> result unit * St.
(** The identifiers [generateId] returns, in order. *)
Variable gen : nat -> string.

#[local] Abbreviation M := (SE (Svc St)).

Definition storage_load (id : string) : M (option TierList) :=
  fun s => (Ok (st_load (storage s) id), s).

Definition storage_save (v : jval) : M unit :=
  fun s => let (r, st') := st_save v (storage s) in (r, set_storage st' s).

Definition generateId : M string := fun s => (Ok (gen (next_id s)), bump_id s).

Definition new_Date : M Z := fun s => (Ok (clock s), s).

(** [const tierList = await this.storage.load(id);
     if (!tierList) throw new Error('Tier list not found');] *)
Definition load_or_throw (id : string) : M TierList :=
  (o <- storage_load id ;;
   match o with
   | None => se_throw "Tier list not found"
   | Some tl => se_ret tl
   end)%se.

Definition updateTierList (tl : TierList) : M unit :=
  (now <- new_Date ;;
   let tl' := stamp_update now tl in
   storage_save (tl_to_jval tl') ;;;
   emit "tierListUpdated" (tl_to_jval tl'))%se.

(** [addItem]: the item without its id is given by its other fields. *)
Definition addItem (tierListId : string) (ty : ItemType) (c : string)
    (md : option ItemMetadata) : M TierListItem :=
  (tl <- load_or_throw tierListId ;;
   i <- generateId ;;
   let newItem := {| item_id := i; item_type := ty; content := c; item_metadata := md |} in
   updateTierList (set_unranked (unrankedItems tl ++ [newItem]) tl) ;;;
   se_ret newItem)%se.

Definition moveItem (tierListId itemId : string) (targetTierId : option string)
    (position : Z) : M unit :=
  (tl <- load_or_throw tierListId ;;
   tl' <- se_result (moveItem_body tl itemId targetTierId position) ;;
   updateTierList tl')%se.

Definition updateTier (tierListId tierId : string) (newLabel newColor : option string)
  : M unit :=
  (tl <- load_or_throw tierListId ;;
   tl' <- se_result (updateTier_body tl tierId newLabel newColor) ;;
   updateTierList tl')%se.

Definition addTier (tierListId label color : string) : M Tier :=
  (tl <- load_or_throw tierListId ;;
   i <- generateId ;;
   let '(tl', newTier) := addTier_body tl i label color in
   updateTierList tl' ;;;
   se_ret newTier)%se.

Definition removeTier (tierListId tierId : string) : M unit :=
  (tl <- load_or_throw tierListId ;;
   tl' <- se_result (removeTier_body tl tierId) ;;
   updateTierList tl')%se.

Definition reorderTiers (tierListId : string) (tierIds : list string) : M unit :=
  (tl <- load_or_throw tierListId ;;
   tl' <- se_result (reorderTiers_body tl tierIds) ;;
   updateTierList tl')%se.

Definition exportTierList (tierListId : string) : M string :=
  (tl <- load_or_throw tierListId ;;
   se_ret (stringify_indented "" (tl_to_jval tl)))%se.

(** [JSON.parse], as in the local store. *)
Variable parse_json : string -> string + jval.

(** [importTierList]: the imported value is whatever [JSON.parse]
    returned; the fields are written on it and it is saved as is. *)
Definition importTierList (jsonData : string) : SE (Svc St) jval :=
  se_catch
    (v <- se_lift (parse_json jsonData) ;;
     i <- generateId ;;
     v1 <- se_lift (set_prop "id" (JStr i) v) ;;
     t1 <- new_Date ;;
     v2 <- se_lift (set_nested "metadata" "createdAt" (JDate (Some t1)) v1) ;;
     t2 <- new_Date ;;
     v3 <- se_lift (set_nested "metadata" "updatedAt" (JDate (Some t2)) v2) ;;
     v4 <- se_lift (set_nested "metadata" "version" (JNum 1) v3) ;;
     storage_save v4 ;;;
     emit "tierListCreated" v4 ;;;
     se_ret v4)%se
    (fun e => se_throw ("Failed to import tier list: " ++ e)%string).

(** [items.forEach(item => { item.id = generateId(); })] *)
Fixpoint fresh_items (l : list TierListItem) : SE (Svc St) (list TierListItem) :=
  match l with
  | [] => se_ret []
  | it :: r => (i <- generateId ;; r' <- fresh_items r ;; se_ret (set_item_id i it :: r'))%se
  end.

(** [tiers.forEach(tier => { tier.id = generateId(); tier.items.forEach(...) })] *)
Fixpoint fresh_tiers (l : list Tier) : SE (Svc St) (list Tier) :=
  match l with
  | [] => se_ret []
  | t :: r =>
      (i <- generateId ;; its <- fresh_items (items t) ;; r' <- fresh_tiers r ;;
       se_ret (set_items its (set_tier_id i t) :: r'))%se
  end.

(** [newTitle || `${originalTierList.title} (Copy)`] *)
Definition duplicate_title (orig : string) (newTitle : option string) : string :=
  match newTitle with
  | Some t => if String.eqb t "" then (orig ++ " (Copy)")%string else t
  | None => (orig ++ " (Copy)")%string
  end.

(** [duplicateTierList]: [deepClone] copies the document (a value here),
    then the copy gets its new ids, title and metadata. *)
Definition duplicateTierList (tierListId : string) (newTitle : option string)
  : SE (Svc St) TierList :=
  (orig <- load_or_throw tierListId ;;
   i <- generateId ;;
   t1 <- new_Date ;;
   t2 <- new_Date ;;
   ts <- fresh_tiers (tiers orig) ;;
   us <- fresh_items (unrankedItems orig) ;;
   let dup := {| tl_id := i; title := duplicate_title (title orig) newTitle;
                 description := description orig; tiers := ts; unrankedItems := us;
                 metadata := {| createdAt := t1; updatedAt := t2; version := 1;
                                author := author (metadata orig) |};
                 settings := settings orig |} in
   storage_save (tl_to_jval dup) ;;;
   emit "tierListCreated" (tl_to_jval dup) ;;;
   se_ret dup)%se.
End Engine.

(* ------------------------------------------------------------------ *)
(** ** Concrete stores *)

(** A browser whose quota admits every write. *)
Definition no_quota (items : gmap string string) : bool := true.

Definition cfg_default : LocalStorageConfig :=
  {| storageKey := None; versionKey := None; maxSize := None |}.

Definition cfg_small : LocalStorageConfig :=
  {| storageKey := None; versionKey := None; maxSize := Some 64 |}.

Definition blob_one_doc : string :=
  squote "{'version':'1.0.0','tierLists':{'d1':{'id':'d1','title':'Movies','tiers':[],'unrankedItems':[],'metadata':{'createdAt':'2023-11-14T22:13:20.123Z','updatedAt':'2023-11-14T22:13:20.123Z','version':3},'settings':{'theme':'default'}}},'settings':{'theme':'dark','autoSave':false}}".

Definition medium_one_doc : Medium :=
  {| ls_available := true; ls_items := {[ "tierlist_app_data" := blob_one_doc ]};
     ls_fits := no_quota |}.

Definition medium_empty : Medium :=
  {| ls_available := true; ls_items := ∅; ls_fits := no_quota |}.


(** A provider as the unit tests mock it: [load] resolves the fixture
    document when asked for its id, [save] resolves and records the saved
    object. *)
Definition mock_load (fixture : TierList) (saved : list jval) (id : string)
  : option TierList :=
  if String.eqb id (tl_id fixture) then Some fixture else None.

Definition mock_save (v : jval) (saved : list jval) : result unit * list jval :=
  (Ok tt, saved ++ [v]).

(** An id source. *)
Definition gen_ids (n : nat) : string := ("id-" ++ Z_to_dec (Z.of_nat n))%string.

Definition text_item (i : string) : TierListItem :=
  {| item_id := i; item_type := Text; content := i; item_metadata := None |}.

Definition tier_of (i lb : string) (its : list TierListItem) (o : Z) : Tier :=
  {| tier_id := i; label := lb; color := "#ff4444"; items := its; order := o |}.

(** A document "Movies" with tiers S (holding [a]) and A, and the pool
    [b; c; d]. *)
Definition doc_movies : TierList :=
  {| tl_id := "d1"; title := "Movies"; description := None;
     tiers := [tier_of "t1" "S" [text_item "a"] 0; tier_of "t2" "A" [] 1];
     unrankedItems := [text_item "b"; text_item "c"; text_item "d"];
     metadata := {| createdAt := 0; updatedAt := 0; version := 1; author := None |};
     settings := {| theme := "default"; layout := Standard; showLabels := true |} |}.

Definition svc0 : Svc (list jval) := mkSvc [] [] [] 0%nat 1000.

(** Two handlers: one that throws, one that returns. *)
Definition h_boom : Handler := {| h_id := 1; h_run := fun _ => Some "boom"%string |}.
Definition h_quiet : Handler := {| h_id := 2; h_run := fun _ => None |}.

(** A service with [h_boom] then [h_quiet] subscribed to ["tierListUpdated"]. *)
Definition svc_listening : Svc (list jval) :=
  snd (on "tierListUpdated" h_quiet (snd (on "tierListUpdated" h_boom svc0))).

(* ------------------------------------------------------------------ *)
(** ** Vocabulary of the properties *)

(** The service state after the handlers [hs] of [ev] have been called. *)
Definition record_calls {St} (ev : string) (hs : list Handler) (s : Svc St) : Svc St :=
  mkSvc (storage s) (eventListeners s) (called s ++ map (fun h => (ev, h_id h)) hs)
        (next_id s) (clock s).

(** The service state after [k] ids have been generated. *)
Definition bump_ids {St} (k : nat) (s : Svc St) : Svc St :=
  mkSvc (storage s) (eventListeners s) (called s) (next_id s + k) (clock s).

(** The values [importTierList] can stamp: a plain object whose
    [metadata] property is an object (a plain object, an array or a
    date). *)
Definition import_stampable (v : jval) : bool :=
  match v with
  | JObj kvs =>
      match assoc_get "metadata" kvs with
      | Some (JObj _) | Some (JArr _) | Some (JDate _) => true
      | _ => false
      end
  | _ => false
  end.

(** The object [importTierList] saves when the parsed value is the object
    [kvs] whose metadata is the object [md]. *)
Definition imported_object (i : string) (now : Z) (kvs md : list (string * jval)) : jval :=
  JObj (assoc_set "metadata"
          (JObj (assoc_set "version" (JNum 1)
                   (assoc_set "updatedAt" (JDate (Some now))
                      (assoc_set "createdAt" (JDate (Some now)) md))))
          (assoc_set "id" (JStr i) kvs)).

(** [i] is one of the ids [gen lo], ..., [gen (hi - 1)]. *)
Definition gen_between (gen : nat -> string) (lo hi : nat) (i : string) : Prop :=
  exists n, (lo <= n < hi)%nat /\ i = gen n.

(** Every id a document holds. *)
Definition doc_ids (tl : TierList) : list string :=
  tl_id tl :: map tier_id (tiers tl) ++ map item_id (all_items tl).

(** An item and a tier with their ids left out. *)
Definition item_shape (it : TierListItem) : ItemType * string * option ItemMetadata :=
  (item_type it, content it, item_metadata it).
Definition tier_shape (t : Tier)
  : string * string * Z * list (ItemType * string * option ItemMetadata) :=
  (label t, color t, order t, map item_shape (items t)).

(** The tiers and pool of a document with every id left out. *)
Definition doc_shape (tl : TierList) :=
  (map tier_shape (tiers tl), map item_shape (unrankedItems tl)).

(** A tier with its [order] left out. *)
Definition tier_unordered (t : Tier) : string * string * string * list TierListItem :=
  (tier_id t, label t, color t, items t).

(** The document-level mutations of claim C1, each followed by
    [updateTierList]'s stamp: a successful engine call on a stored
    document, with the id [addTier] generated as an argument. *)
Inductive Op :=
| OpMoveItem (itemId : string) (targetTierId : option string) (position : Z)
| OpAddTier (newId label color : string)
| OpRemoveTier (tierId : string)
| OpReorderTiers (tierIds : list string).

Definition apply_op (now : Z) (tl : TierList) (op : Op) : result TierList :=
  match op with
  | OpMoveItem i t p => match moveItem_body tl i t p with
                        | Ok tl' => Ok (stamp_update now tl')
                        | Err e => Err e
                        end
  | OpAddTier i lb cl => Ok (stamp_update now (fst (addTier_body tl i lb cl)))
  | OpRemoveTier t => match removeTier_body tl t with
                      | Ok tl' => Ok (stamp_update now tl')
                      | Err e => Err e
                      end
  | OpReorderTiers ids => match reorderTiers_body tl ids with
                          | Ok tl' => Ok (stamp_update now tl')
                          | Err e => Err e
                          end
  end.

Fixpoint run_ops (now : Z) (tl : TierList) (ops : list Op) : result TierList :=
  match ops with
  | [] => Ok tl
  | op :: r => match apply_op now tl op with
               | Ok tl' => run_ops now tl' r
               | Err e => Err e
               end
  end.

(** The argument conditions under which the invariant of claim C1 is
    kept: a new tier id is not already a tier id, and the list given to
    [reorderTiers] is a permutation of the tier ids. *)
Definition op_guard (tl : TierList) (op : Op) : Prop :=
  match op with
  | OpAddTier i _ _ => ~ In i (map tier_id (tiers tl))
  | OpReorderTiers ids => ids ≡ₚ map tier_id (tiers tl)
  | _ => True
  end.

Fixpoint guarded (now : Z) (tl : TierList) (ops : list Op) : Prop :=
  match ops with
  | [] => True
  | op :: r => op_guard tl op /\ forall tl', apply_op now tl op = Ok tl' -> guarded now tl' r
  end.

(* ------------------------------------------------------------------ *)
(** ** Further code of the engine ([TierListService]) *)

Section EngineMore.
Context {St : Type}.
Variable st_save : jval -> St -> result unit * St.
Variable gen : nat -> string.

(** [createDefaultTiers]: the labels and colors of the five default
    tiers. *)
Definition default_labels : list string := ["S"; "A"; "B"; "C"; "D"]%string.
Definition default_colors : list string :=
  ["#ff4444"; "#ff8800"; "#ffdd00"; "#88dd00"; "#4488dd"]%string.

(** [labels.map((label, index) => ({ id: generateId(), label,
    color: colors[index], items: [], order: index }))]; [colors[index]]
    is defined at every index of [labels]. *)
Fixpoint create_tiers (labels : list string) (index : nat) : SE (Svc St) (list Tier) :=
  match labels with
  | [] => se_ret []
  | lb :: r =>
      (i <- generateId gen ;;
       r' <- create_tiers r (S index) ;;
       se_ret ({| tier_id := i; label := lb;
                  color := default ""%string (default_colors !! index);
                  items := []; order := Z.of_nat index |} :: r'))%se
  end.

Definition createDefaultTiers : SE (Svc St) (list Tier) := create_tiers default_labels 0.

(** [createTierList(title, description)]: the fields are evaluated in
    the order of the object literal. *)
Definition createTierList (title : string) (description : option string)
  : SE (Svc St) TierList :=
  (i <- generateId gen ;;
   ts <- createDefaultTiers ;;
   t1 <- new_Date ;;
   t2 <- new_Date ;;
   let tl := {| tl_id := i; title := title; description := description; tiers := ts;
                unrankedItems := [];
                metadata := {| createdAt := t1; updatedAt := t2; version := 1;
                               author := None |};
                settings := {| theme := "default"; layout := Standard;
                               showLabels := true |} |} in
   storage_save st_save (tl_to_jval tl) ;;;
   emit "tierListCreated" (tl_to_jval tl) ;;;
   se_ret tl)%se.
End EngineMore.

(* ------------------------------------------------------------------ *)
(** ** Summaries ([toSummary], [generateThumbnail] of [src/utils]) *)

Record TierListSummary := {
  sum_id : string;
  sum_title : string;
  sum_createdAt : Z;
  sum_updatedAt : Z;
  itemCount : nat;
  thumbnail : option string
}.

Definition is_image (it : TierListItem) : bool :=
  match item_type it with Image => true | Text => false end.

(** [for (const item of l) if (item.type === 'image') return item.content;] *)
Fixpoint first_image (l : list TierListItem) : option string :=
  match l with
  | [] => None
  | it :: r => if is_image it then Some (content it) else first_image r
  end.

(** The loop over the tiers of [generateThumbnail]. *)
Fixpoint thumbnail_in_tiers (ts : list Tier) : option string :=
  match ts with
  | [] => None
  | t :: r => match first_image (items t) with
              | Some c => Some c
              | None => thumbnail_in_tiers r
              end
  end.

(** [generateThumbnail]: the tiers first, then the unranked pool;
    [None] is [undefined]. *)
Definition generateThumbnail (tl : TierList) : option string :=
  match thumbnail_in_tiers (tiers tl) with
  | Some c => Some c
  | None => first_image (unrankedItems tl)
  end.

Definition toSummary (tl : TierList) : TierListSummary :=
  {| sum_id := tl_id tl; sum_title := title tl;
     sum_createdAt := createdAt (metadata tl); sum_updatedAt := updatedAt (metadata tl);
     itemCount := (fold_left (fun count t => count + length (items t)) (tiers tl) 0
                   + length (unrankedItems tl))%nat;
     thumbnail := generateThumbnail tl |}.

(* ------------------------------------------------------------------ *)
(** ** Further code of the local store *)

Section LocalStoreMore.
Variable json_parse_fn : string -> string + jval.
Variable date_parse : string -> option Z.
Variable cfg : LocalStorageConfig.

#[local] Abbreviation loadAll := (loadAllData json_parse_fn date_parse cfg).

(** [delete data.tierLists[id]] *)
Definition delete_doc (id : string) (data : LocalStorageData) : LocalStorageData :=
  {| ld_version := ld_version data;
     ld_tierLists := List.filter (fun kv => negb (String.eqb (fst kv) id)) (ld_tierLists data);
     ld_theme := ld_theme data; ld_autoSave := ld_autoSave data |}.

(** [delete(id)] *)
Definition lsp_delete (id : string) : SE Medium unit :=
  (data <- loadAll ;; saveAllData cfg (delete_doc id data))%se.

(** [saveMultiple(tierLists)], at clock time [now]: one write for all
    the documents. *)
Definition lsp_saveMultiple (now : Z) (tierLists : list jval) : SE Medium unit :=
  (data <- loadAll ;;
   saveAllData cfg (fold_left (fun d tl => upsert now tl d) tierLists data))%se.

(** [loadMultiple(ids)]:
    [ids.map(id => data.tierLists[id]).filter(Boolean).map(parseDates)]. *)
Definition lsp_loadMultiple (ids : list string) : SE Medium (list jval) :=
  (data <- loadAll ;;
   let found := map (fun id => assoc_get id (ld_tierLists data)) ids in
   let kept := omap (fun o => match o with
                              | Some v => if truthy v then Some v else None
                              | None => None
                              end) found in
   se_ret (map (parseDates date_parse) kept))%se.
End LocalStoreMore.

(* ------------------------------------------------------------------ *)
(** ** The configuration manager ([ConfigManager] of [src/utils]) *)

Definition CONFIG_KEY : string := "tierlist_app_config".

(** [getDefaultConfig] *)
Definition getDefaultConfig : jval :=
  JObj [("storage", JObj [("type", JStr "local");
                          ("local", JObj [("storageKey", JStr "tierlist_app_data");
                                          ("versionKey", JStr "tierlist_app_version");
                                          ("maxSize", JNum (5 * 1024 * 1024))])]);
        ("features", JObj [("realTimeSync", JBool false); ("offlineMode", JBool true);
                           ("autoBackup", JBool true)]);
        ("ui", JObj [("theme", JStr "default"); ("animations", JBool true)])].

(** The properties an object spread [{ ...acc, ...v }] adds to [acc]: a
    key already present keeps its place, a new key goes last.  Objects
    are kept in insertion order; JavaScript enumerates integer-like keys
    first, in ascending order, and that reordering is not represented,
    so only the key-value pairs, not their order, are meant to match. *)
Definition spread_into (acc : list (string * jval)) (v : jval) : list (string * jval) :=
  fold_left (fun acc kv => assoc_set (fst kv) (snd kv) acc) (spread_entries v) acc.

(** The value [mergeConfig] stores under [key] for the update [value]:
    [{ ...current[key], ...value }] when [value] is a non-null,
    non-array object ([undefined] and [null] spread nothing), else
    [value]. *)
Definition merge_value (current : jval) (key : string) (value : jval) : jval :=
  match value with
  | JObj _ | JDate _ =>
      JObj (spread_into (spread_into [] (default JNull (get_prop key current))) value)
  | _ => value
  end.

(** [mergeConfig(current, updates)]; [Object.entries(updates)] lists the
    same properties as a spread ([updates] is never [null] here), and a
    parsed or built value is never [undefined]. *)
Definition mergeConfig (current updates : jval) : jval :=
  JObj (fold_left (fun acc kv => assoc_set (fst kv) (merge_value current (fst kv) (snd kv)) acc)
                  (spread_entries updates) (spread_into [] current)).

(** [validateConfig]: reading [config.storage] on [null] throws, which
    the [catch] turns into [false]; [includes] compares with [===]. *)
Definition validateConfig (config : jval) : bool :=
  match config with
  | JNull => false
  | _ =>
      match get_prop "storage" config with
      | Some st =>
          if truthy st then
            match get_prop "type" st with
            | Some (JStr t) =>
                negb (String.eqb t "")
                && existsb (String.eqb t) ["local"; "firebase"; "api"]%string
            | _ => false
            end
          else true
      | None => true
      end
  end.

Section Config.
Variable json_parse_fn : string -> string + jval.

(** [getConfig] *)
Definition getConfig : SE Medium jval :=
  se_catch
    (avail <- isLocalStorageAvailable ;;
     if negb avail then se_ret getDefaultConfig else
     stored <- getItem CONFIG_KEY ;;
     match stored with
     | Some s =>
         if String.eqb s "" then se_ret getDefaultConfig else
         parsedConfig <- se_lift (json_parse_fn s) ;;
         se_ret (JObj (spread_into (spread_into [] getDefaultConfig) parsedConfig))
     | None => se_ret getDefaultConfig
     end)%se
    (fun _ => se_ret getDefaultConfig).

(** [updateConfig(updates)]: a throwing write is caught and only logged. *)
Definition updateConfig (updates : jval) : SE Medium jval :=
  (currentConfig <- getConfig ;;
   let newConfig := mergeConfig currentConfig updates in
   se_catch
     (avail <- isLocalStorageAvailable ;;
      if avail then setItem CONFIG_KEY (stringify newConfig) else se_ret tt)
     (fun _ => se_ret tt) ;;;
   se_ret newConfig)%se.

(** [resetConfig]: a throwing write is caught and only logged. *)
Definition resetConfig : SE Medium jval :=
  (se_catch
     (avail <- isLocalStorageAvailable ;;
      if avail then setItem CONFIG_KEY (stringify getDefaultConfig) else se_ret tt)
     (fun _ => se_ret tt) ;;;
   se_ret getDefaultConfig)%se.

(** [getStorageConfig]: [this.getConfig().storage]. *)
Definition getStorageConfig : SE Medium (option jval) :=
  (c <- getConfig ;; se_ret (get_prop "storage" c))%se.

(** [updateStorageConfig(storageConfig)] *)
Definition updateStorageConfig (storageConfig : jval) : SE Medium jval :=
  updateConfig (JObj [("storage", storageConfig)]).

(** [exportConfig] *)
Definition exportConfig : SE Medium string :=
  (c <- getConfig ;; se_ret (stringify_indented "" c))%se.

(** [importConfig(jsonData)] *)
Definition importConfig (jsonData : string) : SE Medium jval :=
  se_catch
    (importedConfig <- se_lift (json_parse_fn jsonData) ;;
     if negb (validateConfig importedConfig)
     then se_throw "Invalid configuration format"
     else updateConfig importedConfig)%se
    (fun e => se_throw ("Failed to import configuration: " ++ e)%string).
End Config.

(* ------------------------------------------------------------------ *)
(** ** Vocabulary of the further properties *)

(** What [JSON.parse(JSON.stringify(v))] gives back: a [Date] becomes its
    ISO string ([null] when invalid). *)
Fixpoint json_erase (v : jval) : jval :=
  match v with
  | JArr l => JArr (map json_erase l)
  | JObj kvs => JObj (map (fun kv => (fst kv, json_erase (snd kv))) kvs)
  | JDate None => JNull
  | JDate (Some t) => JStr (iso_string t)
  | _ => v
  end.

(** A value holding no [Date] object, as [JSON.parse] returns. *)
Fixpoint date_free (v : jval) : bool :=
  match v with
  | JArr l => forallb date_free l
  | JObj kvs => forallb (fun kv => date_free (snd kv)) kvs
  | JDate _ => false
  | _ => true
  end.

(** The keys of an object. *)
Definition keys {A} (kvs : list (string * A)) : list string := map fst kvs.

(** The [order] fields of the tiers are their positions 0, ..., n-1. *)
Definition orders_contiguous (tl : TierList) : Prop :=
  map order (tiers tl) = map Z.of_nat (seq 0 (length (tiers tl))).


(** A configuration object: no repeated key, and [storage], [features]
    and [ui] first, in this order. *)
Definition config_shaped (c : jval) : Prop :=
  exists kvs, c = JObj kvs /\ NoDup (keys kvs)
              /\ take 3 (keys kvs) = ["storage"; "features"; "ui"]%string.

(** ** Concrete inputs of the further properties *)

(** A blob that is not JSON. *)
Definition medium_garbled : Medium :=
  {| ls_available := true; ls_items := {[ "tierlist_app_data" := "{oops" ]};
     ls_fits := no_quota |}.

(** A configuration whose storage key is the probe key. *)
Definition cfg_probe_key : LocalStorageConfig :=
  {| storageKey := Some test_key; versionKey := None; maxSize := None |}.

(** An update of the user interface theme only. *)
Definition ui_dark : jval := JObj [("ui", JObj [("theme", JStr "dark")])]%string.

(** A configuration stored with a custom storage key. *)
Definition medium_custom_config : Medium :=
  {| ls_available := true;
     ls_items := {[ CONFIG_KEY := squote "{'storage':{'type':'local','local':{'storageKey':'mine'}}}" ]};
     ls_fits := no_quota |}.

(** A browser quota counting the characters of the keys and values. *)
Definition quota_chars (q : nat) (items : gmap string string) : bool :=
  Nat.leb (map_fold (fun k v acc => String.length k + String.length v + acc)%nat 0%nat items) q.

(** The same stored configuration, in a browser with room for little more. *)
Definition medium_tight_config : Medium :=
  {| ls_available := true; ls_items := ls_items medium_custom_config;
     ls_fits := quota_chars 150 |}.

(* ================================================================== *)
(** * Properties *)

Open Scope list_scope.

(** ** The JSON layer on sample values *)

Example stringify_ex :
  stringify (JObj [("a", JArr [JNum (-12); JBool true; JNull]);
                   ("b", JStr (squote "x'y")); ("c", JDate (Some 0))])
  = squote "{'a':[-12,true,null],'b':'x\'y','c':'1970-01-01T00:00:00.000Z'}".
Proof. reflexivity. Qed.

Example iso_ex : iso_string 1700000000123 = "2023-11-14T22:13:20.123Z"%string.
Proof. reflexivity. Qed.

Example json_parse_ex :
  json_parse (squote " { 'a' : [1, -20, true, null], 'b': {'c': 'x\ny'}, 'a': false } ")
  = inr (JObj [("a", JBool false);
               ("b", JObj [("c", JStr (String "x" (String (ascii_of_nat 10) "y")))])]).
Proof. reflexivity. Qed.

Example json_parse_bad : json_parse "[1,]" = inl "Unexpected token in JSON"%string.
Proof. reflexivity. Qed.

Example date_parse_iso_ex :
  date_parse_iso (iso_string 1700000000123) = Some 1700000000123.
Proof. reflexivity. Qed.


(** ** The local store provider *)

Lemma isLocalStorageAvailable_eq (m : Medium) :
  isLocalStorageAvailable m
  = if probe_ok m then (Ok true, probed m) else (Ok false, m).
Proof.
  unfold isLocalStorageAvailable, probe_ok, probed, se_catch, se_bind, setItem, removeItem, se_ret.
  destruct (ls_available m); cbn [andb]; [|reflexivity].
  destruct (ls_fits m _); [|reflexivity].
  unfold with_items; cbn. rewrite delete_insert_eq. reflexivity.
Qed.

Lemma isLocalStorageAvailable_true (m : Medium) :
  fst (isLocalStorageAvailable m) = Ok true <-> probe_ok m = true.
Proof.
  rewrite isLocalStorageAvailable_eq.
  destruct (probe_ok m); cbn; split; congruence.
Qed.

Lemma probed_idem (m : Medium) : probed (probed m) = probed m.
Proof. unfold probed, with_items; cbn. rewrite delete_delete_eq. reflexivity. Qed.

Lemma probe_ok_probed (m : Medium) : probe_ok (probed m) = probe_ok m.
Proof. unfold probe_ok, probed, with_items; cbn. rewrite insert_delete_eq. reflexivity. Qed.

Lemma loadAllData_state parse dp cfg (m : Medium) :
  snd (loadAllData parse dp cfg m) = if probe_ok m then probed m else m.
Proof.
  unfold loadAllData, se_catch, se_bind.
  rewrite isLocalStorageAvailable_eq.
  destruct (probe_ok m) eqn:E; cbn; [|reflexivity].
  destruct (_ !! STORAGE_KEY cfg) as [s|]; cbn; [|reflexivity].
  destruct (String.eqb s ""); cbn; [reflexivity|].
  destruct (parse s); reflexivity.
Qed.

Lemma loadAllData_probed parse dp cfg (m : Medium) :
  fst (loadAllData parse dp cfg (probed m)) = fst (loadAllData parse dp cfg m).
Proof.
  unfold loadAllData, se_catch, se_bind.
  rewrite !isLocalStorageAvailable_eq, probe_ok_probed, probed_idem.
  destruct (probe_ok m); reflexivity.
Qed.

Lemma lsp_load_probed parse dp cfg id (m : Medium) :
  fst (lsp_load parse dp cfg id (probed m)) = fst (lsp_load parse dp cfg id m).
Proof.
  pose proof (loadAllData_probed parse dp cfg m) as H.
  unfold lsp_load, se_bind.
  destruct (loadAllData parse dp cfg (probed m)) as [r1 s1].
  destruct (loadAllData parse dp cfg m) as [r2 s2].
  cbn in H; subst r2. destruct r1; reflexivity.
Qed.

Lemma capacity_error_not_quota cfg n :
  String.eqb (capacity_error cfg n) QuotaExceededError = false.
Proof. reflexivity. Qed.

Lemma saveAllData_eq cfg data (m : Medium) :
  saveAllData cfg data m =
  if probe_ok m then
    let serialized := stringify (ld_to_jval data) in
    let size := Z.of_nat (String.length serialized) in
    let blob_written := <[STORAGE_KEY cfg := serialized]> (ls_items (probed m)) in
    if size >? provider_maxSize cfg then (Err (capacity_error cfg size), probed m)
    else if ls_fits m blob_written then
      if ls_fits m (<[VERSION_KEY cfg := CURRENT_VERSION]> blob_written)
      then (Ok tt, with_items m (<[VERSION_KEY cfg := CURRENT_VERSION]> blob_written))
      else (Err quota_message, with_items m blob_written)
    else (Err quota_message, probed m)
  else (Err "localStorage is not available"%string, m).
Proof.
  unfold saveAllData, se_catch, se_bind.
  rewrite isLocalStorageAvailable_eq.
  destruct (probe_ok m) eqn:E; cbn; [|reflexivity].
  destruct (_ >? _); cbn; [rewrite capacity_error_not_quota; reflexivity|].
  unfold setItem. cbn [probed with_items ls_fits ls_items].
  destruct (ls_fits m _); cbn; [|reflexivity].
  destruct (ls_fits m _); reflexivity.
Qed.

(** Claim C6.  When [localStorage] passes the code's availability check
    and the blob that a [save] would write (the loaded blob with the
    document upserted) serialises to more bytes than the provider's
    capacity, [save] throws the capacity error and writes nothing: the
    medium differs from the original only by the removal of the
    availability probe's own key, and every later [load] returns what it
    returned before the call. *)
Theorem save_over_capacity_writes_nothing
    parse dp cfg now (tierList : jval) (m : Medium) (data : LocalStorageData)
    (Havail : fst (isLocalStorageAvailable m) = Ok true)
    (Hload : fst (loadAllData parse dp cfg m) = Ok data)
    (Hsize : Z.of_nat (String.length (stringify (ld_to_jval (upsert now tierList data))))
             > provider_maxSize cfg) :
  fst (lsp_save parse dp cfg now tierList m)
    = Err (capacity_error cfg
             (Z.of_nat (String.length (stringify (ld_to_jval (upsert now tierList data))))))
  /\ ls_items (snd (lsp_save parse dp cfg now tierList m)) = delete test_key (ls_items m)
  /\ (forall id, fst (lsp_load parse dp cfg id (snd (lsp_save parse dp cfg now tierList m)))
                 = fst (lsp_load parse dp cfg id m)).
Proof.
  apply isLocalStorageAvailable_true in Havail.
  pose proof (loadAllData_state parse dp cfg m) as Hst.
  rewrite Havail in Hst.
  assert (Hsave : lsp_save parse dp cfg now tierList m
    = (Err (capacity_error cfg
              (Z.of_nat (String.length (stringify (ld_to_jval (upsert now tierList data)))))),
       probed m)).
  { unfold lsp_save, se_bind.
    destruct (loadAllData parse dp cfg m) as [r s]; cbn in Hload, Hst; subst r s.
    rewrite saveAllData_eq, probe_ok_probed, Havail; cbn zeta.
    apply Z.gt_lt, Z.ltb_lt in Hsize. rewrite Z.gtb_ltb, Hsize, probed_idem.
    reflexivity. }
  rewrite Hsave; cbn [fst snd]. split; [reflexivity|]. split; [reflexivity|].
  intros id; apply lsp_load_probed.
Qed.

Lemma validateAndMigrateData_non_object dp (v : jval) :
  truthy v = false \/ is_object v = false ->
  validateAndMigrateData dp v = createEmptyData.
Proof.
  intros H; unfold validateAndMigrateData.
  destruct H as [H|H]; rewrite H; [reflexivity|].
  rewrite orb_true_r; reflexivity.
Qed.

(** Claim C5 (as the code has it).  Whole-store [import] fails, with
    ["Failed to import data: " ++ cause] and the medium untouched, when
    the text is not JSON.  Every parseable text goes to the write of
    [validateAndMigrateData] of the parsed value, and [import] fails,
    with ["Failed to import data: "] followed by the write's message,
    exactly when that write fails: storage unavailable or refusing the
    availability probe, blob over the provider's capacity, or the
    browser's quota refusing the blob, or the version key written after
    it (the blob is then already replaced).  A successful import leaves
    the serialised migrated value as the blob, whatever the store held
    before, never a merge; a falsy or non-object value (such as [null])
    is migrated to the empty blob, so importing it empties the store. *)
Theorem import_replaces_or_fails parse dp cfg (s : string) (m : Medium) :
  match parse s with
  | inl e => lsp_import parse dp cfg s m = (Err ("Failed to import data: " ++ e)%string, m)
  | inr v =>
      let blob := stringify (ld_to_jval (validateAndMigrateData dp v)) in
      let blob_written := <[STORAGE_KEY cfg := blob]> (ls_items (probed m)) in
      lsp_import parse dp cfg s m =
        if negb (probe_ok m) then
          (Err "Failed to import data: localStorage is not available"%string, m)
        else if Z.of_nat (String.length blob) >? provider_maxSize cfg then
          (Err ("Failed to import data: "
                ++ capacity_error cfg (Z.of_nat (String.length blob)))%string, probed m)
        else if negb (ls_fits m blob_written) then
          (Err ("Failed to import data: " ++ quota_message)%string, probed m)
        else if negb (ls_fits m (<[VERSION_KEY cfg := CURRENT_VERSION]> blob_written)) then
          (Err ("Failed to import data: " ++ quota_message)%string, with_items m blob_written)
        else
          (Ok tt, with_items m (<[VERSION_KEY cfg := CURRENT_VERSION]> blob_written))
  end
  /\ (forall v, truthy v = false \/ is_object v = false ->
       validateAndMigrateData dp v = createEmptyData).
Proof.
  split; [|apply validateAndMigrateData_non_object].
  unfold lsp_import, se_catch, se_bind, se_lift.
  destruct (parse s) as [e|v]; cbn; [reflexivity|].
  rewrite saveAllData_eq.
  destruct (probe_ok m); cbn; [|reflexivity].
  destruct (_ >? _); [reflexivity|].
  destruct (ls_fits m _); cbn; [|reflexivity].
  destruct (ls_fits m _); reflexivity.
Qed.

(** The import of the text [null] over a store holding a document:
    accepted, and the store is left holding the empty blob. *)
Lemma import_null_empties_store :
  let r := lsp_import json_parse date_parse_iso cfg_default "null" medium_one_doc in
  json_parse "null" = inr JNull
  /\ fst r = Ok tt
  /\ ls_items medium_one_doc !! "tierlist_app_data" = Some blob_one_doc
  /\ ls_items (snd r) !! "tierlist_app_data"
     = Some (squote "{'version':'1.0.0','tierLists':{},'settings':{'theme':'default','autoSave':true}}").
Proof. vm_compute. repeat split. Qed.

Lemma import_replaces_or_fails_witness :
  (truthy JNull = false \/ is_object JNull = false)
  /\ validateAndMigrateData date_parse_iso JNull = createEmptyData.
Proof.
  assert (H : truthy JNull = false \/ is_object JNull = false) by (left; reflexivity).
  split; [exact H|].
  exact (proj2 (import_replaces_or_fails json_parse date_parse_iso cfg_default "null"
                  medium_one_doc) JNull H).
Defined.

Lemma save_over_capacity_writes_nothing_witness :
  let tl := JObj [("id", JStr "d1")] in
  fst (isLocalStorageAvailable medium_empty) = Ok true
  /\ fst (loadAllData json_parse date_parse_iso cfg_small medium_empty) = Ok createEmptyData
  /\ Z.of_nat (String.length (stringify (ld_to_jval (upsert 0 tl createEmptyData))))
     > provider_maxSize cfg_small
  /\ fst (lsp_save json_parse date_parse_iso cfg_small 0 tl medium_empty)
     = Err (capacity_error cfg_small
              (Z.of_nat (String.length (stringify (ld_to_jval (upsert 0 tl createEmptyData)))))).
Proof.
  intros tl.
  assert (Ha : fst (isLocalStorageAvailable medium_empty) = Ok true) by (vm_compute; reflexivity).
  assert (Hl : fst (loadAllData json_parse date_parse_iso cfg_small medium_empty)
               = Ok createEmptyData) by (vm_compute; reflexivity).
  assert (Hs : Z.of_nat (String.length (stringify (ld_to_jval (upsert 0 tl createEmptyData))))
               > provider_maxSize cfg_small) by (vm_compute; reflexivity).
  split; [exact Ha|]. split; [exact Hl|]. split; [exact Hs|].
  exact (proj1 (save_over_capacity_writes_nothing json_parse date_parse_iso cfg_small 0 tl
                  medium_empty createEmptyData Ha Hl Hs)).
Defined.

(** ** Monad laws used below *)

Lemma se_bind_ok {S A B} (m : SE S A) (k : A -> SE S B) s a s' :
  m s = (Ok a, s') -> se_bind m k s = k a s'.
Proof. intros H; unfold se_bind; rewrite H; reflexivity. Qed.

Lemma se_bind_err {S A B} (m : SE S A) (k : A -> SE S B) s e s' :
  m s = (Err e, s') -> se_bind m k s = (Err e, s').
Proof. intros H; unfold se_bind; rewrite H; reflexivity. Qed.

Section EngineFacts.
Context {St : Type}.
Variable st_load : St -> string -> option TierList.
Variable st_save : jval -> St -> result unit * St.
Variable gen : nat -> string.

Lemma load_or_throw_none id (s : Svc St) :
  st_load (storage s) id = None ->
  load_or_throw st_load id s = (Err "Tier list not found", s).
Proof. intros H; unfold load_or_throw, se_bind, storage_load; rewrite H; reflexivity. Qed.

Lemma load_or_throw_some id (s : Svc St) tl :
  st_load (storage s) id = Some tl -> load_or_throw st_load id s = (Ok tl, s).
Proof. intros H; unfold load_or_throw, se_bind, storage_load; rewrite H; reflexivity. Qed.

Lemma run_listeners_quiet ev hs data (s : Svc St) :
  Forall (fun h => h_run h data = None) hs ->
  run_listeners ev hs data s = (Ok tt, record_calls ev hs s).
Proof.
  revert s; induction hs as [|h hs IH]; intros s Hq.
  - destruct s; unfold record_calls; cbn; rewrite app_nil_r; reflexivity.
  - inversion Hq as [|? ? Hh Hr]; subst; cbn [run_listeners].
    rewrite Hh, IH by exact Hr.
    destruct s; unfold record_calls, log_call; cbn; rewrite <- app_assoc; reflexivity.
Qed.

Lemma run_listeners_throw ev pre h post data e (s : Svc St) :
  Forall (fun h => h_run h data = None) pre -> h_run h data = Some e ->
  run_listeners ev (pre ++ h :: post) data s = (Err e, record_calls ev (pre ++ [h]) s).
Proof.
  revert s; induction pre as [|h' pre IH]; intros s Hq He.
  - cbn [app run_listeners]; rewrite He.
    destruct s; reflexivity.
  - inversion Hq as [|? ? Hh Hr]; subst; cbn [app run_listeners].
    rewrite Hh, IH by assumption.
    destruct s; unfold record_calls, log_call; cbn; rewrite <- app_assoc; reflexivity.
Qed.
End EngineFacts.

(** ** Operations on a missing document *)

(** Claim C10.  When the provider's [load] finds no document under the
    given id, each of [addItem], [updateTier], [addTier], [removeTier],
    [reorderTiers], [moveItem], [duplicateTierList] and [exportTierList]
    throws ["Tier list not found"] and leaves the service state, the
    provider's state included, as it was: nothing is generated, saved or
    emitted. *)
Theorem ops_fail_on_missing_document {St} st_load st_save gen (s : Svc St) (docId : string)
    (Hnone : st_load (storage s) docId = None) :
  (forall ty c md, addItem st_load st_save gen docId ty c md s = (Err "Tier list not found", s))
  /\ (forall tierId l c, updateTier st_load st_save docId tierId l c s
                         = (Err "Tier list not found", s))
  /\ (forall l c, addTier st_load st_save gen docId l c s = (Err "Tier list not found", s))
  /\ (forall tierId, removeTier st_load st_save docId tierId s = (Err "Tier list not found", s))
  /\ (forall ids, reorderTiers st_load st_save docId ids s = (Err "Tier list not found", s))
  /\ (forall itemId t p, moveItem st_load st_save docId itemId t p s
                         = (Err "Tier list not found", s))
  /\ (forall nt, duplicateTierList st_load st_save gen docId nt s
                 = (Err "Tier list not found", s))
  /\ exportTierList st_load docId s = (Err "Tier list not found", s).
Proof.
  pose proof (load_or_throw_none st_load docId s Hnone) as H.
  repeat split; intros;
    first [ unfold addItem | unfold updateTier | unfold addTier | unfold removeTier
          | unfold reorderTiers | unfold moveItem | unfold duplicateTierList
          | unfold exportTierList ];
    apply se_bind_err; exact H.
Qed.

Lemma ops_fail_on_missing_document_witness :
  mock_load doc_movies (storage svc0) "zz" = None
  /\ exportTierList (mock_load doc_movies) "zz" svc0 = (Err "Tier list not found", svc0).
Proof.
  assert (H : mock_load doc_movies (storage svc0) "zz" = None) by reflexivity.
  split; [exact H|].
  exact (proj2 (proj2 (proj2 (proj2 (proj2 (proj2 (proj2
    (ops_fail_on_missing_document (mock_load doc_movies) mock_save gen_ids svc0 "zz" H)))))))).
Defined.

(** ** Events *)

Lemma assoc_get_set_eq {A} k (v : A) l : assoc_get k (assoc_set k v l) = Some v.
Proof.
  induction l as [|[k' v'] l IH]; cbn; [rewrite String.eqb_refl; reflexivity|].
  destruct (String.eqb k k') eqn:E; cbn; [rewrite String.eqb_refl; reflexivity|].
  rewrite E; exact IH.
Qed.

Lemma assoc_get_set_ne {A} k k' (v : A) l :
  k <> k' -> assoc_get k (assoc_set k' v l) = assoc_get k l.
Proof.
  intros Hne; induction l as [|[k'' v'] l IH]; cbn.
  - apply String.eqb_neq in Hne; rewrite Hne; reflexivity.
  - destruct (String.eqb k' k'') eqn:E; cbn.
    + apply String.eqb_eq in E; subst k''.
      apply String.eqb_neq in Hne; rewrite Hne; reflexivity.
    + destruct (String.eqb k k''); [reflexivity|exact IH].
Qed.

Lemma assoc_set_set_eq {A} k (v w : A) l : assoc_set k v (assoc_set k w l) = assoc_set k v l.
Proof.
  induction l as [|[k' v'] l IH]; cbn; [rewrite String.eqb_refl; reflexivity|].
  destruct (String.eqb k k') eqn:E; cbn; rewrite ?String.eqb_refl, ?E; [reflexivity|].
  rewrite IH; reflexivity.
Qed.

Lemma updateTierList_eq {St} (st_save : jval -> St -> result unit * St) tl (s : Svc St) :
  updateTierList st_save tl s =
  match st_save (tl_to_jval (stamp_update (clock s) tl)) (storage s) with
  | (Err e, st') => (Err e, set_storage st' s)
  | (Ok _, st') => emit "tierListUpdated" (tl_to_jval (stamp_update (clock s) tl)) (set_storage st' s)
  end.
Proof.
  unfold updateTierList, se_bind, new_Date, storage_save.
  destruct (st_save _ _) as [[u|e] st']; reflexivity.
Qed.

(** Claim C3 (as the code has it).  [emit] calls the event's handlers
    synchronously, in registration order, logging each call.  When none
    throws, all are called and [emit] returns normally.  When a handler
    throws, the handlers registered after it are not called and the
    exception propagates out of [emit]; in [updateTierList] (so in every
    mutation) it reaches the caller after the document has been saved. *)
Theorem emit_calls_in_order_until_a_throw {St} (st_save : jval -> St -> result unit * St)
    (ev : string) (data : jval) (s : Svc St) :
  (Forall (fun h => h_run h data = None) (listeners_of ev s) ->
     emit ev data s = (Ok tt, record_calls ev (listeners_of ev s) s))
  /\ (forall pre h post e,
        listeners_of ev s = (pre ++ h :: post)%list ->
        Forall (fun h => h_run h data = None) pre -> h_run h data = Some e ->
        emit ev data s = (Err e, record_calls ev ((pre ++ [h])%list) s))
  /\ (forall tl st' pre h post e,
        let v := tl_to_jval (stamp_update (clock s) tl) in
        st_save v (storage s) = (Ok tt, st') ->
        listeners_of "tierListUpdated" s = (pre ++ h :: post)%list ->
        Forall (fun h => h_run h v = None) pre -> h_run h v = Some e ->
        updateTierList st_save tl s
          = (Err e, record_calls "tierListUpdated" ((pre ++ [h])%list) (set_storage st' s))).
Proof.
  split; [|split].
  - intros Hq; unfold emit; apply run_listeners_quiet; exact Hq.
  - intros pre h post e Hl Hq He; unfold emit; rewrite Hl.
    apply run_listeners_throw; assumption.
  - intros tl st' pre h post e v Hsave Hl Hq He.
    rewrite updateTierList_eq; fold v; rewrite Hsave.
    unfold emit; change (listeners_of "tierListUpdated" (set_storage st' s))
                   with (listeners_of "tierListUpdated" s).
    rewrite Hl; apply run_listeners_throw; assumption.
Qed.

Lemma emit_calls_in_order_until_a_throw_witness :
  let v := tl_to_jval (stamp_update (clock svc_listening) doc_movies) in
  mock_save v (storage svc_listening) = (Ok tt, [v])
  /\ listeners_of "tierListUpdated" svc_listening = [] ++ h_boom :: [h_quiet]
  /\ h_run h_boom v = Some "boom"
  /\ updateTierList mock_save doc_movies svc_listening
     = (Err "boom", record_calls "tierListUpdated" [h_boom] (set_storage [v] svc_listening)).
Proof.
  intros v.
  assert (H1 : mock_save v (storage svc_listening) = (Ok tt, [v])) by reflexivity.
  assert (H2 : listeners_of "tierListUpdated" svc_listening = [] ++ h_boom :: [h_quiet])
    by reflexivity.
  assert (H3 : h_run h_boom v = Some "boom") by reflexivity.
  split; [exact H1|]. split; [exact H2|]. split; [exact H3|].
  exact (proj2 (proj2 (emit_calls_in_order_until_a_throw mock_save "tierListUpdated" v
                         svc_listening))
           doc_movies [v] [] h_boom [h_quiet] "boom" H1 H2 (List.Forall_nil _) H3).
Defined.

(** With [h_boom] then [h_quiet] subscribed to ["tierListUpdated"], a
    [moveItem] on a stored document saves it, calls [h_boom] alone and
    throws [h_boom]'s error to its caller. *)
Lemma throwing_listener_aborts_moveItem :
  let r := moveItem (mock_load doc_movies) mock_save "d1" "d" None 0 svc_listening in
  listeners_of "tierListUpdated" svc_listening = [h_boom; h_quiet]
  /\ fst r = Err "boom"
  /\ called (snd r) = [("tierListUpdated", 1%nat)]
  /\ length (storage (snd r)) = 1%nat.
Proof. vm_compute. repeat split. Qed.

(** ** Importing one document *)

(** Claim C4 (as the code has it).  [importTierList] fails, with
    ["Failed to import tier list: "] before the cause, when the text does
    not parse, and when the parsed value cannot be stamped: it is not a
    plain object, or its [metadata] is missing or not an object.  There
    is no schema check.  Every parsed plain object whose [metadata] is an
    object (a plain object, an array or a date) gets a fresh [id] and is
    then saved and announced with ["tierListCreated"]: the call returns
    it when the provider's [save] succeeds and no listener throws, and
    fails with the prefix before the save's or the listener's error
    otherwise (a throwing listener runs after the save).  When
    [metadata] is a plain object, the saved value is the parsed object
    with that id, [createdAt] and [updatedAt] set to now and [version]
    1. *)
Theorem import_outcomes {St} st_save gen parse (jsonData : string) (s : Svc St) :
  (forall e, parse jsonData = inl e ->
     importTierList st_save gen parse jsonData s
       = (Err ("Failed to import tier list: " ++ e)%string, s))
  /\ (forall v, parse jsonData = inr v -> import_stampable v = false ->
       exists e, importTierList st_save gen parse jsonData s
                 = (Err ("Failed to import tier list: " ++ e)%string, bump_id s))
  /\ (forall v, parse jsonData = inr v -> import_stampable v = true ->
       exists v', get_prop "id" v' = Some (JStr (gen (next_id s)))
         /\ importTierList st_save gen parse jsonData s
            = match st_save v' (storage s) with
              | (Err e, st') =>
                  (Err ("Failed to import tier list: " ++ e)%string, set_storage st' (bump_id s))
              | (Ok _, st') =>
                  match emit "tierListCreated" v' (set_storage st' (bump_id s)) with
                  | (Ok _, s') => (Ok v', s')
                  | (Err e, s') => (Err ("Failed to import tier list: " ++ e)%string, s')
                  end
              end)
  /\ (forall kvs md, parse jsonData = inr (JObj kvs) ->
       assoc_get "metadata" kvs = Some (JObj md) ->
       let v := imported_object (gen (next_id s)) (clock s) kvs md in
       (forall e st', st_save v (storage s) = (Err e, st') ->
          importTierList st_save gen parse jsonData s
            = (Err ("Failed to import tier list: " ++ e)%string, set_storage st' (bump_id s)))
       /\ (forall st', st_save v (storage s) = (Ok tt, st') ->
            Forall (fun h => h_run h v = None) (listeners_of "tierListCreated" s) ->
            importTierList st_save gen parse jsonData s
              = (Ok v, record_calls "tierListCreated" (listeners_of "tierListCreated" s)
                                     (set_storage st' (bump_id s))))
       /\ (forall st' pre h post e, st_save v (storage s) = (Ok tt, st') ->
            listeners_of "tierListCreated" s = (pre ++ h :: post)%list ->
            Forall (fun h => h_run h v = None) pre -> h_run h v = Some e ->
            importTierList st_save gen parse jsonData s
              = (Err ("Failed to import tier list: " ++ e)%string,
                 record_calls "tierListCreated" ((pre ++ [h])%list)
                              (set_storage st' (bump_id s))))).
Proof.
  split; [|split; [|split]].
  - intros e He; unfold importTierList, se_catch, se_bind, se_lift; rewrite He.
    reflexivity.
  - intros v Hv Hst; unfold importTierList, se_catch, se_bind, se_lift; rewrite Hv.
    destruct v as [| | | |l|kvs|t]; cbn; try (eexists; reflexivity).
    assert (Hmd : assoc_get "metadata" (assoc_set "id" (JStr (gen (next_id s))) kvs)
                  = assoc_get "metadata" kvs) by (apply assoc_get_set_ne; discriminate).
    unfold set_nested at 1; cbn [get_prop]; rewrite Hmd.
    cbn in Hst; destruct (assoc_get "metadata" kvs) as [[| | | | | |]|];
      try discriminate; cbn; eexists; reflexivity.
  - intros v Hv Hst; unfold importTierList, se_catch, se_bind, se_lift; rewrite Hv.
    destruct v as [| | | |l|kvs|t]; try discriminate; cbn.
    assert (Hmd : assoc_get "metadata" (assoc_set "id" (JStr (gen (next_id s))) kvs)
                  = assoc_get "metadata" kvs) by (apply assoc_get_set_ne; discriminate).
    unfold set_nested; cbn [get_prop]; rewrite Hmd.
    cbn in Hst; destruct (assoc_get "metadata" kvs) as [[| | | |l|md|t]|];
      try discriminate; cbn;
      repeat (rewrite assoc_get_set_eq; cbn); rewrite ?assoc_set_set_eq;
      (match goal with |- context [storage_save _ ?V (bump_id s)] => exists V end; split;
       [cbn [get_prop]; rewrite assoc_get_set_ne by discriminate; apply assoc_get_set_eq|]);
      unfold storage_save; cbn [storage bump_id];
      (destruct (st_save _ _) as [[u0|e] st']; [|reflexivity]);
      cbn; unfold emit;
      match goal with |- context [run_listeners ?a ?b ?c ?d] =>
        destruct (run_listeners a b c d) as [[u|e] s'] end; reflexivity.
  - intros kvs md Hv Hmd v.
    assert (Heq :
      importTierList st_save gen parse jsonData s
      = match st_save v (storage s) with
        | (Err e, st') =>
            (Err ("Failed to import tier list: " ++ e)%string, set_storage st' (bump_id s))
        | (Ok _, st') =>
            match emit "tierListCreated" v (set_storage st' (bump_id s)) with
            | (Ok _, s') => (Ok v, s')
            | (Err e, s') => (Err ("Failed to import tier list: " ++ e)%string, s')
            end
        end).
    { unfold importTierList, se_catch, se_bind, se_lift; rewrite Hv; cbn.
      unfold set_nested; cbn [get_prop].
      rewrite assoc_get_set_ne by discriminate. rewrite Hmd; cbn.
      rewrite assoc_get_set_eq; cbn. rewrite assoc_set_set_eq.
      rewrite assoc_get_set_eq; cbn. rewrite assoc_set_set_eq.
      subst v; unfold imported_object.
      unfold storage_save; cbn [storage bump_id].
      destruct (st_save _ _) as [[u0|e] st']; [|reflexivity].
      cbn; unfold emit;
      match goal with |- context [run_listeners ?a ?b ?c ?d] =>
        destruct (run_listeners a b c d) as [[u|e] s'] end; reflexivity. }
    split; [|split].
    + intros e st' Hsave; rewrite Heq, Hsave; reflexivity.
    + intros st' Hsave Hq; rewrite Heq, Hsave.
      unfold emit; rewrite run_listeners_quiet by exact Hq; reflexivity.
    + intros st' pre h post e Hsave Hl Hq He; rewrite Heq, Hsave.
      unfold emit; change (listeners_of "tierListCreated" (set_storage st' (bump_id s)))
                     with (listeners_of "tierListCreated" s).
      rewrite Hl, (run_listeners_throw _ pre h post v e) by assumption; reflexivity.
Qed.

Lemma import_outcomes_witness :
  let md := @nil (string * jval) in
  let kvs := [("metadata", JObj md)] in
  let v := imported_object (gen_ids (next_id svc0)) (clock svc0) kvs md in
  json_parse (squote "{'metadata':{}}") = inr (JObj kvs)
  /\ assoc_get "metadata" kvs = Some (JObj md)
  /\ mock_save v (storage svc0) = (Ok tt, [v])
  /\ Forall (fun h => h_run h v = None) (listeners_of "tierListCreated" svc0)
  /\ importTierList mock_save gen_ids json_parse (squote "{'metadata':{}}") svc0
     = (Ok v, record_calls "tierListCreated" (listeners_of "tierListCreated" svc0)
                           (set_storage [v] (bump_id svc0)))
  /\ import_stampable (JObj kvs) = true
  /\ (exists v', get_prop "id" v' = Some (JStr (gen_ids (next_id svc0)))).
Proof.
  intros md kvs v.
  assert (H1 : json_parse (squote "{'metadata':{}}") = inr (JObj kvs)) by (vm_compute; reflexivity).
  assert (H2 : assoc_get "metadata" kvs = Some (JObj md)) by reflexivity.
  assert (H3 : mock_save v (storage svc0) = (Ok tt, [v])) by reflexivity.
  assert (H4 : Forall (fun h => h_run h v = None) (listeners_of "tierListCreated" svc0))
    by (apply List.Forall_nil).
  assert (H5 : import_stampable (JObj kvs) = true) by reflexivity.
  pose proof (import_outcomes mock_save gen_ids json_parse (squote "{'metadata':{}}") svc0)
    as (_ & _ & H6 & H7).
  split; [exact H1|]. split; [exact H2|]. split; [exact H3|]. split; [exact H4|].
  split; [exact (proj1 (proj2 (H7 kvs md H1 H2)) [v] H3 H4)|].
  split; [exact H5|].
  destruct (H6 (JObj kvs) H1 H5) as (v' & Hid & _).
  exists v'; exact Hid.
Defined.

(** An object whose [metadata] is an array is accepted and saved: the
    saved value carries the fresh id. *)
Lemma import_accepts_array_metadata :
  let r := importTierList mock_save gen_ids json_parse (squote "{'metadata':[]}") svc0 in
  import_stampable (JObj [("metadata", JArr [])]) = true
  /\ option_map (get_prop "id") (match fst r with Ok v => Some v | Err _ => None end)
     = Some (Some (JStr "id-0"))
  /\ length (storage (snd r)) = 1%nat.
Proof. vm_compute. repeat split. Qed.

(** The object with an empty [metadata] and no other field, which
    [validateTierList] rejects, is imported and saved. *)
Lemma import_accepts_non_document :
  let kvs := [("metadata", JObj [])] in
  json_parse (squote "{'metadata':{}}") = inr (JObj kvs)
  /\ validateTierList (JObj kvs) = false
  /\ fst (importTierList mock_save gen_ids json_parse (squote "{'metadata':{}}") svc0)
     = Ok (imported_object "id-0" 1000 kvs [])
  /\ length (storage (snd (importTierList mock_save gen_ids json_parse
                             (squote "{'metadata':{}}") svc0))) = 1%nat.
Proof. vm_compute. repeat split. Qed.

(** ** List facts of the document mutations *)

Lemma findIndex_Some {A} (p : A -> bool) l i :
  findIndex p l = Some i -> exists x, l !! i = Some x /\ p x = true.
Proof.
  revert i; induction l as [|x l IH]; intros i H; cbn in H; [discriminate|].
  destruct (p x) eqn:E.
  - injection H as <-; exists x; split; [reflexivity|exact E].
  - destruct (findIndex p l) as [j|] eqn:F; cbn in H; [|discriminate].
    injection H as <-. destruct (IH j eq_refl) as (y & Hy & Hp).
    exists y; split; [exact Hy|exact Hp].
Qed.

Lemma findIndex_None {A} (p : A -> bool) l :
  findIndex p l = None <-> (forall x, x ∈ l -> p x = false).
Proof.
  induction l as [|x l IH]; cbn.
  - split; [intros _ y Hy; inversion Hy|reflexivity].
  - destruct (p x) eqn:E; split.
    + discriminate.
    + intros H; rewrite (H x) in E; [discriminate|left].
    + intros H y Hy; apply elem_of_cons in Hy as [->|Hy]; [exact E|].
      destruct (findIndex p l); [discriminate|]. apply IH; [reflexivity|exact Hy].
    + intros H. rewrite (proj2 IH); [reflexivity|].
      intros y Hy; apply H; right; exact Hy.
Qed.

Lemma has_tier_id_true id t : has_tier_id id t = true <-> tier_id t = id.
Proof. unfold has_tier_id; apply String.eqb_eq. Qed.
Lemma has_item_id_true id it : has_item_id id it = true <-> item_id it = id.
Proof. unfold has_item_id; apply String.eqb_eq. Qed.

Lemma findIndex_has_tier_id_None id ts :
  ~ In id (map tier_id ts) -> findIndex (has_tier_id id) ts = None.
Proof.
  intros Hn; apply findIndex_None; intros t Ht.
  destruct (has_tier_id id t) eqn:E; [|reflexivity].
  apply has_tier_id_true in E; subst id.
  exfalso; apply Hn, in_map, list_elem_of_In, Ht.
Qed.

Lemma findIndex_has_tier_id_Some id ts :
  In id (map tier_id ts) -> exists i, findIndex (has_tier_id id) ts = Some i.
Proof.
  intros Hin; destruct (findIndex (has_tier_id id) ts) as [i|] eqn:F; [eauto|].
  apply in_map_iff in Hin as (t & Ht & Hin).
  apply list_elem_of_In in Hin.
  pose proof (proj1 (findIndex_None _ _) F t Hin) as E.
  unfold has_tier_id in E; rewrite Ht, String.eqb_refl in E; discriminate.
Qed.

Lemma take_drop_perm {A} (l : list A) i x :
  l !! i = Some x -> l ≡ₚ x :: take i l ++ drop (S i) l.
Proof.
  intros H. rewrite <- (take_drop_middle l i x H) at 1.
  symmetry; apply Permutation_middle.
Qed.

Lemma splice_insert_perm {A} (l : list A) p x : splice_insert l p x ≡ₚ x :: l.
Proof.
  unfold splice_insert. rewrite <- Permutation_middle, take_drop. reflexivity.
Qed.

Lemma splice_remove_Some {A} (l : list A) i x :
  l !! i = Some x -> splice_remove l i = Some (x, take i l ++ drop (S i) l).
Proof. intros H; unfold splice_remove; rewrite H; reflexivity. Qed.

Lemma map_imap_invariant {A B} (g : A -> B) (f : nat -> A -> A) (l : list A) :
  (forall i x, g (f i x) = g x) -> map g (imap f l) = map g l.
Proof.
  revert f; induction l as [|x l IH]; intros f Hf; [reflexivity|].
  rewrite imap_cons; cbn; rewrite Hf, IH; [reflexivity|].
  intros i y; apply Hf.
Qed.

Lemma renumber_orders_from n ts :
  map order (imap (fun i t => set_order (Z.of_nat (n + i)) t) ts)
  = map Z.of_nat (seq n (length ts)).
Proof.
  revert n; induction ts as [|t ts IH]; intros n; [reflexivity|].
  rewrite imap_cons; cbn. rewrite Nat.add_0_r. f_equal.
  rewrite <- IH. f_equal. apply imap_ext; intros i x _; cbn.
  rewrite Nat.add_succ_r; reflexivity.
Qed.

Lemma renumber_orders ts : map order (renumber ts) = map Z.of_nat (seq 0 (length ts)).
Proof. apply (renumber_orders_from 0). Qed.

Lemma renumber_unordered ts : map tier_unordered (renumber ts) = map tier_unordered ts.
Proof. apply map_imap_invariant; reflexivity. Qed.

Lemma renumber_items ts : map items (renumber ts) = map items ts.
Proof. apply map_imap_invariant; reflexivity. Qed.

Lemma renumber_ids ts : map tier_id (renumber ts) = map tier_id ts.
Proof. apply map_imap_invariant; reflexivity. Qed.

Lemma length_renumber ts : length (renumber ts) = length ts.
Proof. apply length_imap. Qed.

(** ** Removing a tier *)

(** Claim C8.  [removeTier] fails with ["Tier not found"] when no tier
    has the id.  Otherwise, with [i] the index of the first such tier
    [t]: the pool becomes the old pool followed by [t]'s items in their
    order, the tiers are the others in their order (apart from [order]),
    their [order] fields are 0, ..., n-1, and the items of the document
    are the same up to order, so their number is kept. *)
Theorem removeTier_moves_items_to_pool (tl : TierList) (tierId : string) :
  (~ In tierId (map tier_id (tiers tl)) -> removeTier_body tl tierId = Err "Tier not found")
  /\ (In tierId (map tier_id (tiers tl)) ->
      exists i t tl',
        findIndex (has_tier_id tierId) (tiers tl) = Some i
        /\ tiers tl !! i = Some t /\ tier_id t = tierId
        /\ removeTier_body tl tierId = Ok tl'
        /\ unrankedItems tl' = unrankedItems tl ++ items t
        /\ map tier_unordered (tiers tl')
           = map tier_unordered (take i (tiers tl) ++ drop (S i) (tiers tl))
        /\ map order (tiers tl') = map Z.of_nat (seq 0 (length (tiers tl')))
        /\ all_items tl' ≡ₚ all_items tl
        /\ length (all_items tl') = length (all_items tl)).
Proof.
  split.
  - intros Hn; unfold removeTier_body; rewrite findIndex_has_tier_id_None by exact Hn.
    reflexivity.
  - intros Hin.
    destruct (findIndex_has_tier_id_Some _ _ Hin) as [i F].
    destruct (findIndex_Some _ _ _ F) as (t & Ht & Hp).
    apply has_tier_id_true in Hp.
    set (tl' := set_tiers (renumber (take i (tiers tl) ++ drop (S i) (tiers tl)))
                  (set_unranked (unrankedItems tl ++ items t) tl)).
    assert (Hperm : all_items tl' ≡ₚ all_items tl).
    { unfold tl', all_items; cbn. rewrite renumber_items.
      pose proof (take_drop_middle _ _ _ Ht) as Heq.
      remember (take i (tiers tl)) as A; remember (drop (S i) (tiers tl)) as B.
      rewrite <- Heq, !map_app, !concat_app; cbn. solve_Permutation. }
    exists i, t, tl'. repeat split; try assumption.
    + unfold removeTier_body; rewrite F, Ht; reflexivity.
    + unfold tl'; cbn; apply renumber_unordered.
    + unfold tl'; cbn. rewrite renumber_orders, length_renumber. reflexivity.
    + apply Permutation_length, Hperm.
Qed.

Lemma removeTier_moves_items_to_pool_witness :
  ~ In "zz"%string (map tier_id (tiers doc_movies))
  /\ removeTier_body doc_movies "zz" = Err "Tier not found"
  /\ In "t1"%string (map tier_id (tiers doc_movies))
  /\ exists i t tl',
       findIndex (has_tier_id "t1") (tiers doc_movies) = Some i
       /\ tiers doc_movies !! i = Some t /\ tier_id t = "t1"%string
       /\ removeTier_body doc_movies "t1" = Ok tl'
       /\ unrankedItems tl' = unrankedItems doc_movies ++ items t
       /\ map tier_unordered (tiers tl')
          = map tier_unordered (take i (tiers doc_movies) ++ drop (S i) (tiers doc_movies))
       /\ map order (tiers tl') = map Z.of_nat (seq 0 (length (tiers tl')))
       /\ all_items tl' ≡ₚ all_items doc_movies
       /\ length (all_items tl') = length (all_items doc_movies).
Proof.
  assert (H : In "t1"%string (map tier_id (tiers doc_movies))) by (simpl; left; reflexivity).
  assert (Hn : ~ In "zz"%string (map tier_id (tiers doc_movies))) by (simpl; intuition discriminate).
  split; [exact Hn |].
  split; [exact (proj1 (removeTier_moves_items_to_pool doc_movies "zz") Hn) | split; [exact H |]].
  exact (proj2 (removeTier_moves_items_to_pool doc_movies "t1") H).
Defined.

Lemma findIndex_has_item_id_None id (l : list TierListItem) :
  findIndex (has_item_id id) l = None -> ~ In id (map item_id l).
Proof.
  intros F Hin. apply in_map_iff in Hin as (it & Hi & Hin).
  apply list_elem_of_In in Hin.
  pose proof (proj1 (findIndex_None _ _) F it Hin) as E.
  unfold has_item_id in E; rewrite Hi, String.eqb_refl in E; discriminate.
Qed.

Lemma remove_from_tiers_Some ts itemId it ts' :
  remove_from_tiers ts itemId = Some (it, ts') ->
  item_id it = itemId
  /\ concat (map items ts) ≡ₚ it :: concat (map items ts')
  /\ map tier_id ts' = map tier_id ts.
Proof.
  revert ts'; induction ts as [|t ts IH]; intros ts' H; cbn in H; [discriminate|].
  destruct (findIndex (has_item_id itemId) (items t)) as [i|] eqn:F.
  - destruct (findIndex_Some _ _ _ F) as (x & Hx & Hp).
    rewrite (splice_remove_Some _ _ _ Hx) in H. injection H as <- <-.
    apply has_item_id_true in Hp. split; [exact Hp|]. split; [|reflexivity].
    cbn. rewrite (take_drop_perm _ _ _ Hx) at 1. reflexivity.
  - destruct (remove_from_tiers ts itemId) as [[it' r']|] eqn:R; [|discriminate].
    injection H as <- <-. destruct (IH r' eq_refl) as (Hi & Hp & Hids).
    split; [exact Hi|]. cbn. rewrite Hids. split; [|reflexivity].
    rewrite Hp. solve_Permutation.
Qed.

Lemma remove_from_tiers_None ts itemId :
  remove_from_tiers ts itemId = None -> ~ In itemId (map item_id (concat (map items ts))).
Proof.
  induction ts as [|t ts IH]; intros H; cbn in H; [intros []|].
  destruct (findIndex (has_item_id itemId) (items t)) as [i|] eqn:F.
  - destruct (findIndex_Some _ _ _ F) as (x & Hx & _).
    rewrite (splice_remove_Some _ _ _ Hx) in H; discriminate.
  - destruct (remove_from_tiers ts itemId) as [[]|]; [discriminate|].
    cbn; rewrite map_app; intros Hin; apply in_app_or in Hin as [Hin|Hin].
    + exact (findIndex_has_item_id_None _ _ F Hin).
    + exact (IH eq_refl Hin).
Qed.

Lemma findAndRemoveItem_Some tl itemId it tl1 :
  findAndRemoveItem tl itemId = Some (it, tl1) ->
  item_id it = itemId
  /\ all_items tl ≡ₚ it :: all_items tl1
  /\ map tier_id (tiers tl1) = map tier_id (tiers tl).
Proof.
  unfold findAndRemoveItem, all_items.
  destruct (findIndex (has_item_id itemId) (unrankedItems tl)) as [i|] eqn:F.
  - destruct (findIndex_Some _ _ _ F) as (x & Hx & Hp).
    rewrite (splice_remove_Some _ _ _ Hx). intros H; injection H as <- <-.
    apply has_item_id_true in Hp. split; [exact Hp|]. cbn. split; [|reflexivity].
    rewrite (take_drop_perm _ _ _ Hx) at 1. solve_Permutation.
  - destruct (remove_from_tiers (tiers tl) itemId) as [[it' ts]|] eqn:R; [|discriminate].
    intros H; injection H as <- <-.
    destruct (remove_from_tiers_Some _ _ _ _ R) as (Hi & Hp & Hids).
    split; [exact Hi|]. cbn. split; [|exact Hids].
    rewrite Hp; reflexivity.
Qed.

Lemma findAndRemoveItem_None tl itemId :
  findAndRemoveItem tl itemId = None <-> ~ In itemId (map item_id (all_items tl)).
Proof.
  split.
  - unfold findAndRemoveItem, all_items.
    destruct (findIndex (has_item_id itemId) (unrankedItems tl)) as [i|] eqn:F.
    + destruct (findIndex_Some _ _ _ F) as (x & Hx & _).
      rewrite (splice_remove_Some _ _ _ Hx); discriminate.
    + destruct (remove_from_tiers (tiers tl) itemId) as [[]|] eqn:R; [discriminate|].
      intros _; rewrite map_app; intros Hin; apply in_app_or in Hin as [Hin|Hin].
      * exact (remove_from_tiers_None _ _ R Hin).
      * exact (findIndex_has_item_id_None _ _ F Hin).
  - intros Hn. destruct (findAndRemoveItem tl itemId) as [[it tl1]|] eqn:E; [|reflexivity].
    destruct (findAndRemoveItem_Some _ _ _ _ E) as (Hi & Hp & _).
    exfalso; apply Hn. apply in_map_iff. exists it; split; [exact Hi|].
    apply (Permutation_in it (Permutation_sym Hp)); left; reflexivity.
Qed.

Lemma moveItem_body_Ok tl itemId target pos tl' :
  moveItem_body tl itemId target pos = Ok tl' ->
  all_items tl' ≡ₚ all_items tl /\ map tier_id (tiers tl') = map tier_id (tiers tl).
Proof.
  unfold moveItem_body.
  destruct (findAndRemoveItem tl itemId) as [[it tl1]|] eqn:E; [|discriminate].
  destruct (findAndRemoveItem_Some _ _ _ _ E) as (_ & Hp & Hids).
  destruct (targets_tier target) as [tid|].
  - destruct (findIndex (has_tier_id tid) (tiers tl1)) as [i|]; [|discriminate].
    destruct (tiers tl1 !! i) as [t|] eqn:Ht; [|discriminate].
    intros H; injection H as <-.
    pose proof (lookup_lt_Some _ _ _ Ht) as Hlt.
    pose proof (take_drop_middle _ _ _ Ht) as Heq.
    unfold all_items in *; cbn. rewrite insert_take_drop by exact Hlt.
    rewrite Hp, <- Hids.
    remember (take i (tiers tl1)) as A; remember (drop (S i) (tiers tl1)) as B.
    rewrite <- Heq, !map_app, !concat_app; cbn. split; [|reflexivity].
    rewrite (splice_insert_perm (items t) pos it). solve_Permutation.
  - intros H; injection H as <-. unfold all_items in *; cbn.
    split; [|exact Hids].
    rewrite Hp, splice_insert_perm. solve_Permutation.
Qed.

Lemma splice_start_neg len p :
  p < 0 -> Z.of_nat (splice_start len p) = Z.max (Z.of_nat len + p) 0.
Proof.
  intros Hp; unfold splice_start. apply Z.ltb_lt in Hp; rewrite Hp.
  rewrite Z2Nat.id by lia; reflexivity.
Qed.

Lemma splice_start_nonneg len p :
  0 <= p -> Z.of_nat (splice_start len p) = Z.min p (Z.of_nat len).
Proof.
  intros Hp; unfold splice_start. destruct (p <? 0) eqn:E; [apply Z.ltb_lt in E; lia|].
  rewrite Z2Nat.id by lia; reflexivity.
Qed.

(** ** Moving an item *)

(** Claim C7 (as the code has it).  [moveItem] fails with
    ["Item not found"] when no item has the id; otherwise it removes the
    item from the pool (searched first) or from the first tier holding
    it.  A [null] or empty target puts the item in the pool; a target
    naming no tier fails with ["Target tier not found"]; otherwise the
    item goes into the first tier with that id.  Insertion is
    [splice(position, 0, item)]: a non-negative position is clamped to
    the length, a negative one counts from the end (and is clamped to
    0).  A successful move keeps the document's items up to order. *)
Theorem moveItem_relocates_item (tl : TierList) (itemId : string)
    (targetTierId : option string) (position : Z) :
  (~ In itemId (map item_id (all_items tl)) ->
     moveItem_body tl itemId targetTierId position = Err "Item not found")
  /\ (forall i, findIndex (has_item_id itemId) (unrankedItems tl) = Some i ->
        exists it, unrankedItems tl !! i = Some it
          /\ findAndRemoveItem tl itemId
             = Some (it, set_unranked (take i (unrankedItems tl) ++ drop (S i) (unrankedItems tl)) tl))
  /\ (forall it tl1, findAndRemoveItem tl itemId = Some (it, tl1) ->
        item_id it = itemId
        /\ all_items tl ≡ₚ it :: all_items tl1
        /\ (targetTierId = None \/ targetTierId = Some ""%string ->
              moveItem_body tl itemId targetTierId position
              = Ok (set_unranked (splice_insert (unrankedItems tl1) position it) tl1))
        /\ (forall tid, targetTierId = Some tid -> tid <> ""%string ->
              ~ In tid (map tier_id (tiers tl)) ->
              moveItem_body tl itemId targetTierId position = Err "Target tier not found")
        /\ (forall tid i t, targetTierId = Some tid -> tid <> ""%string ->
              findIndex (has_tier_id tid) (tiers tl1) = Some i -> tiers tl1 !! i = Some t ->
              moveItem_body tl itemId targetTierId position
              = Ok (set_tiers (<[i := set_items (splice_insert (items t) position it) t]>
                                 (tiers tl1)) tl1)))
  /\ (forall tl', moveItem_body tl itemId targetTierId position = Ok tl' ->
        all_items tl' ≡ₚ all_items tl)
  /\ (forall len p, p < 0 -> Z.of_nat (splice_start len p) = Z.max (Z.of_nat len + p) 0)
  /\ (forall len p, 0 <= p -> Z.of_nat (splice_start len p) = Z.min p (Z.of_nat len)).
Proof.
  split; [|split; [|split; [|split; [|split]]]].
  - intros Hn; unfold moveItem_body.
    rewrite (proj2 (findAndRemoveItem_None tl itemId) Hn); reflexivity.
  - intros i F. destruct (findIndex_Some _ _ _ F) as (x & Hx & _).
    exists x; split; [exact Hx|].
    unfold findAndRemoveItem; rewrite F, (splice_remove_Some _ _ _ Hx); reflexivity.
  - intros it tl1 E. destruct (findAndRemoveItem_Some _ _ _ _ E) as (Hi & Hp & Hids).
    split; [exact Hi|]. split; [exact Hp|]. split; [|split].
    + intros [-> | ->]; unfold moveItem_body; rewrite E; reflexivity.
    + intros tid -> Hne Hn; unfold moveItem_body; rewrite E; cbn.
      apply String.eqb_neq in Hne; rewrite Hne.
      rewrite findIndex_has_tier_id_None by (rewrite Hids; exact Hn); reflexivity.
    + intros tid i t -> Hne F Ht; unfold moveItem_body; rewrite E; cbn.
      apply String.eqb_neq in Hne; rewrite Hne, F, Ht; reflexivity.
  - intros tl' H; apply (moveItem_body_Ok _ _ _ _ _ H).
  - apply splice_start_neg.
  - apply splice_start_nonneg.
Qed.

Lemma moveItem_relocates_item_witness :
  let tl1 := set_unranked [text_item "b"; text_item "c"] doc_movies in
  findAndRemoveItem doc_movies "d" = Some (text_item "d", tl1)
  /\ findIndex (has_tier_id "t1") (tiers tl1) = Some 0%nat
  /\ tiers tl1 !! 0%nat = Some (tier_of "t1" "S" [text_item "a"] 0)
  /\ moveItem_body doc_movies "d" (Some "t1"%string) 1
     = Ok (set_tiers (<[0%nat := set_items (splice_insert [text_item "a"] 1 (text_item "d"))
                                  (tier_of "t1" "S" [text_item "a"] 0)]> (tiers tl1)) tl1).
Proof.
  intros tl1.
  assert (H1 : findAndRemoveItem doc_movies "d" = Some (text_item "d", tl1))
    by (vm_compute; reflexivity).
  assert (H2 : findIndex (has_tier_id "t1") (tiers tl1) = Some 0%nat) by (vm_compute; reflexivity).
  assert (H3 : tiers tl1 !! 0%nat = Some (tier_of "t1" "S" [text_item "a"] 0)) by reflexivity.
  assert (H4 : Some "t1"%string = Some "t1"%string) by reflexivity.
  assert (H5 : "t1"%string <> ""%string) by discriminate.
  split; [exact H1|]. split; [exact H2|]. split; [exact H3|].
  exact (proj2 (proj2 (proj2 (proj2 (proj1 (proj2 (proj2
           (moveItem_relocates_item doc_movies "d" (Some "t1"%string) 1)))
           (text_item "d") tl1 H1))))
           "t1"%string 0%nat (tier_of "t1" "S" [text_item "a"] 0) H4 H5 H2 H3).
Defined.

(** Moving [d] to the pool [b; c] at position -1 puts it before the last
    item, not at the front. *)
Lemma moveItem_negative_position_counts_from_end :
  let pool r := match r with Ok tl' => map item_id (unrankedItems tl') | Err _ => [] end in
  map item_id (unrankedItems doc_movies) = ["b"; "c"; "d"]%string
  /\ pool (moveItem_body doc_movies "d" None (-1)) = ["b"; "d"; "c"]%string
  /\ pool (moveItem_body doc_movies "d" None (-1)) <> ["d"; "b"; "c"]%string.
Proof. vm_compute. split; [reflexivity|]. split; [reflexivity|]. discriminate. Qed.

(** ** Reordering tiers *)

Lemma tierMap_fold_notin ts (m : gmap string Tier) k :
  ~ In k (map tier_id ts) ->
  foldl (fun m t => <[tier_id t := t]> m) m ts !! k = m !! k.
Proof.
  revert m; induction ts as [|t ts IH]; intros m Hn; [reflexivity|]; cbn in *.
  rewrite IH by tauto. apply lookup_insert_ne; intros E; apply Hn; left; exact E.
Qed.

Lemma tierMap_fold_keys ts (m : gmap string Tier) :
  (forall k t, m !! k = Some t -> tier_id t = k) ->
  forall k t, foldl (fun m t => <[tier_id t := t]> m) m ts !! k = Some t -> tier_id t = k.
Proof.
  revert m; induction ts as [|t0 ts IH]; intros m Hm; [exact Hm|]; cbn.
  apply IH. intros k t Hk. apply lookup_insert_Some in Hk as [[<- <-]|[_ Hk]];
    [reflexivity|exact (Hm k t Hk)].
Qed.

Lemma tierMap_fold_member ts (m : gmap string Tier) t :
  NoDup (map tier_id ts) -> In t ts ->
  foldl (fun m t => <[tier_id t := t]> m) m ts !! tier_id t = Some t.
Proof.
  revert m; induction ts as [|t0 ts IH]; intros m Hnd Hin; [destruct Hin|]; cbn in *.
  inversion Hnd as [|? ? Hn Hnd']; subst. rewrite list_elem_of_In in Hn.
  destruct Hin as [<-|Hin].
  - rewrite tierMap_fold_notin by exact Hn. apply lookup_insert_eq.
  - apply IH; assumption.
Qed.

Lemma tierMap_fold_present ts (m : gmap string Tier) k :
  In k (map tier_id ts) -> is_Some (foldl (fun m t => <[tier_id t := t]> m) m ts !! k).
Proof.
  revert m; induction ts as [|t0 ts IH]; intros m Hin; [destruct Hin|]; cbn in *.
  destruct (in_dec String.string_dec k (map tier_id ts)) as [Hk|Hk]; [apply IH, Hk|].
  rewrite tierMap_fold_notin by exact Hk.
  destruct Hin as [<-|Hin]; [rewrite lookup_insert_eq; eauto|tauto].
Qed.

Lemma tierMap_of_keys ts k t : tierMap_of ts !! k = Some t -> tier_id t = k.
Proof.
  apply tierMap_fold_keys. intros k' t' H; rewrite lookup_empty in H; discriminate.
Qed.

Lemma tierMap_of_present ts k : is_Some (tierMap_of ts !! k) <-> In k (map tier_id ts).
Proof.
  split; [|apply tierMap_fold_present].
  intros [t Ht]. pose proof (tierMap_of_keys _ _ _ Ht) as Hk.
  destruct (in_dec String.string_dec k (map tier_id ts)) as [H|H]; [exact H|].
  unfold tierMap_of in Ht; rewrite tierMap_fold_notin, lookup_empty in Ht by exact H.
  discriminate.
Qed.

Lemma tierMap_of_member ts t :
  NoDup (map tier_id ts) -> In t ts -> tierMap_of ts !! tier_id t = Some t.
Proof. apply tierMap_fold_member. Qed.


Lemma reorder_loop_ok m ids n :
  (forall id, In id ids -> is_Some (m !! id)) ->
  exists m', reorder_loop m ids n = Ok m'
    /\ (forall k, ~ In k ids -> m' !! k = m !! k)
    /\ (forall k, option_map tier_unordered (m' !! k) = option_map tier_unordered (m !! k))
    /\ (NoDup ids -> forall j id, ids !! j = Some id ->
          option_map order (m' !! id) = Some (Z.of_nat (n + j))).
Proof.
  revert m n; induction ids as [|id ids IH]; intros m n Hp.
  - exists m; split; [reflexivity|]. split; [reflexivity|]. split; [reflexivity|].
    intros _ j id H; rewrite lookup_nil in H; discriminate.
  - destruct (Hp id (or_introl eq_refl)) as [t Ht].
    set (m1 := <[id := set_order (Z.of_nat n) t]> m).
    assert (Hp1 : forall k, In k ids -> is_Some (m1 !! k)).
    { intros k Hk; unfold m1. destruct (decide (id = k)) as [<-|Hne].
      - rewrite lookup_insert_eq; eauto.
      - rewrite lookup_insert_ne by exact Hne; apply Hp; right; exact Hk. }
    destruct (IH m1 (S n) Hp1) as (m' & Hr & Hun & Hu & Ho).
    exists m'. split; [cbn; rewrite Ht; exact Hr|]. split; [|split].
    + intros k Hk; rewrite Hun by (intros H'; apply Hk; right; exact H'). unfold m1.
      apply lookup_insert_ne; intros E; apply Hk; left; exact E.
    + intros k; rewrite Hu; unfold m1. destruct (decide (id = k)) as [<-|Hne].
      * rewrite lookup_insert_eq, Ht; reflexivity.
      * rewrite lookup_insert_ne by exact Hne; reflexivity.
    + intros Hnd j id' Hj. inversion Hnd as [|? ? Hn Hnd']; subst.
      rewrite list_elem_of_In in Hn.
      destruct j as [|j]; cbn in Hj.
      * injection Hj as <-. rewrite Hun by exact Hn. unfold m1; rewrite lookup_insert_eq.
        cbn; rewrite Nat.add_0_r; reflexivity.
      * rewrite (Ho Hnd' j id' Hj). do 2 f_equal; lia.
Qed.

Lemma reorder_loop_ok_present m ids n m' :
  reorder_loop m ids n = Ok m' -> forall id, In id ids -> is_Some (m !! id).
Proof.
  revert m n; induction ids as [|x ids IH]; intros m n H id Hin; [destruct Hin|].
  cbn in H. destruct (m !! x) as [t|] eqn:Ht; [|discriminate].
  destruct Hin as [<-|Hin]; [eauto|].
  specialize (IH _ _ H id Hin).
  destruct (decide (x = id)) as [<-|Hne]; [eauto|].
  rewrite lookup_insert_ne in IH by exact Hne; exact IH.
Qed.

Lemma omap_lookup_orders (m : gmap string Tier) ids n :
  (forall j id, ids !! j = Some id -> option_map order (m !! id) = Some (Z.of_nat (n + j))) ->
  map order (omap (fun id => m !! id) ids) = map Z.of_nat (seq n (length ids)).
Proof.
  revert n; induction ids as [|id ids IH]; intros n H; [reflexivity|].
  pose proof (H 0%nat id eq_refl) as H0.
  destruct (m !! id) as [t|] eqn:Ht; cbn in H0; [|discriminate].
  injection H0 as H0. cbn; rewrite Ht; cbn. rewrite H0, Nat.add_0_r. f_equal.
  apply IH. intros j id' Hj. rewrite (H (S j) id' Hj). do 2 f_equal; lia.
Qed.

Lemma omap_lookup_ids (m : gmap string Tier) ids :
  (forall id, In id ids -> exists t, m !! id = Some t /\ tier_id t = id) ->
  map tier_id (omap (fun id => m !! id) ids) = ids.
Proof.
  induction ids as [|id ids IH]; intros H; [reflexivity|].
  destruct (H id (or_introl eq_refl)) as (t & Ht & Hid).
  cbn; rewrite Ht; cbn. rewrite Hid, IH; [reflexivity|].
  intros id' Hin; apply H; right; exact Hin.
Qed.

Lemma reorder_loop_lookup ts ids m' :
  reorder_loop (tierMap_of ts) ids 0 = Ok m' ->
  (forall k, option_map tier_unordered (m' !! k)
             = option_map tier_unordered (tierMap_of ts !! k)) ->
  forall id, In id (map tier_id ts) ->
  exists t t', tierMap_of ts !! id = Some t /\ m' !! id = Some t' /\ tier_id t' = id
               /\ tier_unordered t' = tier_unordered t.
Proof.
  intros _ Hu id Hin.
  destruct (proj2 (tierMap_of_present ts id) Hin) as [t Ht].
  specialize (Hu id); rewrite Ht in Hu.
  destruct (m' !! id) as [t'|] eqn:Ht'; cbn in Hu; [|discriminate].
  unfold tier_unordered in Hu; injection Hu as Hi Hl Hc Hit.
  exists t, t'. split; [exact Ht|]. split; [reflexivity|]. split.
  - rewrite Hi; exact (tierMap_of_keys _ _ _ Ht).
  - unfold tier_unordered; rewrite Hi, Hl, Hc, Hit; reflexivity.
Qed.

Lemma tierMap_fold_in ts (m0 : gmap string Tier) k t :
  foldl (fun m t => <[tier_id t := t]> m) m0 ts !! k = Some t -> m0 !! k = Some t \/ In t ts.
Proof.
  revert m0; induction ts as [|x ts IH]; intros m0 H; cbn in H; [left; exact H|].
  destruct (IH _ H) as [H'|H']; [|right; right; exact H'].
  destruct (decide (tier_id x = k)) as [<-|Hne].
  - rewrite lookup_insert_eq in H'; injection H' as <-; right; left; reflexivity.
  - rewrite lookup_insert_ne in H' by exact Hne; left; exact H'.
Qed.

Lemma tierMap_of_in ts k t : tierMap_of ts !! k = Some t -> In t ts.
Proof.
  intros H; destruct (tierMap_fold_in ts ∅ k t H) as [H'|H']; [|exact H'].
  rewrite lookup_empty in H'; discriminate.
Qed.

Lemma omap_lookup_unordered (m' : gmap string Tier) ts ids :
  (forall id, In id ids -> exists t t', tierMap_of ts !! id = Some t /\ m' !! id = Some t'
                  /\ tier_id t' = id /\ tier_unordered t' = tier_unordered t) ->
  Forall2 (fun id t' => exists t, In t ts /\ tier_id t = id
                                  /\ tier_unordered t' = tier_unordered t)
    ids (omap (fun id => m' !! id) ids).
Proof.
  intros H; induction ids as [|id ids IH]; [constructor|].
  destruct (H id (or_introl eq_refl)) as (t & t' & Ht & Ht' & _ & Hu).
  cbn; rewrite Ht'. constructor.
  - exists t. split; [exact (tierMap_of_in _ _ _ Ht)|].
    split; [exact (tierMap_of_keys _ _ _ Ht)|exact Hu].
  - apply IH; intros id' Hi'; apply H; right; exact Hi'.
Qed.

Lemma reorderTiers_body_ok tl ids :
  Forall (fun x => In x (map tier_id (tiers tl))) ids ->
  exists m', reorder_loop (tierMap_of (tiers tl)) ids 0 = Ok m'
    /\ reorderTiers_body tl ids = Ok (set_tiers (omap (fun id => m' !! id) ids) tl)
    /\ (forall k, option_map tier_unordered (m' !! k)
                  = option_map tier_unordered (tierMap_of (tiers tl) !! k))
    /\ map tier_id (omap (fun id => m' !! id) ids) = ids
    /\ Forall2 (fun id t' => exists t, In t (tiers tl) /\ tier_id t = id
                                      /\ tier_unordered t' = tier_unordered t)
         ids (omap (fun id => m' !! id) ids)
    /\ (NoDup ids -> map order (omap (fun id => m' !! id) ids)
                     = map Z.of_nat (seq 0 (length ids))).
Proof.
  intros Hall. rewrite Forall_forall in Hall.
  destruct (reorder_loop_ok (tierMap_of (tiers tl)) ids 0) as (m' & Hr & _ & Hu & Ho).
  { intros id Hin; apply tierMap_of_present, Hall, list_elem_of_In, Hin. }
  exists m'. split; [exact Hr|]. split; [unfold reorderTiers_body; rewrite Hr; reflexivity|].
  split; [exact Hu|]. split.
  - apply omap_lookup_ids. intros id Hin.
    destruct (reorder_loop_lookup _ _ _ Hr Hu id (Hall id (proj2 (list_elem_of_In _ _) Hin)))
      as (t & t' & _ & Ht' & Hid & _).
    exists t'; split; assumption.
  - split.
    + apply omap_lookup_unordered. intros id Hin.
      exact (reorder_loop_lookup _ _ _ Hr Hu id (Hall id (proj2 (list_elem_of_In _ _) Hin))).
    + intros Hnd. apply (omap_lookup_orders m' ids 0), Ho, Hnd.
Qed.




(** A repeated id is accepted: both copies of the tier carry the order
    of the id's last position. *)
Lemma reorderTiers_repeated_id_shares_order :
  map order (match reorderTiers_body doc_movies ["t1"; "t1"]%string with
             | Ok tl' => tiers tl' | Err _ => [] end) = [1; 1]%Z.
Proof. vm_compute. reflexivity. Qed.

(** ** Items across sequences of mutations *)

Lemma concat_perm {A} (L1 L2 : list (list A)) : L1 ≡ₚ L2 -> concat L1 ≡ₚ concat L2.
Proof.
  induction 1 as [|x L1 L2 _ IH|x y L|L1 L2 L3 _ IH1 _ IH2]; cbn.
  - reflexivity.
  - rewrite IH; reflexivity.
  - rewrite !app_assoc; apply Permutation_app_tail, Permutation_app_comm.
  - etrans; [exact IH1|exact IH2].
Qed.

Lemma stamp_update_all_items now tl : all_items (stamp_update now tl) = all_items tl.
Proof. reflexivity. Qed.
Lemma stamp_update_tiers now tl : tiers (stamp_update now tl) = tiers tl.
Proof. reflexivity. Qed.

(** The document [removeTier] produces once the tier is found. *)
Lemma removeTier_body_found tl tierId i t :
  findIndex (has_tier_id tierId) (tiers tl) = Some i -> tiers tl !! i = Some t ->
  removeTier_body tl tierId
  = Ok (set_tiers (renumber (take i (tiers tl) ++ drop (S i) (tiers tl)))
                  (set_unranked (unrankedItems tl ++ items t) tl)).
Proof. intros F Ht; unfold removeTier_body; rewrite F, Ht; reflexivity. Qed.

Lemma removeTier_result_items tl i t :
  tiers tl !! i = Some t ->
  all_items (set_tiers (renumber (take i (tiers tl) ++ drop (S i) (tiers tl)))
                       (set_unranked (unrankedItems tl ++ items t) tl))
  ≡ₚ all_items tl.
Proof.
  intros Ht. unfold all_items; cbn. rewrite renumber_items.
  pose proof (take_drop_middle _ _ _ Ht) as Heq.
  remember (take i (tiers tl)) as A; remember (drop (S i) (tiers tl)) as B.
  rewrite <- Heq, !map_app, !concat_app; cbn. solve_Permutation.
Qed.

Lemma removeTier_body_Ok tl tierId tl' :
  removeTier_body tl tierId = Ok tl' ->
  all_items tl' ≡ₚ all_items tl
  /\ (NoDup (map tier_id (tiers tl)) -> NoDup (map tier_id (tiers tl'))).
Proof.
  destruct (findIndex (has_tier_id tierId) (tiers tl)) as [i|] eqn:F;
    [|unfold removeTier_body; rewrite F; discriminate].
  destruct (tiers tl !! i) as [t|] eqn:Ht;
    [|unfold removeTier_body; rewrite F, Ht; discriminate].
  rewrite (removeTier_body_found _ _ _ _ F Ht). intros H; injection H as <-.
  split; [apply removeTier_result_items, Ht|].
  intros Hnd; cbn. rewrite renumber_ids.
  pose proof (take_drop_perm _ _ _ Ht) as Hp.
  apply (Permutation_map tier_id) in Hp. rewrite Hp in Hnd; cbn in Hnd.
  apply NoDup_cons_1_2 in Hnd; exact Hnd.
Qed.

Lemma omap_map_lookup (m : gmap string Tier) ts :
  omap (fun id => m !! id) (map tier_id ts) = omap (fun t => m !! tier_id t) ts.
Proof. induction ts as [|t ts IH]; cbn; [reflexivity|]. rewrite IH; reflexivity. Qed.

Lemma map_items_omap (f : Tier -> option Tier) ts :
  (forall t, In t ts -> exists t', f t = Some t' /\ items t' = items t) ->
  map items (omap f ts) = map items ts.
Proof.
  induction ts as [|t ts IH]; intros H; [reflexivity|].
  destruct (H t (or_introl eq_refl)) as (t' & Hf & Hi).
  cbn; rewrite Hf; cbn. rewrite Hi, IH; [reflexivity|].
  intros u Hu; apply H; right; exact Hu.
Qed.

Lemma reorderTiers_body_perm tl ids tl' :
  NoDup (map tier_id (tiers tl)) -> ids ≡ₚ map tier_id (tiers tl) ->
  reorderTiers_body tl ids = Ok tl' ->
  all_items tl' ≡ₚ all_items tl /\ NoDup (map tier_id (tiers tl')).
Proof.
  intros Hnd Hp Hb.
  assert (Hall : Forall (fun x => In x (map tier_id (tiers tl))) ids).
  { apply Forall_forall; intros x Hx. apply list_elem_of_In.
    rewrite <- Hp; exact Hx. }
  destruct (reorderTiers_body_ok tl ids Hall) as (m' & Hr & Hb' & Hu & Hids & _).
  rewrite Hb' in Hb; injection Hb as <-. split.
  - unfold all_items; cbn. apply Permutation_app_tail, concat_perm.
    rewrite Hp, omap_map_lookup, map_items_omap; [reflexivity|].
    intros t Ht.
    assert (Hin : In (tier_id t) (map tier_id (tiers tl))) by (apply in_map, Ht).
    destruct (reorder_loop_lookup _ _ _ Hr Hu _ Hin) as (t0 & t' & H0 & H' & _ & Hun).
    rewrite (tierMap_of_member _ _ Hnd Ht) in H0; injection H0 as <-.
    exists t'; split; [exact H'|].
    unfold tier_unordered in Hun; injection Hun as _ _ _ Hi; exact Hi.
  - cbn; rewrite Hids, Hp; exact Hnd.
Qed.

Lemma apply_op_preserves now tl op tl' :
  NoDup (map tier_id (tiers tl)) -> op_guard tl op -> apply_op now tl op = Ok tl' ->
  all_items tl' ≡ₚ all_items tl /\ NoDup (map tier_id (tiers tl')).
Proof.
  intros Hnd Hg. destruct op as [i t p|i lb cl|t|ids]; cbn in Hg |- *.
  - destruct (moveItem_body tl i t p) as [tl1|e] eqn:E; [|discriminate].
    intros H; injection H as <-. rewrite stamp_update_all_items, stamp_update_tiers.
    destruct (moveItem_body_Ok _ _ _ _ _ E) as [Hp Hids].
    rewrite Hids; split; assumption.
  - intros H; injection H as <-. rewrite stamp_update_all_items, stamp_update_tiers.
    unfold all_items; cbn. rewrite map_app, concat_app, map_app; cbn. split.
    + rewrite app_nil_r; reflexivity.
    + apply NoDup_app. split; [exact Hnd|]. split; [|apply NoDup_singleton].
      intros x Hx Hx'. apply list_elem_of_singleton in Hx' as ->.
      apply Hg, list_elem_of_In, Hx.
  - destruct (removeTier_body tl t) as [tl1|e] eqn:E; [|discriminate].
    intros H; injection H as <-. rewrite stamp_update_all_items, stamp_update_tiers.
    destruct (removeTier_body_Ok _ _ _ E) as [Hp Hn]. split; [exact Hp|exact (Hn Hnd)].
  - destruct (reorderTiers_body tl ids) as [tl1|e] eqn:E; [|discriminate].
    intros H; injection H as <-. rewrite stamp_update_all_items, stamp_update_tiers.
    exact (reorderTiers_body_perm _ _ _ Hnd Hg E).
Qed.

(** Claim C1 (under the conditions the code needs).  Starting from a
    document with distinct tier ids, a sequence of successful
    [moveItem], [addTier], [removeTier] and [reorderTiers] mutations in
    which each new tier id is not a tier id yet and each list given to
    [reorderTiers] is a permutation of the tier ids ends in a document
    with the same items up to order, so each item id occurs as often as
    before (exactly once when the ids were distinct), and with distinct
    tier ids. *)
Theorem guarded_ops_keep_every_item now (tl : TierList) (ops : list Op) (tl' : TierList) :
  NoDup (map tier_id (tiers tl)) -> guarded now tl ops -> run_ops now tl ops = Ok tl' ->
  all_items tl' ≡ₚ all_items tl
  /\ (NoDup (map item_id (all_items tl)) -> NoDup (map item_id (all_items tl')))
  /\ NoDup (map tier_id (tiers tl')).
Proof.
  revert tl; induction ops as [|op ops IH]; intros tl Hnd Hg Hr.
  - injection Hr as <-. split; [reflexivity|]. split; [tauto|exact Hnd].
  - cbn in Hg, Hr. destruct Hg as [Hg Hrest].
    destruct (apply_op now tl op) as [tl1|e] eqn:E; [|discriminate].
    destruct (apply_op_preserves _ _ _ _ Hnd Hg E) as [Hp1 Hnd1].
    destruct (IH tl1 Hnd1 (Hrest tl1 eq_refl) Hr) as (Hp & Hi & Hn).
    split; [etrans; eassumption|]. split; [|exact Hn].
    intros Hid. apply Hi. rewrite Hp1; exact Hid.
Qed.

Lemma guarded_ops_keep_every_item_witness :
  let ops := [OpMoveItem "d" (Some "t2"%string) 0; OpReorderTiers ["t2"; "t1"]%string] in
  let tl' := stamp_update 0 (set_tiers [tier_of "t2" "A" [text_item "d"] 0;
                                        tier_of "t1" "S" [text_item "a"] 1]
                              (stamp_update 0 (set_unranked [text_item "b"; text_item "c"]
                                                 doc_movies))) in
  NoDup (map tier_id (tiers doc_movies))
  /\ guarded 0 doc_movies ops
  /\ run_ops 0 doc_movies ops = Ok tl'
  /\ all_items tl' ≡ₚ all_items doc_movies.
Proof.
  intros ops tl'.
  assert (H1 : NoDup (map tier_id (tiers doc_movies)))
    by (apply (bool_decide_unpack _); vm_compute; exact I).
  assert (H2 : guarded 0 doc_movies ops).
  { split; [exact I|]. intros tl1 E. vm_compute in E. injection E as <-.
    split; [apply perm_swap|]. intros; exact I. }
  assert (H3 : run_ops 0 doc_movies ops = Ok tl') by (vm_compute; reflexivity).
  split; [exact H1|]. split; [exact H2|]. split; [exact H3|].
  exact (proj1 (guarded_ops_keep_every_item 0 doc_movies ops tl' H1 H2 H3)).
Defined.

(** [reorderTiers] with a repeated tier id duplicates the tier's items
    (both copies share one tier object, so both get order 1), and with
    the empty list it drops them; both are saved. *)
Lemma reorderTiers_repeated_id_duplicates_item :
  let r := reorderTiers (mock_load doc_movies) mock_save "d1" ["t1"; "t1"]%string svc0 in
  let ids o := match o with Ok tl' => map item_id (all_items tl') | Err _ => [] end in
  map item_id (all_items doc_movies) = ["a"; "b"; "c"; "d"]%string
  /\ ids (reorderTiers_body doc_movies ["t1"; "t1"]%string) = ["a"; "a"; "b"; "c"; "d"]%string
  /\ ids (reorderTiers_body doc_movies []) = ["b"; "c"; "d"]%string
  /\ fst r = Ok tt
  /\ storage (snd r)
     = [tl_to_jval (stamp_update 1000 (set_tiers [tier_of "t1" "S" [text_item "a"] 1;
                                                   tier_of "t1" "S" [text_item "a"] 1]
                                                  doc_movies))].
Proof. vm_compute. repeat split. Qed.

(** ** Duplicating a document *)

Lemma bump_ids_0 {St} (s : Svc St) : bump_ids 0 s = s.
Proof. destruct s; unfold bump_ids; cbn; rewrite Nat.add_0_r; reflexivity. Qed.

Lemma bump_ids_add {St} k k' (s : Svc St) : bump_ids k (bump_ids k' s) = bump_ids (k' + k) s.
Proof. destruct s; unfold bump_ids; cbn; rewrite Nat.add_assoc; reflexivity. Qed.

Lemma bump_id_ids {St} (s : Svc St) : bump_id s = bump_ids 1 s.
Proof. destruct s; unfold bump_id, bump_ids; cbn; rewrite Nat.add_1_r; reflexivity. Qed.

Section Fresh.
Context {St : Type}.
Variable gen : nat -> string.

Lemma gen_between_widen lo hi lo' hi' i :
  (lo' <= lo)%nat -> (hi <= hi')%nat -> gen_between gen lo hi i -> gen_between gen lo' hi' i.
Proof. intros H1 H2 (n & Hn & ->); exists n; split; [lia|reflexivity]. Qed.

Lemma fresh_items_spec (l : list TierListItem) (s : Svc St) :
  exists l', fresh_items gen l s = (Ok l', bump_ids (length l) s)
    /\ map item_shape l' = map item_shape l
    /\ Forall (fun it => gen_between gen (next_id s) (next_id s + length l) (item_id it)) l'.
Proof.
  revert s; induction l as [|it l IH]; intros s.
  - exists []; split; [rewrite bump_ids_0; reflexivity|]. split; constructor.
  - destruct (IH (bump_id s)) as (l' & Hf & Hsh & Hids).
    exists (set_item_id (gen (next_id s)) it :: l'). split; [|split].
    + cbn [fresh_items]. unfold se_bind at 1; cbn [generateId].
      unfold se_bind; rewrite Hf. rewrite bump_id_ids, bump_ids_add; reflexivity.
    + cbn; rewrite Hsh; reflexivity.
    + constructor.
      * exists (next_id s); cbn; split; [lia|reflexivity].
      * eapply Forall_impl; [exact Hids|]. intros x Hx.
        eapply gen_between_widen; [| |exact Hx]; cbn; lia.
Qed.

Lemma fresh_tiers_spec (l : list Tier) (s : Svc St) :
  let k := (length l + length (concat (map items l)))%nat in
  exists l', fresh_tiers gen l s = (Ok l', bump_ids k s)
    /\ map tier_shape l' = map tier_shape l
    /\ Forall (fun t => gen_between gen (next_id s) (next_id s + k) (tier_id t)
                        /\ Forall (fun it => gen_between gen (next_id s) (next_id s + k)
                                                         (item_id it)) (items t)) l'.
Proof.
  revert s; induction l as [|t l IH]; intros s k.
  - exists []; split; [rewrite bump_ids_0; reflexivity|]. split; constructor.
  - destruct (fresh_items_spec (items t) (bump_id s)) as (its & Hfi & Hshi & Hidi).
    destruct (IH (bump_ids (length (items t)) (bump_id s))) as (l' & Hf & Hsh & Hids).
    exists (set_items its (set_tier_id (gen (next_id s)) t) :: l'). split; [|split].
    + cbn [fresh_tiers]. unfold se_bind at 1; cbn [generateId].
      unfold se_bind at 1; rewrite Hfi. unfold se_bind; rewrite Hf.
      unfold se_ret; rewrite bump_id_ids, !bump_ids_add. unfold k; cbn.
      rewrite length_app. do 3 f_equal. lia.
    + cbn; rewrite Hsh; unfold tier_shape; cbn; rewrite Hshi; reflexivity.
    + unfold k; cbn [length map concat]; rewrite length_app.
      constructor; [split|].
      * exists (next_id s); cbn; split; [lia|reflexivity].
      * cbn. eapply Forall_impl; [exact Hidi|]. intros x Hx.
        eapply gen_between_widen; [| |exact Hx]; cbn; lia.
      * eapply Forall_impl; [exact Hids|]. intros x [Hx Hxs]. split.
        -- eapply gen_between_widen; [| |exact Hx]; cbn; lia.
        -- eapply Forall_impl; [exact Hxs|]. intros y Hy.
           eapply gen_between_widen; [| |exact Hy]; cbn; lia.
Qed.
End Fresh.

Lemma run_listeners_storage {St} ev hs data (s : Svc St) :
  storage (snd (run_listeners ev hs data s)) = storage s.
Proof.
  revert s; induction hs as [|h hs IH]; intros s; [reflexivity|]; cbn.
  destruct (h_run h data); [reflexivity|]. rewrite IH; reflexivity.
Qed.

Lemma emit_storage {St} ev data (s : Svc St) : storage (snd (emit ev data s)) = storage s.
Proof. apply run_listeners_storage. Qed.

Lemma gen_between_fresh {St} (gen : nat -> string) (s : Svc St) D i :
  Forall (fun n => gen n ∉ doc_ids D) (seq (next_id s) (length (doc_ids D))) ->
  gen_between gen (next_id s) (next_id s + length (doc_ids D)) i -> ~ In i (doc_ids D).
Proof.
  intros Hf (n & Hn & ->) Hin.
  rewrite List.Forall_forall in Hf.
  apply (Hf n); [apply in_seq; lia|]. apply list_elem_of_In, Hin.
Qed.

(** Claim C9 (as the code has it).  When the ids [generateId] returns
    during the call are not ids of the original [D], a successful
    [duplicateTierList] returns a copy whose document, tier and item ids
    are all fresh, whose tiers and pool equal [D]'s apart from ids
    (labels, colors, orders, item contents and metadata), with version
    1, both timestamps now, [D]'s description and settings, and which
    was saved.  The title is [newTitle] when it is given and not empty,
    otherwise [D]'s title followed by " (Copy)": an empty [newTitle]
    is ignored. *)
Theorem duplicateTierList_fresh_copy {St} st_load st_save gen (tierListId : string)
    (newTitle : option string) (s : Svc St) (D dup : TierList) (s' : Svc St) :
  st_load (storage s) tierListId = Some D ->
  Forall (fun n => gen n ∉ doc_ids D) (seq (next_id s) (length (doc_ids D))) ->
  duplicateTierList st_load st_save gen tierListId newTitle s = (Ok dup, s') ->
  (forall i, In i (doc_ids dup) -> ~ In i (doc_ids D))
  /\ doc_shape dup = doc_shape D
  /\ version (metadata dup) = 1
  /\ createdAt (metadata dup) = clock s /\ updatedAt (metadata dup) = clock s
  /\ (forall t, newTitle = Some t -> t <> ""%string -> title dup = t)
  /\ (newTitle = None \/ newTitle = Some ""%string -> title dup = (title D ++ " (Copy)")%string)
  /\ description dup = description D /\ settings dup = settings D
  /\ st_save (tl_to_jval dup) (storage s) = (Ok tt, storage s').
Proof.
  intros Hl Hfresh Hd.
  set (K := (length (tiers D) + length (concat (map items (tiers D))))%nat) in *.
  destruct (fresh_tiers_spec gen (tiers D) (bump_id s)) as (ts & Hft & Hsht & Hidt).
  destruct (fresh_items_spec gen (unrankedItems D) (bump_ids K (bump_id s)))
    as (us & Hfu & Hshu & Hidu).
  unfold duplicateTierList, se_bind in Hd.
  rewrite (load_or_throw_some st_load tierListId s D Hl) in Hd.
  cbn [generateId new_Date] in Hd. fold K in Hft. rewrite Hft in Hd. rewrite Hfu in Hd.
  unfold storage_save in Hd.
  set (dup0 := {| tl_id := gen (next_id s); title := duplicate_title (title D) newTitle;
                  description := description D; tiers := ts; unrankedItems := us;
                  metadata := {| createdAt := clock (bump_id s); updatedAt := clock (bump_id s);
                                 version := 1; author := author (metadata D) |};
                  settings := settings D |}) in Hd.
  destruct (st_save (tl_to_jval dup0) _) as [[[]|e] st'] eqn:Hs; [|discriminate].
  destruct (emit "tierListCreated" (tl_to_jval dup0) _) as [[[]|e] s2] eqn:He;
    [|discriminate].
  unfold se_ret in Hd; injection Hd as <- <-.
  assert (Hlen : length (doc_ids D) = (1 + K + length (unrankedItems D))%nat).
  { unfold doc_ids, all_items, K; cbn. rewrite !length_app, !length_map. rewrite List.length_app. lia. }
  split; [|split; [|split; [|split; [|split; [|split; [|split; [|split; [|split]]]]]]]].
  - intros i Hi. apply (gen_between_fresh gen s D i Hfresh).
    rewrite Hlen. unfold doc_ids, all_items in Hi; cbn in Hi.
    rewrite List.Forall_forall in Hidt, Hidu.
    destruct Hi as [<-|Hi]; [exists (next_id s); split; [lia|reflexivity]|].
    apply in_app_or in Hi as [Hi|Hi].
    + apply in_map_iff in Hi as (t & <- & Ht).
      eapply gen_between_widen; [| |exact (proj1 (Hidt t Ht))]; cbn; lia.
    + apply in_map_iff in Hi as (x & <- & Hin).
      apply in_app_or in Hin as [Hin|Hin].
      * apply in_concat in Hin as (l & Hl' & Hx). apply in_map_iff in Hl' as (t & <- & Ht).
        pose proof (proj2 (Hidt t Ht)) as Hts. rewrite List.Forall_forall in Hts.
        eapply gen_between_widen; [| |exact (Hts x Hx)]; cbn; lia.
      * eapply gen_between_widen; [| |exact (Hidu x Hin)]; cbn; lia.
  - unfold doc_shape; cbn; rewrite Hsht, Hshu; reflexivity.
  - reflexivity.
  - reflexivity.
  - reflexivity.
  - intros t -> Hne; cbn. apply String.eqb_neq in Hne; rewrite Hne; reflexivity.
  - intros [-> | ->]; reflexivity.
  - reflexivity.
  - reflexivity.
  - pose proof (emit_storage "tierListCreated" (tl_to_jval dup0)
                  (set_storage st' (bump_ids (length (unrankedItems D)) (bump_ids K (bump_id s)))))
      as Hst. rewrite He in Hst; cbn in Hst. rewrite Hst. exact Hs.
Qed.

Lemma duplicateTierList_fresh_copy_witness :
  let r := duplicateTierList (mock_load doc_movies) mock_save gen_ids "d1"
             (Some "Films"%string) svc0 in
  let dup := match fst r with Ok d => d | Err _ => doc_movies end in
  mock_load doc_movies (storage svc0) "d1" = Some doc_movies
  /\ Forall (fun n => gen_ids n ∉ doc_ids doc_movies)
            (seq (next_id svc0) (length (doc_ids doc_movies)))
  /\ r = (Ok dup, snd r)
  /\ doc_shape dup = doc_shape doc_movies.
Proof.
  intros r dup.
  assert (H1 : mock_load doc_movies (storage svc0) "d1" = Some doc_movies) by reflexivity.
  assert (H2 : Forall (fun n => gen_ids n ∉ doc_ids doc_movies)
                      (seq (next_id svc0) (length (doc_ids doc_movies))))
    by (apply (bool_decide_unpack _); vm_compute; exact I).
  assert (H3 : r = (Ok dup, snd r)) by (vm_compute; reflexivity).
  split; [exact H1|]. split; [exact H2|]. split; [exact H3|].
  exact (proj1 (proj2 (duplicateTierList_fresh_copy (mock_load doc_movies) mock_save gen_ids
                         "d1" (Some "Films"%string) svc0 doc_movies dup (snd r) H1 H2 H3))).
Defined.

(** An empty new title gives the default title. *)
Lemma duplicate_empty_title_falls_back :
  let r := duplicateTierList (mock_load doc_movies) mock_save gen_ids "d1" (Some ""%string) svc0 in
  (match fst r with Ok d => Some (title d) | Err _ => None end) = Some "Movies (Copy)"%string
  /\ (match fst r with Ok d => Some (title d) | Err _ => None end) <> Some ""%string.
Proof. vm_compute. split; [reflexivity|discriminate]. Qed.



(* ------------------------------------------------------------------ *)
(** * Further properties of the code *)

(** ** JSON values: an induction principle through lists *)

Section jval_ind2.
Variable P : jval -> Prop.
Hypothesis HNull : P JNull.
Hypothesis HBool : forall b, P (JBool b).
Hypothesis HNum : forall n, P (JNum n).
Hypothesis HStr : forall s, P (JStr s).
Hypothesis HArr : forall l, Forall P l -> P (JArr l).
Hypothesis HObj : forall kvs, Forall (fun kv => P (snd kv)) kvs -> P (JObj kvs).
Hypothesis HDate : forall t, P (JDate t).

Fixpoint jval_ind2 (v : jval) : P v :=
  match v with
  | JNull => HNull
  | JBool b => HBool b
  | JNum n => HNum n
  | JStr s => HStr s
  | JArr l =>
      HArr l ((fix go (l : list jval) : Forall P l :=
                 match l with
                 | [] => @List.Forall_nil _ P
                 | x :: r => @List.Forall_cons _ P x r (jval_ind2 x) (go r)
                 end) l)
  | JObj kvs =>
      HObj kvs ((fix go (kvs : list (string * jval)) : Forall (fun kv => P (snd kv)) kvs :=
                   match kvs with
                   | [] => @List.Forall_nil _ (fun kv => P (snd kv))
                   | (k, x) :: r =>
                       @List.Forall_cons _ (fun kv => P (snd kv)) (k, x) r (jval_ind2 x) (go r)
                   end) kvs)
  | JDate t => HDate t
  end.
End jval_ind2.

Lemma is_object_parseDates dp v : is_object (parseDates dp v) = is_object v.
Proof. destruct v; reflexivity. Qed.

Lemma date_free_json_erase v : date_free (json_erase v) = true.
Proof.
  induction v using jval_ind2; cbn; try reflexivity.
  - apply forallb_forall; intros x Hx. apply in_map_iff in Hx as (y & <- & Hy).
    rewrite List.Forall_forall in H; exact (H y Hy).
  - apply forallb_forall; intros x Hx. apply in_map_iff in Hx as (y & <- & Hy).
    rewrite List.Forall_forall in H; exact (H y Hy).
  - destruct t; reflexivity.
Qed.

Lemma parseDates_idem_aux dp v : parseDates dp (parseDates dp v) = parseDates dp v.
Proof.
  induction v as [| | | |l IH|kvs IH|t] using jval_ind2; try reflexivity.
  - cbn in *. rewrite map_map. f_equal. apply map_ext_in; intros x Hx.
    rewrite List.Forall_forall in IH. apply IH; exact Hx.
  - cbn in *. rewrite map_map. f_equal. apply map_ext_in; intros [k x] Hx.
    rewrite List.Forall_forall in IH. specialize (IH _ Hx). cbn in IH.
    destruct (includes k "Date" || includes k "At") eqn:Ek.
    + destruct x; reflexivity.
    + destruct (is_object x) eqn:Eo.
      * rewrite is_object_parseDates, Eo, IH; reflexivity.
      * rewrite Eo; reflexivity.
Qed.

(** ** Association lists *)

Lemma keys_assoc_set {A} k (v : A) l :
  keys (assoc_set k v l) = if bool_decide (k ∈ keys l) then keys l else keys l ++ [k].
Proof.
  unfold keys; induction l as [|[k' v'] l IH]; cbn.
  - rewrite bool_decide_false; [reflexivity|]. apply not_elem_of_nil.
  - destruct (String.eqb k k') eqn:E.
    + apply String.eqb_eq in E; subst. rewrite bool_decide_true; [reflexivity|].
      apply list_elem_of_here.
    + apply String.eqb_neq in E. cbn. rewrite IH.
      destruct (bool_decide (k ∈ map fst l)) eqn:B;
        [apply bool_decide_eq_true in B | apply bool_decide_eq_false in B].
      * rewrite bool_decide_true; [reflexivity|]. apply list_elem_of_further; exact B.
      * rewrite bool_decide_false; [reflexivity|]. rewrite elem_of_cons. intuition.
Qed.

Lemma NoDup_keys_assoc_set {A} k (v : A) l :
  NoDup (keys l) -> NoDup (keys (assoc_set k v l)).
Proof.
  intros H; rewrite keys_assoc_set.
  destruct (bool_decide (k ∈ keys l)) eqn:B; [exact H|].
  apply bool_decide_eq_false in B. apply NoDup_app; split; [exact H|]. split.
  - intros x Hx Hx'. apply list_elem_of_singleton in Hx'; subst; contradiction.
  - apply NoDup_singleton.
Qed.

Lemma assoc_get_None {A} k (l : list (string * A)) : k ∉ keys l -> assoc_get k l = None.
Proof.
  unfold keys; induction l as [|[k' v'] l IH]; cbn; [reflexivity|]. intros Hn.
  rewrite elem_of_cons in Hn.
  destruct (String.eqb k k') eqn:E; [apply String.eqb_eq in E; subst; intuition|].
  apply IH; intuition.
Qed.

Lemma assoc_get_map {A B} (f : A -> B) k (l : list (string * A)) :
  assoc_get k (map (fun kv => (fst kv, f (snd kv))) l) = option_map f (assoc_get k l).
Proof.
  induction l as [|[k' v'] l IH]; cbn; [reflexivity|].
  destruct (String.eqb k k'); [reflexivity|exact IH].
Qed.

Lemma keys_map {A B} (f : A -> B) (l : list (string * A)) :
  keys (map (fun kv => (fst kv, f (snd kv))) l) = keys l.
Proof. unfold keys; rewrite map_map; reflexivity. Qed.

(** ** The tier lists [validateAndMigrateData] keeps *)

Section Migrate.
Variable dp : string -> option Z.

Lemma fold_valid_notin k l acc :
  k ∉ keys l ->
  assoc_get k (fold_left (fun acc '(id, x) =>
                            if validateTierList x
                            then assoc_set id (parseDates dp x) acc
                            else acc) l acc) = assoc_get k acc.
Proof.
  unfold keys; revert acc; induction l as [|[k' x] l IH]; intros acc Hn; cbn; [reflexivity|].
  cbn in Hn; rewrite elem_of_cons in Hn. rewrite IH by intuition.
  destruct (validateTierList x); [|reflexivity].
  apply assoc_get_set_ne. intros ->; intuition.
Qed.

Lemma fold_valid_get k l acc :
  NoDup (keys l) ->
  assoc_get k (fold_left (fun acc '(id, x) =>
                            if validateTierList x
                            then assoc_set id (parseDates dp x) acc
                            else acc) l acc)
  = match assoc_get k l with
    | Some x => if validateTierList x then Some (parseDates dp x) else assoc_get k acc
    | None => assoc_get k acc
    end.
Proof.
  unfold keys; revert acc; induction l as [|[k' x] l IH]; intros acc Hnd; cbn; [reflexivity|].
  cbn in Hnd; apply NoDup_cons in Hnd as [Hn Hnd].
  destruct (String.eqb k k') eqn:E.
  - apply String.eqb_eq in E; subst k'.
    rewrite fold_valid_notin by exact Hn.
    destruct (validateTierList x); [apply assoc_get_set_eq|reflexivity].
  - apply String.eqb_neq in E. rewrite (IH _ Hnd).
    destruct (validateTierList x); [|reflexivity].
    rewrite assoc_get_set_ne by exact E. reflexivity.
Qed.

Lemma fold_valid_nodup l acc :
  NoDup (keys acc) ->
  NoDup (keys (fold_left (fun acc '(id, x) =>
                            if validateTierList x
                            then assoc_set id (parseDates dp x) acc
                            else acc) l acc)).
Proof.
  revert acc; induction l as [|[k' x] l IH]; intros acc H; cbn; [exact H|].
  apply IH. destruct (validateTierList x); [apply NoDup_keys_assoc_set|]; exact H.
Qed.

Lemma vmd_nodup v : NoDup (keys (ld_tierLists (validateAndMigrateData dp v))).
Proof.
  unfold validateAndMigrateData.
  destruct (negb (truthy v) || negb (is_object v)); [apply NoDup_nil_2|]; cbn.
  destruct (get_prop "tierLists" v) as [t|]; [|apply NoDup_nil_2].
  destruct (truthy t && is_object t); [|apply NoDup_nil_2].
  apply fold_valid_nodup, NoDup_nil_2.
Qed.

(** The stored tier lists after a reload of the blob that serialises
    [D]. *)
Lemma vmd_erase_tierLists D :
  ld_tierLists (validateAndMigrateData dp (json_erase (ld_to_jval D)))
  = fold_left (fun acc '(id, x) =>
                 if validateTierList x
                 then assoc_set id (parseDates dp x) acc
                 else acc)
              (map (fun kv => (fst kv, json_erase (snd kv))) (ld_tierLists D)) [].
Proof. reflexivity. Qed.
End Migrate.

(** ** Reading and writing the blob *)

Lemma loadAllData_nodup parse dp cfg m data :
  fst (loadAllData parse dp cfg m) = Ok data -> NoDup (keys (ld_tierLists data)).
Proof.
  unfold loadAllData, se_catch, se_bind.
  rewrite isLocalStorageAvailable_eq.
  destruct (probe_ok m); cbn; [|intros [= <-]; apply NoDup_nil_2].
  destruct (_ !! STORAGE_KEY cfg) as [s|]; cbn; [|intros [= <-]; apply NoDup_nil_2].
  destruct (String.eqb s ""); cbn; [intros [= <-]; apply NoDup_nil_2|].
  destruct (parse s); cbn; intros [= <-]; [apply NoDup_nil_2|apply vmd_nodup].
Qed.

Lemma loadAllData_blob parse dp cfg m s v :
  probe_ok m = true -> delete test_key (ls_items m) !! STORAGE_KEY cfg = Some s ->
  s <> ""%string -> parse s = inr v ->
  fst (loadAllData parse dp cfg m) = Ok (validateAndMigrateData dp v).
Proof.
  intros Ha Hs Hne Hp. unfold loadAllData, se_catch, se_bind.
  rewrite isLocalStorageAvailable_eq, Ha. cbn. rewrite Hs.
  apply String.eqb_neq in Hne; rewrite Hne, Hp. reflexivity.
Qed.

Lemma loadAllData_probe_fails parse dp cfg m :
  probe_ok m = false -> fst (loadAllData parse dp cfg m) = Ok createEmptyData.
Proof.
  intros Ha. unfold loadAllData, se_catch, se_bind.
  rewrite isLocalStorageAvailable_eq, Ha. reflexivity.
Qed.

Lemma saveAllData_ok cfg data m m' :
  saveAllData cfg data m = (Ok tt, m') ->
  probe_ok m = true
  /\ m' = with_items m (<[VERSION_KEY cfg := CURRENT_VERSION]>
                          (<[STORAGE_KEY cfg := stringify (ld_to_jval data)]>
                             (ls_items (probed m)))).
Proof.
  rewrite saveAllData_eq. destruct (probe_ok m); [|discriminate]. cbn zeta.
  destruct (_ >? _); [discriminate|].
  destruct (ls_fits m _); [|discriminate].
  destruct (ls_fits m _); [|discriminate].
  intros [= <-]; split; reflexivity.
Qed.

Lemma stringify_obj_ne kvs : stringify (JObj kvs) <> ""%string.
Proof. cbn; discriminate. Qed.

(** A load from a medium whose blob is the one of [D], when the probe
    succeeds. *)
Lemma load_after_write parse dp cfg m D id :
  STORAGE_KEY cfg <> test_key -> probe_ok m = true ->
  ls_items m !! STORAGE_KEY cfg = Some (stringify (ld_to_jval D)) ->
  parse (stringify (ld_to_jval D)) = inr (json_erase (ld_to_jval D)) ->
  fst (lsp_load parse dp cfg id m)
  = Ok (match assoc_get id (ld_tierLists (validateAndMigrateData dp (json_erase (ld_to_jval D)))) with
        | Some v => if truthy v then Some (parseDates dp v) else None
        | None => None
        end).
Proof.
  intros Hkt Ha Hi Hp. unfold lsp_load, se_bind.
  pose proof (loadAllData_blob parse dp cfg m (stringify (ld_to_jval D))
                (json_erase (ld_to_jval D)) Ha) as H.
  rewrite lookup_delete_ne in H by congruence.
  specialize (H Hi (stringify_obj_ne _) Hp).
  destruct (loadAllData parse dp cfg m) as [r s']; cbn in H; subst r. reflexivity.
Qed.

(** [parseDates] is idempotent: applying it to a value it already returned changes nothing, on every value (a [Date] is left as the empty object it became). *)
Theorem parseDates_idempotent dp v : parseDates dp (parseDates dp v) = parseDates dp v.
Proof. exact (parseDates_idem_aux dp v). Qed.


Lemma loadAllData_ok parse dp cfg m : exists data, fst (loadAllData parse dp cfg m) = Ok data.
Proof.
  unfold loadAllData, se_catch, se_bind.
  rewrite isLocalStorageAvailable_eq.
  destruct (probe_ok m); cbn; [|eauto].
  destruct (_ !! STORAGE_KEY cfg) as [s|]; cbn; [|eauto].
  destruct (String.eqb s ""); cbn; [eauto|].
  destruct (parse s); cbn; eauto.
Qed.

Lemma lsp_load_eq parse dp cfg id m data :
  fst (loadAllData parse dp cfg m) = Ok data ->
  lsp_load parse dp cfg id m
  = (Ok (match assoc_get id (ld_tierLists data) with
         | Some v => if truthy v then Some (parseDates dp v) else None
         | None => None
         end), snd (loadAllData parse dp cfg m)).
Proof.
  intros H; unfold lsp_load, se_bind.
  destruct (loadAllData parse dp cfg m) as [r s]; cbn in H; subst r; reflexivity.
Qed.

Lemma lsp_load_probe_fails parse dp cfg id m :
  probe_ok m = false -> fst (lsp_load parse dp cfg id m) = Ok None.
Proof.
  intros Ha. rewrite (lsp_load_eq _ _ _ _ _ _ (loadAllData_probe_fails parse dp cfg m Ha)).
  reflexivity.
Qed.

Lemma truthy_parseDates_stamped dp now tl :
  truthy (parseDates dp (json_erase (stamped now tl))) = true.
Proof. reflexivity. Qed.

(** After a successful [save], a [load] of the document's id returns the stored document (the JSON image of the stamped document, with its dates revived) when the load's availability probe succeeds, the stored blob parses back and the document passes [validateTierList]; when the probe is refused (storage full), the load returns [null]. *)
Theorem lsp_save_then_load parse dp cfg now (tl : jval) (m m' : Medium) data
    (Hkv : STORAGE_KEY cfg <> VERSION_KEY cfg) (Hkt : STORAGE_KEY cfg <> test_key)
    (Hdata : fst (loadAllData parse dp cfg m) = Ok data)
    (Hsave : lsp_save parse dp cfg now tl m = (Ok tt, m'))
    (Hparse : parse (stringify (ld_to_jval (upsert now tl data)))
              = inr (json_erase (ld_to_jval (upsert now tl data))))
    (Hvalid : validateTierList (json_erase (stamped now tl)) = true) :
  (fst (isLocalStorageAvailable m') = Ok true ->
   fst (lsp_load parse dp cfg (doc_key tl) m')
   = Ok (Some (parseDates dp (json_erase (stamped now tl)))))
  /\ (fst (isLocalStorageAvailable m') = Ok false ->
      fst (lsp_load parse dp cfg (doc_key tl) m') = Ok None).
Proof.
  split; intros Hprobe.
  - apply isLocalStorageAvailable_true in Hprobe.
    pose proof (loadAllData_nodup _ _ _ _ _ Hdata) as Hnd.
    unfold lsp_save, se_bind in Hsave.
    destruct (loadAllData parse dp cfg m) as [r s1]; cbn in Hdata; subst r.
    apply saveAllData_ok in Hsave as [_ ->].
    rewrite (load_after_write _ _ _ _ (upsert now tl data)); [| assumption | assumption | | assumption].
    + rewrite vmd_erase_tierLists, fold_valid_get.
      * rewrite assoc_get_map. cbn [upsert ld_tierLists].
        rewrite assoc_get_set_eq. cbn [option_map]. rewrite Hvalid.
        rewrite truthy_parseDates_stamped, parseDates_idem_aux. reflexivity.
      * rewrite keys_map. apply NoDup_keys_assoc_set, Hnd.
    + cbn [with_items ls_items].
      rewrite lookup_insert_ne by congruence. apply lookup_insert_eq.
  - rewrite isLocalStorageAvailable_eq in Hprobe.
    destruct (probe_ok m') eqn:E; [discriminate|].
    apply lsp_load_probe_fails, E.
Qed.

Lemma engine_doc_stored_valid now tl :
  validateTierList (json_erase (stamped now (tl_to_jval tl))) = true.
Proof. destruct tl as [i t [d|] ts us [ca ua v [a|]] [th [|] sl]]; reflexivity. Qed.

Lemma doc_key_tl_to_jval tl : doc_key (tl_to_jval tl) = tl_id tl.
Proof. reflexivity. Qed.

(** After a successful [delete(id)], [load(id)] finds nothing. *)
Theorem lsp_delete_then_load parse dp cfg (id : string) (m m' : Medium) data
    (Hkv : STORAGE_KEY cfg <> VERSION_KEY cfg) (Hkt : STORAGE_KEY cfg <> test_key)
    (Hdata : fst (loadAllData parse dp cfg m) = Ok data)
    (Hdel : lsp_delete parse dp cfg id m = (Ok tt, m'))
    (Hparse : parse (stringify (ld_to_jval (delete_doc id data)))
              = inr (json_erase (ld_to_jval (delete_doc id data)))) :
  fst (lsp_load parse dp cfg id m') = Ok None.
Proof.
  destruct (probe_ok m') eqn:Hprobe; [|apply lsp_load_probe_fails, Hprobe].
  unfold lsp_delete, se_bind in Hdel.
  destruct (loadAllData parse dp cfg m) as [r s1]; cbn in Hdata; subst r.
  apply saveAllData_ok in Hdel as [_ ->].
  rewrite (load_after_write _ _ _ _ (delete_doc id data)); [| assumption | assumption | | assumption].
  - rewrite vmd_erase_tierLists, fold_valid_notin; [reflexivity|].
    rewrite keys_map. unfold keys; cbn [delete_doc ld_tierLists].
    rewrite list_elem_of_In, in_map_iff. intros ([k x] & Hk & Hin).
    apply filter_In in Hin as [_ Hn]. cbn in Hk, Hn; subst k.
    rewrite String.eqb_refl in Hn; discriminate.
  - cbn [with_items ls_items].
    rewrite lookup_insert_ne by congruence. apply lookup_insert_eq.
Qed.

Lemma loadAllData_fallback parse dp cfg (m : Medium) :
  (exists data, fst (loadAllData parse dp cfg m) = Ok data)
  /\ (fst (isLocalStorageAvailable m) = Ok false
      \/ delete test_key (ls_items m) !! STORAGE_KEY cfg = None
      \/ delete test_key (ls_items m) !! STORAGE_KEY cfg = Some ""%string
      \/ (exists s e, delete test_key (ls_items m) !! STORAGE_KEY cfg = Some s
                      /\ parse s = inl e) ->
      fst (loadAllData parse dp cfg m) = Ok createEmptyData).
Proof.
  split; [apply loadAllData_ok|].
  intros H. destruct (probe_ok m) eqn:Ha; [|apply loadAllData_probe_fails, Ha].
  unfold loadAllData, se_catch, se_bind.
  rewrite isLocalStorageAvailable_eq in *. rewrite Ha in *.
  destruct H as [H|[Hn|[He|(s & e & Hs & Hp)]]].
  - discriminate.
  - cbn. rewrite Hn; reflexivity.
  - cbn. rewrite He; reflexivity.
  - cbn. rewrite Hs.
    destruct (String.eqb s ""); [reflexivity|]. rewrite Hp; reflexivity.
Qed.

(** [loadAllData] never fails, and it yields the empty store when [localStorage] is unavailable (disabled, or refusing the probe write), when the blob is missing or empty, or when it is not JSON. *)
Theorem loadAllData_falls_back parse dp cfg (m : Medium) :
  (exists data, fst (loadAllData parse dp cfg m) = Ok data)
  /\ (fst (isLocalStorageAvailable m) = Ok false
      \/ delete test_key (ls_items m) !! STORAGE_KEY cfg = None
      \/ delete test_key (ls_items m) !! STORAGE_KEY cfg = Some ""%string
      \/ (exists s e, delete test_key (ls_items m) !! STORAGE_KEY cfg = Some s
                      /\ parse s = inl e) ->
      fst (loadAllData parse dp cfg m) = Ok createEmptyData).
Proof. exact (loadAllData_fallback parse dp cfg m). Qed.

(** A [save] over a blob that does not parse replaces the blob by a store holding only the saved document: the unreadable content is dropped. *)
Theorem save_over_unreadable_blob parse dp cfg now (tl : jval) (m m' : Medium) s e
    (Hkv : STORAGE_KEY cfg <> VERSION_KEY cfg) (Hkt : STORAGE_KEY cfg <> test_key)
    (Hs : ls_items m !! STORAGE_KEY cfg = Some s) (Hp : parse s = inl e)
    (Hsave : lsp_save parse dp cfg now tl m = (Ok tt, m')) :
  ls_items m' !! STORAGE_KEY cfg
  = Some (stringify (ld_to_jval (upsert now tl createEmptyData))).
Proof.
  assert (Hd : fst (loadAllData parse dp cfg m) = Ok createEmptyData).
  { apply loadAllData_fallback. right; right; right. exists s, e.
    rewrite lookup_delete_ne by congruence. split; [exact Hs | exact Hp]. }
  unfold lsp_save, se_bind in Hsave.
  destruct (loadAllData parse dp cfg m) as [r s1]; cbn in Hd; subst r.
  apply saveAllData_ok in Hsave as [_ ->]. cbn [with_items ls_items].
  rewrite lookup_insert_ne by congruence. apply lookup_insert_eq.
Qed.

(** When the storage key is the availability probe key, every load sees the empty store and finds no document, since the probe removes that key first. *)
Theorem probe_key_as_storage_key parse dp cfg (m : Medium)
    (Hk : STORAGE_KEY cfg = test_key) :
  fst (loadAllData parse dp cfg m) = Ok createEmptyData
  /\ forall id, fst (lsp_load parse dp cfg id m) = Ok None.
Proof.
  assert (H : fst (loadAllData parse dp cfg m) = Ok createEmptyData).
  { apply loadAllData_fallback. right; left.
    rewrite Hk. apply lookup_delete_eq. }
  split; [exact H|]. intros id. rewrite (lsp_load_eq _ _ _ _ _ _ H). reflexivity.
Qed.

Lemma fold_upsert_get now tls data k :
  assoc_get k (ld_tierLists (fold_left (fun d tl => upsert now tl d) tls data))
  = match List.find (fun t => String.eqb (doc_key t) k) (rev tls) with
    | Some t => Some (stamped now t)
    | None => assoc_get k (ld_tierLists data)
    end.
Proof.
  induction tls as [|t tls IH] using rev_ind; [reflexivity|].
  rewrite fold_left_app, rev_app_distr. cbn [fold_left rev app List.find upsert ld_tierLists].
  destruct (String.eqb (doc_key t) k) eqn:E.
  - apply String.eqb_eq in E; subst k. apply assoc_get_set_eq.
  - apply String.eqb_neq in E. rewrite assoc_get_set_ne by congruence. exact IH.
Qed.

(** [saveMultiple] of no document rewrites the loaded store as it is; of one document it is [save]; in general each id ends up mapped to the last document carrying it, other ids keeping their stored value. *)
Theorem lsp_saveMultiple_upserts_in_order parse dp cfg now (tls : list jval)
    (m m' : Medium) data
    (Hkv : STORAGE_KEY cfg <> VERSION_KEY cfg)
    (Hdata : fst (loadAllData parse dp cfg m) = Ok data)
    (Hsave : lsp_saveMultiple parse dp cfg now tls m = (Ok tt, m')) :
  lsp_saveMultiple parse dp cfg now [] m = saveAllData cfg data (snd (loadAllData parse dp cfg m))
  /\ (forall tl, lsp_saveMultiple parse dp cfg now [tl] m = lsp_save parse dp cfg now tl m)
  /\ exists D, ls_items m' !! STORAGE_KEY cfg = Some (stringify (ld_to_jval D))
     /\ forall k, assoc_get k (ld_tierLists D)
                  = match List.find (fun t => String.eqb (doc_key t) k) (rev tls) with
                    | Some t => Some (stamped now t)
                    | None => assoc_get k (ld_tierLists data)
                    end.
Proof.
  split; [|split].
  - unfold lsp_saveMultiple, se_bind.
    destruct (loadAllData parse dp cfg m) as [r s1]; cbn in Hdata; subst r. reflexivity.
  - intros tl; reflexivity.
  - unfold lsp_saveMultiple, se_bind in Hsave.
    destruct (loadAllData parse dp cfg m) as [r s1]; cbn in Hdata; subst r.
    apply saveAllData_ok in Hsave as [_ ->].
    eexists; split.
    + cbn [with_items ls_items]. rewrite lookup_insert_ne by congruence. apply lookup_insert_eq.
    + intros k; apply fold_upsert_get.
Qed.

Lemma omap_map {A B C} (f : B -> option C) (g : A -> B) (l : list A) :
  omap f (map g l) = omap (fun x => f (g x)) l.
Proof. induction l as [|x l IH]; cbn; [reflexivity|]. destruct (f (g x)); rewrite IH; reflexivity. Qed.

Lemma map_omap {A B C} (f : B -> C) (g : A -> option B) (l : list A) :
  map f (omap g l) = omap (fun x => option_map f (g x)) l.
Proof. induction l as [|x l IH]; cbn; [reflexivity|]. destruct (g x); cbn; rewrite IH; reflexivity. Qed.

Lemma omap_ext {A B} (f g : A -> option B) (l : list A) :
  (forall x, f x = g x) -> omap f l = omap g l.
Proof. intros H; induction l as [|x l IH]; cbn; [reflexivity|]. rewrite H, IH; reflexivity. Qed.

(** [loadMultiple(ids)] returns, in the order of [ids], exactly the documents single [load]s would find, skipping the ids with none, and leaves the medium as [loadAllData] does. *)
Theorem lsp_loadMultiple_as_loads parse dp cfg (ids : list string) (m : Medium) :
  fst (lsp_loadMultiple parse dp cfg ids m)
  = Ok (omap (fun id => match fst (lsp_load parse dp cfg id m) with
                        | Ok o => o
                        | Err _ => None
                        end) ids)
  /\ snd (lsp_loadMultiple parse dp cfg ids m) = snd (loadAllData parse dp cfg m).
Proof.
  destruct (loadAllData_ok parse dp cfg m) as [data Hd].
  assert (E : forall id, fst (lsp_load parse dp cfg id m)
                         = Ok (match assoc_get id (ld_tierLists data) with
                               | Some v => if truthy v then Some (parseDates dp v) else None
                               | None => None
                               end)).
  { intros id; rewrite (lsp_load_eq _ _ _ _ _ _ Hd); reflexivity. }
  unfold lsp_loadMultiple, se_bind.
  destruct (loadAllData parse dp cfg m) as [r s1] eqn:EL; cbn in Hd; subst r.
  cbn. split; [|reflexivity]. f_equal.
  rewrite omap_map, map_omap. apply omap_ext; intros id.
  rewrite E. destruct (assoc_get id (ld_tierLists data)) as [v|]; [|reflexivity].
  destruct (truthy v); reflexivity.
Qed.


Lemma map_insert_same {A B} (g : A -> B) (l : list A) i x y :
  l !! i = Some x -> g y = g x -> map g (<[i := y]> l) = map g l.
Proof.
  revert i; induction l as [|z l IH]; intros [|i] Hi Hg; try discriminate.
  - cbn in Hi; injection Hi as ->; cbn; rewrite Hg; reflexivity.
  - cbn in Hi; cbn. f_equal. exact (IH i Hi Hg).
Qed.

Lemma remove_from_tiers_orders ts itemId it ts' :
  remove_from_tiers ts itemId = Some (it, ts') -> map order ts' = map order ts.
Proof.
  revert ts'; induction ts as [|t ts IH]; intros ts' H; cbn in H; [discriminate|].
  destruct (findIndex (has_item_id itemId) (items t)) as [i|].
  - destruct (splice_remove (items t) i) as [[x rest]|]; [|discriminate].
    injection H as _ <-; reflexivity.
  - destruct (remove_from_tiers ts itemId) as [[x r']|] eqn:E; [|discriminate].
    injection H as -> <-. cbn; rewrite (IH _ eq_refl); reflexivity.
Qed.

Lemma findAndRemoveItem_orders tl itemId it tl1 :
  findAndRemoveItem tl itemId = Some (it, tl1) -> map order (tiers tl1) = map order (tiers tl).
Proof.
  unfold findAndRemoveItem.
  destruct (findIndex (has_item_id itemId) (unrankedItems tl)) as [i|].
  - destruct (splice_remove (unrankedItems tl) i) as [[x rest]|]; [|discriminate].
    intros [= _ <-]; reflexivity.
  - destruct (remove_from_tiers (tiers tl) itemId) as [[x ts]|] eqn:E; [|discriminate].
    intros [= _ <-]. exact (remove_from_tiers_orders _ _ _ _ E).
Qed.

Lemma moveItem_body_orders tl itemId target pos tl' :
  moveItem_body tl itemId target pos = Ok tl' -> map order (tiers tl') = map order (tiers tl).
Proof.
  unfold moveItem_body.
  destruct (findAndRemoveItem tl itemId) as [[it tl1]|] eqn:E; [|discriminate].
  pose proof (findAndRemoveItem_orders _ _ _ _ E) as Ho.
  destruct (targets_tier target) as [tid|].
  - destruct (findIndex (has_tier_id tid) (tiers tl1)) as [i|]; [|discriminate].
    destruct (tiers tl1 !! i) as [t|] eqn:Ht; [|discriminate].
    intros [= <-]; cbn. rewrite (map_insert_same order _ _ _ _ Ht) by reflexivity. exact Ho.
  - intros [= <-]; exact Ho.
Qed.

Lemma updateTier_body_Ok tl tierId lb cl tl' :
  updateTier_body tl tierId lb cl = Ok tl' ->
  exists i t, findIndex (has_tier_id tierId) (tiers tl) = Some i /\ tiers tl !! i = Some t
    /\ tl' = set_tiers (<[i := set_label_color (default (label t) lb) (default (color t) cl) t]>
                          (tiers tl)) tl.
Proof.
  unfold updateTier_body.
  destruct (findIndex (has_tier_id tierId) (tiers tl)) as [i|] eqn:F; [|discriminate].
  destruct (tiers tl !! i) as [t|] eqn:Ht; [|discriminate].
  intros [= <-]; eauto 6.
Qed.

Lemma length_reorderTiers_body tl ids tl' :
  reorderTiers_body tl ids = Ok tl' ->
  Forall (fun x => In x (map tier_id (tiers tl))) ids.
Proof.
  unfold reorderTiers_body.
  destruct (reorder_loop (tierMap_of (tiers tl)) ids 0) as [m'|e] eqn:R; [|discriminate].
  intros _. apply List.Forall_forall; intros x Hx.
  apply tierMap_of_present, (reorder_loop_ok_present _ _ _ _ R x Hx).
Qed.

(** The tiers' [order] fields equal their positions after [moveItem], [updateTier] and [addTier] if they did before; [removeTier] and [reorderTiers] (with distinct ids) renumber them to positions in every case; [updateTierList]'s stamp leaves them alone. *)
Theorem tier_orders_stay_positions (tl : TierList) :
  (forall itemId target pos tl', orders_contiguous tl ->
     moveItem_body tl itemId target pos = Ok tl' -> orders_contiguous tl')
  /\ (forall tierId lb cl tl', orders_contiguous tl ->
       updateTier_body tl tierId lb cl = Ok tl' -> orders_contiguous tl')
  /\ (forall newId lb cl, orders_contiguous tl ->
       orders_contiguous (fst (addTier_body tl newId lb cl)))
  /\ (forall tierId tl', removeTier_body tl tierId = Ok tl' -> orders_contiguous tl')
  /\ (forall ids tl', NoDup ids -> reorderTiers_body tl ids = Ok tl' -> orders_contiguous tl')
  /\ (forall now, orders_contiguous (stamp_update now tl) <-> orders_contiguous tl).
Proof.
  unfold orders_contiguous. split; [|split; [|split; [|split; [|split]]]].
  - intros itemId target pos tl' Hc H.
    rewrite (moveItem_body_orders _ _ _ _ _ H), Hc.
    rewrite <- (length_map order (tiers tl')), (moveItem_body_orders _ _ _ _ _ H),
      length_map. reflexivity.
  - intros tierId lb cl tl' Hc H.
    destruct (updateTier_body_Ok _ _ _ _ _ H) as (i & t & _ & Ht & ->); cbn.
    rewrite length_insert, (map_insert_same order _ _ _ _ Ht) by reflexivity. exact Hc.
  - intros newId lb cl Hc; cbn.
    rewrite map_app, Hc, length_app, seq_app, map_app. reflexivity.
  - intros tierId tl' H.
    destruct (findIndex (has_tier_id tierId) (tiers tl)) as [i|] eqn:F;
      [|unfold removeTier_body in H; rewrite F in H; discriminate].
    destruct (tiers tl !! i) as [t|] eqn:Ht;
      [|unfold removeTier_body in H; rewrite F, Ht in H; discriminate].
    rewrite (removeTier_body_found _ _ _ _ F Ht) in H. injection H as <-.
    cbn. rewrite renumber_orders, length_renumber. reflexivity.
  - intros ids tl' Hnd H.
    destruct (reorderTiers_body_ok tl ids (length_reorderTiers_body _ _ _ H))
      as (m' & _ & Hb & _ & Hids & _ & Ho).
    rewrite H in Hb; injection Hb as ->; cbn.
    rewrite (Ho Hnd), <- (length_map tier_id), Hids. reflexivity.
  - intros now; reflexivity.
Qed.


Lemma findIndex_first {A} (p : A -> bool) pre x post :
  Forall (fun y => p y = false) pre -> p x = true ->
  findIndex p (pre ++ x :: post) = Some (length pre).
Proof.
  induction pre as [|y pre IH]; intros Hf Hx; cbn; [rewrite Hx; reflexivity|].
  inversion Hf as [|? ? Hy Hr]; subst. rewrite Hy, (IH Hr Hx); reflexivity.
Qed.

Lemma listeners_of_set_ne {St} ev ev' hs (s : Svc St) :
  ev' <> ev ->
  listeners_of ev' (set_listeners (assoc_set ev hs (eventListeners s)) s) = listeners_of ev' s.
Proof. intros Hne; unfold listeners_of; cbn; rewrite assoc_get_set_ne by exact Hne; reflexivity. Qed.

(** [on] appends the handler to its event's list, and [on]/[off] leave the lists of other events alone; [off] removes the first handler with the same identity only; [off] of a handler not registered changes nothing, so [on] then [off] of a new handler restores the list. *)
Theorem on_off_registry {St} (ev : string) (h : Handler) (s : Svc St) :
  listeners_of ev (snd (on ev h s)) = listeners_of ev s ++ [h]
  /\ (forall ev', ev' <> ev -> listeners_of ev' (snd (on ev h s)) = listeners_of ev' s
                           /\ listeners_of ev' (snd (off ev h s)) = listeners_of ev' s)
  /\ (forall pre h' post, listeners_of ev s = pre ++ h' :: post -> h_id h' = h_id h ->
        Forall (fun g => h_id g <> h_id h) pre ->
        listeners_of ev (snd (off ev h s)) = pre ++ post)
  /\ (Forall (fun g => h_id g <> h_id h) (listeners_of ev s) -> off ev h s = (Ok tt, s))
  /\ (Forall (fun g => h_id g <> h_id h) (listeners_of ev s) ->
        listeners_of ev (snd (off ev h (snd (on ev h s)))) = listeners_of ev s).
Proof.
  assert (Hoff_pre : forall (s0 : Svc St) pre h' post,
            listeners_of ev s0 = pre ++ h' :: post -> h_id h' = h_id h ->
            Forall (fun g => h_id g <> h_id h) pre ->
            listeners_of ev (snd (off ev h s0)) = pre ++ post).
  { intros s0 pre h' post Hl Hid Hpre. unfold off.
    destruct (assoc_get ev (eventListeners s0)) as [hs|] eqn:E;
      [|unfold listeners_of in Hl; rewrite E in Hl; destruct pre; discriminate].
    unfold listeners_of in Hl; rewrite E in Hl; cbn in Hl; subst hs.
    rewrite (findIndex_first _ pre h' post).
    - unfold listeners_of; cbn; rewrite assoc_get_set_eq; cbn.
      rewrite take_app_length. f_equal. clear. induction pre as [|y pre IH]; [reflexivity|exact IH].
    - eapply List.Forall_impl; [|exact Hpre]; cbn; intros g Hg.
      apply Nat.eqb_neq; exact Hg.
    - apply Nat.eqb_eq; exact Hid. }
  split; [|split; [|split; [|split]]].
  - unfold on, listeners_of; cbn; rewrite assoc_get_set_eq; reflexivity.
  - intros ev' Hne; split; [apply listeners_of_set_ne; exact Hne|].
    unfold off. destruct (assoc_get ev (eventListeners s)) as [hs|]; [|reflexivity].
    destruct (findIndex _ hs); [|reflexivity]. apply listeners_of_set_ne; exact Hne.
  - exact (Hoff_pre s).
  - intros Hf. unfold off.
    destruct (assoc_get ev (eventListeners s)) as [hs|] eqn:E; [|reflexivity].
    unfold listeners_of in Hf; rewrite E in Hf; cbn in Hf.
    replace (findIndex _ hs) with (@None nat); [reflexivity|].
    symmetry; apply findIndex_None; intros g Hg.
    rewrite List.Forall_forall in Hf. apply Nat.eqb_neq, Hf, list_elem_of_In, Hg.
  - intros Hf.
    rewrite (Hoff_pre (snd (on ev h s)) (listeners_of ev s) h []).
    + apply app_nil_r.
    + unfold on, listeners_of at 1; cbn; rewrite assoc_get_set_eq; reflexivity.
    + reflexivity.
    + exact Hf.
Qed.

(** A successful [addItem] returns the new item carrying the next generated id, and saves the document with that item appended to the unranked pool, the tiers unchanged, one more item, [updatedAt] set to the clock and [version] increased by one. *)
Theorem addItem_appends_to_pool {St} st_load (st_save : jval -> St -> result unit * St) gen
    (s s' : Svc St) (docId : string) (tl : TierList) ty c md it
    (Hload : st_load (storage s) docId = Some tl)
    (Hok : addItem st_load st_save gen docId ty c md s = (Ok it, s')) :
  it = {| item_id := gen (next_id s); item_type := ty; content := c; item_metadata := md |}
  /\ next_id s' = S (next_id s)
  /\ exists D, st_save (tl_to_jval D) (storage s) = (Ok tt, storage s')
       /\ unrankedItems D = unrankedItems tl ++ [it]
       /\ tiers D = tiers tl
       /\ all_items D = all_items tl ++ [it]
       /\ tl_id D = tl_id tl
       /\ createdAt (metadata D) = createdAt (metadata tl)
       /\ updatedAt (metadata D) = clock s
       /\ version (metadata D) = version (metadata tl) + 1.
Proof.
  unfold addItem in Hok. rewrite (se_bind_ok _ _ _ _ _ (load_or_throw_some st_load docId s tl Hload)) in Hok.
  unfold se_bind at 1, generateId in Hok. unfold se_bind in Hok.
  rewrite updateTierList_eq in Hok. cbn [storage bump_id clock] in Hok.
  set (it0 := {| item_id := gen (next_id s); item_type := ty; content := c;
                 item_metadata := md |}) in Hok.
  set (D := stamp_update (clock s) (set_unranked (unrankedItems tl ++ [it0]) tl)) in Hok.
  destruct (st_save (tl_to_jval D) (storage s)) as [[[]|e] st'] eqn:Hs; [|discriminate].
  destruct (emit "tierListUpdated" (tl_to_jval D) (set_storage st' (bump_id s)))
    as [[[]|e] s2] eqn:He; [|discriminate].
  cbn in Hok. injection Hok as <- <-.
  pose proof (emit_storage "tierListUpdated" (tl_to_jval D) (set_storage st' (bump_id s))) as Hst.
  rewrite He in Hst; cbn in Hst.
  split; [reflexivity|]. split.
  { clear -He. unfold emit in He.
    assert (Hg : forall (s0 : Svc St) hs r s2, run_listeners "tierListUpdated" hs (tl_to_jval D) s0 = (r, s2) ->
                 next_id s2 = next_id s0).
    { intros s0 hs; revert s0; induction hs as [|h hs IH]; intros s0 r s3 H; cbn in H.
      - injection H as _ <-; reflexivity.
      - destruct (h_run h _); [injection H as _ <-; reflexivity|].
        rewrite (IH _ _ _ H); reflexivity. }
    rewrite (Hg _ _ _ _ He). reflexivity. }
  exists D; repeat split; [rewrite Hst; exact Hs|..]; try reflexivity.
  unfold all_items; cbn. rewrite app_assoc; reflexivity.
Qed.

Lemma generateId_eq {St} gen (s : Svc St) :
  generateId gen s = (Ok (gen (next_id s)), bump_id s).
Proof. reflexivity. Qed.

Lemma create_tiers_spec {St} gen labels idx (s : Svc St) :
  exists ts,
    create_tiers gen labels idx s
    = (Ok ts, mkSvc (storage s) (eventListeners s) (called s) (next_id s + length labels)
                    (clock s))
    /\ map tier_id ts = map gen (seq (next_id s) (length labels))
    /\ map label ts = labels
    /\ map color ts = map (fun k => default ""%string (default_colors !! k))
                          (seq idx (length labels))
    /\ map order ts = map Z.of_nat (seq idx (length labels))
    /\ concat (map items ts) = [].
Proof.
  revert idx s; induction labels as [|lb r IH]; intros idx s.
  - exists []; split; [|repeat split].
    destruct s; cbn; rewrite Nat.add_0_r; reflexivity.
  - destruct (IH (S idx) (bump_id s)) as (ts & Hr & Hid & Hlb & Hcol & Hord & Hit).
    eexists; split.
    + cbn [create_tiers]. rewrite (se_bind_ok _ _ _ _ _ (generateId_eq gen s)).
      rewrite (se_bind_ok _ _ _ _ _ Hr). unfold se_ret. cbn [length].
      rewrite Nat.add_succ_r. reflexivity.
    + cbn. rewrite Hid, Hlb, Hcol, Hord, Hit. repeat split.
Qed.

Lemma run_listeners_next_id {St} ev hs data (s : Svc St) :
  next_id (snd (run_listeners ev hs data s)) = next_id s.
Proof.
  revert s; induction hs as [|h hs IH]; intros s; [reflexivity|]; cbn.
  destruct (h_run h data); [reflexivity|]. rewrite IH; reflexivity.
Qed.

(** A successful [createTierList] saves and returns a document with a fresh id, five empty default tiers S, A, B, C, D with the default colors, fresh ids and orders 0 to 4, an empty pool, version 1 and both timestamps the current time; six ids are used. *)
Theorem createTierList_fresh_document {St} (st_save : jval -> St -> result unit * St) gen
    (ttl : string) (desc : option string) (s s' : Svc St) (tl : TierList)
    (Hok : createTierList st_save gen ttl desc s = (Ok tl, s')) :
  tl_id tl = gen (next_id s)
  /\ map tier_id (tiers tl) = map gen (seq (S (next_id s)) 5)
  /\ map label (tiers tl) = default_labels
  /\ map color (tiers tl) = default_colors
  /\ orders_contiguous tl
  /\ all_items tl = []
  /\ title tl = ttl /\ description tl = desc
  /\ createdAt (metadata tl) = clock s /\ updatedAt (metadata tl) = clock s
  /\ version (metadata tl) = 1
  /\ next_id s' = (next_id s + 6)%nat
  /\ st_save (tl_to_jval tl) (storage s) = (Ok tt, storage s').
Proof.
  destruct (create_tiers_spec gen default_labels 0 (bump_id s))
    as (ts & Hct & Hid & Hlb & Hcol & Hord & Hit).
  unfold createTierList, createDefaultTiers in Hok.
  rewrite (se_bind_ok _ _ _ _ _ (generateId_eq gen s)) in Hok.
  rewrite (se_bind_ok _ _ _ _ _ Hct) in Hok.
  unfold se_bind, new_Date, storage_save, se_ret in Hok.
  cbn [storage clock bump_id eventListeners called next_id] in Hok.
  match type of Hok with
  | context [st_save (tl_to_jval ?T) (storage s)] => set (T0 := T) in Hok
  end.
  destruct (st_save (tl_to_jval T0) (storage s)) as [[[]|e] st'] eqn:Hs; [|discriminate].
  match type of Hok with
  | context [emit "tierListCreated" (tl_to_jval T0) ?S0] =>
      pose proof (emit_storage "tierListCreated" (tl_to_jval T0) S0) as Hst;
      pose proof (run_listeners_next_id "tierListCreated"
                    (listeners_of "tierListCreated" S0) (tl_to_jval T0) S0) as Hn;
      destruct (emit "tierListCreated" (tl_to_jval T0) S0) as [[[]|e] s2] eqn:He
  end; [|discriminate].
  injection Hok as <- <-.
  unfold emit in He. try rewrite He in Hn. cbn in Hst, Hn.
  subst T0. unfold orders_contiguous, all_items; cbn [tl_id tiers title description
    metadata createdAt updatedAt version unrankedItems].
  cbn in Hid, Hlb, Hcol, Hord.
  repeat split; try assumption; try reflexivity.
  - rewrite Hord, <- (length_map label), Hlb; reflexivity.
  - rewrite Hit; reflexivity.
  - rewrite Hn; cbn; lia.
  - rewrite Hst; exact Hs.
Qed.

Lemma fold_count_app ts n :
  fold_left (fun count t => (count + length (items t))%nat) ts n
  = (n + length (concat (map items ts)))%nat.
Proof.
  revert n; induction ts as [|t ts IH]; intros n; cbn; [lia|].
  rewrite IH, length_app; lia.
Qed.

Lemma first_image_find l : first_image l = option_map content (List.find is_image l).
Proof. induction l as [|it l IH]; cbn; [reflexivity|]. destruct (is_image it); [reflexivity|exact IH]. Qed.

Lemma find_app {A} (p : A -> bool) l1 l2 :
  List.find p (l1 ++ l2) = match List.find p l1 with Some x => Some x | None => List.find p l2 end.
Proof. induction l1 as [|x l1 IH]; cbn; [reflexivity|]. destruct (p x); [reflexivity|exact IH]. Qed.

Lemma thumbnail_in_tiers_find ts :
  thumbnail_in_tiers ts = option_map content (List.find is_image (concat (map items ts))).
Proof.
  induction ts as [|t ts IH]; cbn; [reflexivity|].
  rewrite find_app, first_image_find, IH.
  destruct (List.find is_image (items t)); reflexivity.
Qed.

(** [toSummary]'s [itemCount] is the number of items of the document and its thumbnail is the content of its first image item (tiers first, then the pool); [moveItem] and [removeTier] keep the count. *)
Theorem toSummary_reads_all_items (tl : TierList) :
  itemCount (toSummary tl) = length (all_items tl)
  /\ thumbnail (toSummary tl) = option_map content (List.find is_image (all_items tl))
  /\ (forall itemId target pos tl', moveItem_body tl itemId target pos = Ok tl' ->
        itemCount (toSummary tl') = itemCount (toSummary tl))
  /\ (forall tierId tl', removeTier_body tl tierId = Ok tl' ->
        itemCount (toSummary tl') = itemCount (toSummary tl)).
Proof.
  assert (Hc : forall tl0, itemCount (toSummary tl0) = length (all_items tl0)).
  { intros tl0; cbn; rewrite fold_count_app; unfold all_items; rewrite length_app; lia. }
  split; [apply Hc|split; [|split]].
  - cbn; unfold generateThumbnail, all_items.
    rewrite thumbnail_in_tiers_find, find_app, first_image_find.
    destruct (List.find is_image (concat (map items (tiers tl)))); reflexivity.
  - intros itemId target pos tl' H. rewrite !Hc.
    apply Permutation_length, (proj1 (moveItem_body_Ok _ _ _ _ _ H)).
  - intros tierId tl' H. rewrite !Hc.
    destruct (findIndex (has_tier_id tierId) (tiers tl)) as [i|] eqn:F;
      [|unfold removeTier_body in H; rewrite F in H; discriminate].
    destruct (tiers tl !! i) as [t|] eqn:Ht;
      [|unfold removeTier_body in H; rewrite F, Ht in H; discriminate].
    rewrite (removeTier_body_found _ _ _ _ F Ht) in H. injection H as <-.
    apply Permutation_length, (removeTier_result_items _ _ _ Ht).
Qed.


(** ** validateAndMigrateData *)

(** [validateAndMigrateData] keeps exactly the stored documents that pass [validateTierList], with their dates revived, under the same ids, and drops the others. *)
Theorem validateAndMigrateData_tierLists dp (okvs kvs : list (string * jval)) (k : string)
    (Htl : assoc_get "tierLists" okvs = Some (JObj kvs))
    (Hnd : NoDup (keys kvs)) :
  assoc_get k (ld_tierLists (validateAndMigrateData dp (JObj okvs)))
  = match assoc_get k kvs with
    | Some x => if validateTierList x then Some (parseDates dp x) else None
    | None => None
    end.
Proof.
  unfold validateAndMigrateData; cbn [truthy is_object negb orb ld_tierLists get_prop].
  rewrite Htl; cbn [truthy is_object andb entries].
  rewrite fold_valid_get by exact Hnd.
  destruct (assoc_get k kvs) as [x|]; [destruct (validateTierList x)|]; reflexivity.
Qed.

(** ** Association lists written key by key *)

Lemma assoc_set_app_notin {A} k (v : A) pre l :
  k ∉ keys pre -> assoc_set k v (pre ++ l) = pre ++ assoc_set k v l.
Proof.
  unfold keys; induction pre as [|[k' v'] pre IH]; intros Hn; cbn; [reflexivity|].
  cbn in Hn; rewrite elem_of_cons in Hn.
  destruct (String.eqb k k') eqn:E; [apply String.eqb_eq in E; intuition|].
  rewrite IH by intuition; reflexivity.
Qed.

Lemma fold_set_get {A B} (g : string -> B -> A) j (l : list (string * B)) acc :
  NoDup (keys l) ->
  assoc_get j (fold_left (fun acc kv => assoc_set (fst kv) (g (fst kv) (snd kv)) acc) l acc)
  = match assoc_get j l with Some x => Some (g j x) | None => assoc_get j acc end.
Proof.
  unfold keys; revert acc; induction l as [|[k x] l IH]; intros acc Hnd; cbn; [reflexivity|].
  cbn in Hnd; apply NoDup_cons in Hnd as [Hn Hnd].
  rewrite (IH _ Hnd).
  destruct (String.eqb j k) eqn:E.
  - apply String.eqb_eq in E; subst k.
    rewrite assoc_get_None by exact Hn. apply assoc_get_set_eq.
  - apply String.eqb_neq in E.
    destruct (assoc_get j l); [reflexivity|]. apply assoc_get_set_ne; exact E.
Qed.

Lemma fold_set_keys {A B} (g : string -> B -> A) (l : list (string * B)) acc :
  (exists ext, keys (fold_left (fun acc kv => assoc_set (fst kv) (g (fst kv) (snd kv)) acc) l acc)
               = keys acc ++ ext)
  /\ (NoDup (keys acc) ->
      NoDup (keys (fold_left (fun acc kv => assoc_set (fst kv) (g (fst kv) (snd kv)) acc) l acc))).
Proof.
  revert acc; induction l as [|[k x] l IH]; intros acc; cbn [fold_left fst snd].
  - split; [exists []; symmetry; apply app_nil_r|exact id].
  - destruct (IH (assoc_set k (g k x) acc)) as [[ext He] Hn]. split.
    + rewrite He, keys_assoc_set.
      destruct (bool_decide (k ∈ keys acc)); [eauto|].
      exists ([k] ++ ext); rewrite app_assoc; reflexivity.
    + intros H; apply Hn, NoDup_keys_assoc_set, H.
Qed.

Lemma fold_set_prefix (b : list (string * jval)) :
  forall pre a', NoDup (keys (pre ++ b)) -> keys a' = take (length a') (keys b) ->
  fold_left (fun acc kv => assoc_set (fst kv) (snd kv) acc) b (pre ++ a') = pre ++ b.
Proof.
  unfold keys; induction b as [|[k v] b IH]; intros pre a' Hnd Hk; cbn.
  - destruct a'; [reflexivity|discriminate].
  - rewrite map_app in Hnd; cbn in Hnd.
    assert (Hkp : k ∉ map fst pre).
    { intros Hin. apply NoDup_app in Hnd as (_ & Hdis & _).
      apply (Hdis k Hin), list_elem_of_here. }
    rewrite assoc_set_app_notin by exact Hkp.
    assert (Hnd' : NoDup (map fst ((pre ++ [(k, v)]) ++ b))).
    { rewrite <- app_assoc, map_app; exact Hnd. }
    destruct a' as [|[k' w] a''].
    + cbn. replace (pre ++ [(k, v)]) with ((pre ++ [(k, v)]) ++ []) by apply app_nil_r.
      rewrite (IH (pre ++ [(k, v)]) [] Hnd' eq_refl), <- app_assoc; reflexivity.
    + cbn in Hk. injection Hk as -> Hk.
      cbn; rewrite String.eqb_refl.
      replace (pre ++ (k, v) :: a'') with ((pre ++ [(k, v)]) ++ a'')
        by (rewrite <- app_assoc; reflexivity).
      rewrite (IH (pre ++ [(k, v)]) a'' Hnd' Hk), <- app_assoc; reflexivity.
Qed.

(** ** The configuration manager *)


Ltac nodup_strings :=
  cbn; repeat (apply NoDup_cons; split;
               [rewrite list_elem_of_In; cbn; intuition discriminate|]);
  apply NoDup_nil_2.

Lemma take3_app (l ext : list string) :
  take 3 l = ["storage"; "features"; "ui"]%string ->
  take 3 (l ++ ext) = ["storage"; "features"; "ui"]%string.
Proof. destruct l as [|a [|b [|c l]]]; intros H; try discriminate; exact H. Qed.

Lemma spread_into_keys acc v :
  (exists ext, keys (spread_into acc v) = keys acc ++ ext)
  /\ (NoDup (keys acc) -> NoDup (keys (spread_into acc v))).
Proof. exact (fold_set_keys (fun _ x => x) (spread_entries v) acc). Qed.

Lemma spread_into_get j acc kvs :
  NoDup (keys kvs) ->
  assoc_get j (spread_into acc (JObj kvs))
  = match assoc_get j kvs with Some x => Some x | None => assoc_get j acc end.
Proof. exact (fold_set_get (fun _ x => x) j kvs acc). Qed.

Lemma spread_into_obj kvs : NoDup (keys kvs) -> spread_into [] (JObj kvs) = kvs.
Proof. intros H. exact (fold_set_prefix kvs [] [] H eq_refl). Qed.

Lemma default_entries :
  spread_into [] getDefaultConfig = entries getDefaultConfig.
Proof. reflexivity. Qed.

Lemma config_shaped_default : config_shaped getDefaultConfig.
Proof.
  eexists; split; [reflexivity|]. split; [|reflexivity].
  nodup_strings.
Qed.

Lemma spread_default_shaped v : config_shaped (JObj (spread_into (spread_into [] getDefaultConfig) v)).
Proof.
  destruct (spread_into_keys (spread_into [] getDefaultConfig) v) as [[ext He] Hn].
  eexists; split; [reflexivity|]. split.
  - apply Hn. rewrite default_entries. nodup_strings.
  - rewrite He, default_entries. apply take3_app; reflexivity.
Qed.

Lemma spread_default_into kvs :
  NoDup (keys kvs) -> take 3 (keys kvs) = ["storage"; "features"; "ui"]%string ->
  spread_into (spread_into [] getDefaultConfig) (JObj kvs) = kvs.
Proof.
  intros Hnd Hk. rewrite default_entries.
  exact (fold_set_prefix kvs [] (entries getDefaultConfig) Hnd (eq_sym Hk)).
Qed.

Lemma mergeConfig_shaped current updates :
  config_shaped current -> config_shaped (mergeConfig current updates).
Proof.
  intros (ckvs & -> & Hnd & Hk). unfold mergeConfig.
  rewrite spread_into_obj by exact Hnd.
  destruct (fold_set_keys (merge_value (JObj ckvs)) (spread_entries updates) ckvs)
    as [[ext He] Hn].
  eexists; split; [reflexivity|]. split; [exact (Hn Hnd)|].
  rewrite He; apply take3_app, Hk.
Qed.

Lemma config_key_not_probe : CONFIG_KEY <> test_key.
Proof. discriminate. Qed.

Lemma getConfig_state parse (m : Medium) :
  snd (getConfig parse m) = if probe_ok m then probed m else m.
Proof.
  unfold getConfig, se_catch, se_bind. rewrite isLocalStorageAvailable_eq.
  destruct (probe_ok m); cbn; [|reflexivity].
  destruct (_ !! CONFIG_KEY) as [s|]; cbn; [|reflexivity].
  destruct (String.eqb s ""); [reflexivity|].
  destruct (parse s); reflexivity.
Qed.

Lemma getConfig_value parse (m : Medium) :
  fst (getConfig parse m)
  = if probe_ok m then
      match ls_items m !! CONFIG_KEY with
      | Some s =>
          if String.eqb s "" then Ok getDefaultConfig else
          match parse s with
          | inl _ => Ok getDefaultConfig
          | inr p => Ok (JObj (spread_into (spread_into [] getDefaultConfig) p))
          end
      | None => Ok getDefaultConfig
      end
    else Ok getDefaultConfig.
Proof.
  unfold getConfig, se_catch, se_bind. rewrite isLocalStorageAvailable_eq.
  destruct (probe_ok m); cbn; [|reflexivity].
  rewrite lookup_delete_ne by (intros H; apply config_key_not_probe; symmetry; exact H).
  destruct (ls_items m !! CONFIG_KEY) as [s|]; cbn; [|reflexivity].
  destruct (String.eqb s ""); [reflexivity|].
  destruct (parse s); reflexivity.
Qed.

Lemma getConfig_probed parse (m : Medium) :
  fst (getConfig parse (probed m)) = fst (getConfig parse m).
Proof.
  rewrite !getConfig_value, probe_ok_probed. cbn [probed with_items ls_items].
  rewrite lookup_delete_ne by (intros H; apply config_key_not_probe; symmetry; exact H).
  reflexivity.
Qed.

Lemma getConfig_result parse (m : Medium) :
  exists c, getConfig parse m = (Ok c, if probe_ok m then probed m else m)
            /\ config_shaped c.
Proof.
  pose proof (getConfig_value parse m) as Hv. pose proof (getConfig_state parse m) as Hs.
  destruct (getConfig parse m) as [r m1]; cbn in Hv, Hs; subst m1.
  destruct (probe_ok m); [|subst r; eauto using config_shaped_default].
  destruct (ls_items m !! CONFIG_KEY) as [s|]; [|subst r; eauto using config_shaped_default].
  destruct (String.eqb s ""); [subst r; eauto using config_shaped_default|].
  destruct (parse s); subst r; eauto using config_shaped_default, spread_default_shaped.
Qed.

Lemma get_prop_spread_default k p :
  NoDup (keys (spread_entries p)) ->
  get_prop k (JObj (spread_into (spread_into [] getDefaultConfig) p))
  = match assoc_get k (spread_entries p) with
    | Some x => Some x
    | None => get_prop k getDefaultConfig
    end.
Proof.
  intros Hnd. unfold spread_into at 1. cbn [get_prop].
  rewrite (fold_set_get (fun _ x => x) k (spread_entries p) _ Hnd).
  reflexivity.
Qed.

(** [getConfig] never throws, and it leaves the medium as the availability probe does.  It returns the defaults when the availability check fails or the stored text is missing, empty or not JSON; otherwise it returns the defaults with the parsed value's own properties written over them: a property of the parsed value wins, every other key keeps its default. *)
Theorem getConfig_always_config parse (m : Medium) :
  (exists c, getConfig parse m = (Ok c, if probe_ok m then probed m else m))
  /\ (fst (isLocalStorageAvailable m) = Ok false
      \/ ls_items m !! CONFIG_KEY = None
      \/ ls_items m !! CONFIG_KEY = Some ""%string
      \/ (exists s e, ls_items m !! CONFIG_KEY = Some s /\ parse s = inl e) ->
      fst (getConfig parse m) = Ok getDefaultConfig)
  /\ (forall s p, fst (isLocalStorageAvailable m) = Ok true ->
        ls_items m !! CONFIG_KEY = Some s -> s <> ""%string -> parse s = inr p ->
        NoDup (keys (spread_entries p)) ->
        exists c, fst (getConfig parse m) = Ok c
          /\ forall k, get_prop k c = match assoc_get k (spread_entries p) with
                                     | Some x => Some x
                                     | None => get_prop k getDefaultConfig
                                     end).
Proof.
  split; [|split].
  - destruct (getConfig_result parse m) as (c & Hc & _); eauto.
  - intros H. rewrite getConfig_value.
    rewrite isLocalStorageAvailable_eq in H.
    destruct (probe_ok m); [|reflexivity].
    destruct H as [H|[Hn|[He|(s & e & Hs & Hp)]]].
    + discriminate.
    + rewrite Hn; reflexivity.
    + rewrite He; reflexivity.
    + rewrite Hs. destruct (String.eqb s ""); [reflexivity|]. rewrite Hp; reflexivity.
  - intros s p Ha Hs Hne Hp Hnd.
    apply isLocalStorageAvailable_true in Ha.
    rewrite getConfig_value, Ha, Hs.
    apply String.eqb_neq in Hne. rewrite Hne, Hp.
    eexists; split; [reflexivity|]. intros k. apply get_prop_spread_default, Hnd.
Qed.

Lemma getConfig_reads_written parse (m : Medium) (c : jval) :
  probe_ok m = true -> ls_items m !! CONFIG_KEY = Some (stringify c) ->
  config_shaped c -> parse (stringify c) = inr c ->
  fst (getConfig parse m) = Ok c.
Proof.
  intros Ha Hi (kvs & -> & Hnd & Hk) Hp.
  rewrite getConfig_value, Ha, Hi.
  destruct (String.eqb (stringify (JObj kvs)) "") eqn:E;
    [apply String.eqb_eq, stringify_obj_ne in E; contradiction|].
  rewrite Hp, spread_default_into by assumption. reflexivity.
Qed.

Lemma updateConfig_eq parse u (m : Medium) c0 :
  getConfig parse m = (Ok c0, if probe_ok m then probed m else m) ->
  updateConfig parse u m
  = (Ok (mergeConfig c0 u),
     if probe_ok m then
       if ls_fits m (<[CONFIG_KEY := stringify (mergeConfig c0 u)]> (ls_items (probed m)))
       then with_items m (<[CONFIG_KEY := stringify (mergeConfig c0 u)]> (ls_items (probed m)))
       else probed m
     else m).
Proof.
  intros Hg. unfold updateConfig. rewrite (se_bind_ok _ _ _ _ _ Hg).
  unfold se_bind, se_catch.
  destruct (probe_ok m) eqn:E.
  - rewrite isLocalStorageAvailable_eq, probe_ok_probed, E, probed_idem. cbn.
    unfold setItem. cbn [probed with_items ls_fits ls_items].
    destruct (ls_fits m _); reflexivity.
  - rewrite isLocalStorageAvailable_eq, E. reflexivity.
Qed.

Lemma resetConfig_eq (m : Medium) :
  resetConfig m
  = (Ok getDefaultConfig,
     if probe_ok m then
       if ls_fits m (<[CONFIG_KEY := stringify getDefaultConfig]> (ls_items (probed m)))
       then with_items m (<[CONFIG_KEY := stringify getDefaultConfig]> (ls_items (probed m)))
       else probed m
     else m).
Proof.
  unfold resetConfig, se_bind, se_catch.
  rewrite isLocalStorageAvailable_eq.
  destruct (probe_ok m) eqn:E; [|reflexivity]. cbn.
  unfold setItem. cbn [probed with_items ls_fits ls_items].
  destruct (ls_fits m _); reflexivity.
Qed.

(** [updateConfig(u)] returns the current configuration merged with [u]; it stores it only when the availability check passes and the browser admits the write.  A refused write is swallowed: the medium is left as the probe leaves it, and a later [getConfig] still returns the old configuration.  When the write happened and the next [getConfig]'s probe succeeds, [getConfig] returns what [updateConfig] returned, when its JSON text parses back to it.  [resetConfig] returns the defaults and stores them under the same conditions. *)
Theorem config_write_then_read parse (m : Medium) (u c0 : jval)
    (Hc0 : fst (getConfig parse m) = Ok c0) :
  let c := mergeConfig c0 u in
  let written := <[CONFIG_KEY := stringify c]> (ls_items (probed m)) in
  updateConfig parse u m
  = (Ok c, if probe_ok m then if ls_fits m written then with_items m written else probed m
           else m)
  /\ (probe_ok m = true -> ls_fits m written = true ->
      fst (isLocalStorageAvailable (with_items m written)) = Ok true ->
      parse (stringify c) = inr c ->
      fst (getConfig parse (with_items m written)) = Ok c)
  /\ (probe_ok m = false \/ ls_fits m written = false ->
      fst (getConfig parse (snd (updateConfig parse u m))) = Ok c0)
  /\ resetConfig m
     = (Ok getDefaultConfig,
        if probe_ok m then
          if ls_fits m (<[CONFIG_KEY := stringify getDefaultConfig]> (ls_items (probed m)))
          then with_items m (<[CONFIG_KEY := stringify getDefaultConfig]> (ls_items (probed m)))
          else probed m
        else m).
Proof.
  destruct (getConfig_result parse m) as (c1 & Hg & Hs1).
  rewrite Hg in Hc0; cbn in Hc0; injection Hc0 as ->.
  pose proof (updateConfig_eq parse u m c0 Hg) as Hu.
  intros c written. split; [exact Hu|]. split; [|split; [|apply resetConfig_eq]].
  - intros _ _ Hprobe Hp. apply isLocalStorageAvailable_true in Hprobe.
    apply getConfig_reads_written; [exact Hprobe| |apply mergeConfig_shaped, Hs1|exact Hp].
    cbn [with_items ls_items]. apply lookup_insert_eq.
  - intros H. rewrite Hu; cbn [snd].
    destruct (probe_ok m) eqn:E.
    + destruct H as [H|H]; [discriminate|]. subst written c. rewrite H.
      rewrite getConfig_probed, Hg. reflexivity.
    + rewrite Hg. reflexivity.
Qed.

Lemma updateConfig_ok parse u (m : Medium) :
  exists c m', updateConfig parse u m = (Ok c, m').
Proof.
  destruct (getConfig_result parse m) as (c0 & Hg & _).
  rewrite (updateConfig_eq parse u m c0 Hg). eauto.
Qed.

(** [importConfig] of text that is not JSON, or of a value [validateConfig] rejects, throws ['Failed to import configuration: '] followed by the reason and leaves the medium unchanged; otherwise it is [updateConfig] of the parsed value. *)
Theorem importConfig_outcomes parse (jsonData : string) (m : Medium) :
  (forall e, parse jsonData = inl e ->
     importConfig parse jsonData m = (Err ("Failed to import configuration: " ++ e)%string, m))
  /\ (forall v, parse jsonData = inr v -> validateConfig v = false ->
     importConfig parse jsonData m
     = (Err "Failed to import configuration: Invalid configuration format"%string, m))
  /\ (forall v, parse jsonData = inr v -> validateConfig v = true ->
     importConfig parse jsonData m = updateConfig parse v m).
Proof.
  unfold importConfig, se_catch, se_lift.
  split; [|split]; intros * Hp; rewrite Hp; [reflexivity| |].
  - intros Hv. rewrite (se_bind_ok _ _ m v m eq_refl), Hv. reflexivity.
  - intros Hv. rewrite (se_bind_ok _ _ m v m eq_refl), Hv. cbn [negb].
    destruct (updateConfig_ok parse v m) as (c & m1 & ->); reflexivity.
Qed.

(** [mergeConfig] keeps the current value of a key the updates do not mention, replaces it by a non-object update, and merges an object update into the current object one level deep, keeping the sub-keys the update does not mention. *)
Theorem mergeConfig_deep_merge (ckvs ukvs : list (string * jval)) (k : string)
    (Hc : NoDup (keys ckvs)) (Hu : NoDup (keys ukvs)) :
  (assoc_get k ukvs = None ->
     get_prop k (mergeConfig (JObj ckvs) (JObj ukvs)) = assoc_get k ckvs)
  /\ (forall v, assoc_get k ukvs = Some v ->
       match v with JObj _ | JDate _ => False | _ => True end ->
       get_prop k (mergeConfig (JObj ckvs) (JObj ukvs)) = Some v)
  /\ (forall sub, assoc_get k ukvs = Some (JObj sub) -> NoDup (keys sub) ->
       (forall cs, assoc_get k ckvs = Some (JObj cs) -> NoDup (keys cs) ->
          exists r, get_prop k (mergeConfig (JObj ckvs) (JObj ukvs)) = Some (JObj r)
            /\ forall j, assoc_get j r
                         = match assoc_get j sub with Some x => Some x | None => assoc_get j cs end)
       /\ (assoc_get k ckvs = None ->
           get_prop k (mergeConfig (JObj ckvs) (JObj ukvs)) = Some (JObj sub))).
Proof.
  assert (Hm : get_prop k (mergeConfig (JObj ckvs) (JObj ukvs))
               = match assoc_get k ukvs with
                 | Some x => Some (merge_value (JObj ckvs) k x)
                 | None => assoc_get k ckvs
                 end).
  { unfold mergeConfig, get_prop. rewrite (spread_into_obj ckvs Hc).
    exact (fold_set_get (merge_value (JObj ckvs)) k ukvs ckvs Hu). }
  rewrite Hm. split; [|split].
  - intros ->; reflexivity.
  - intros v -> Hv. destruct v; try contradiction; reflexivity.
  - intros sub -> Hs. split.
    + intros cs Hcs Hcsn. cbn [merge_value get_prop]. rewrite Hcs; cbn [from_option id].
      rewrite (spread_into_obj cs Hcsn).
      eexists; split; [reflexivity|]. intros j. apply spread_into_get, Hs.
    + intros Hn. cbn [merge_value get_prop]. rewrite Hn; cbn [from_option id].
      f_equal; f_equal. exact (spread_into_obj sub Hs).
Qed.

Lemma mergeConfig_get (ckvs ukvs : list (string * jval)) k :
  NoDup (keys ckvs) -> NoDup (keys ukvs) ->
  get_prop k (mergeConfig (JObj ckvs) (JObj ukvs))
  = match assoc_get k ukvs with
    | Some x => Some (merge_value (JObj ckvs) k x)
    | None => assoc_get k ckvs
    end.
Proof.
  intros Hc Hu. unfold mergeConfig, get_prop. rewrite (spread_into_obj ckvs Hc).
  exact (fold_set_get (merge_value (JObj ckvs)) k ukvs ckvs Hu).
Qed.

Lemma getStorageConfig_fst parse (m : Medium) :
  fst (getStorageConfig parse m)
  = match fst (getConfig parse m) with Ok c => Ok (get_prop "storage" c) | Err e => Err e end.
Proof. unfold getStorageConfig, se_bind. destruct (getConfig parse m) as [[c|e] m1]; reflexivity. Qed.

(** After [updateStorageConfig(sc)], when the new configuration was stored and the next [getConfig]'s availability probe succeeds, [getStorageConfig] returns the old storage configuration with the properties of [sc] written over it, the old properties [sc] does not mention being kept (provided the stored JSON text parses back); when it was not stored (storage unavailable, or the write refused and swallowed), [getStorageConfig] still returns the old storage configuration. *)
Theorem updateStorageConfig_merges parse (m : Medium) (scs cs : list (string * jval))
    (Hold : fst (getStorageConfig parse m) = Ok (Some (JObj cs)))
    (Hcs : NoDup (keys cs)) (Hscs : NoDup (keys scs)) :
  exists c, fst (updateStorageConfig parse (JObj scs) m) = Ok c
  /\ (let m' := snd (updateStorageConfig parse (JObj scs) m) in
      ls_items m' !! CONFIG_KEY = Some (stringify c) ->
      fst (isLocalStorageAvailable m') = Ok true -> parse (stringify c) = inr c ->
      exists r, fst (getStorageConfig parse m') = Ok (Some (JObj r))
        /\ forall j, assoc_get j r
                     = match assoc_get j scs with Some x => Some x | None => assoc_get j cs end)
  /\ (let m' := snd (updateStorageConfig parse (JObj scs) m) in
      ls_items m' !! CONFIG_KEY <> Some (stringify c) ->
      fst (getStorageConfig parse m') = Ok (Some (JObj cs))).
Proof.
  destruct (getConfig_result parse m) as (c0 & Hg & Hs0).
  pose proof Hold as Hold0.
  rewrite getStorageConfig_fst, Hg in Hold. cbn in Hold. injection Hold as Hold.
  pose proof (updateConfig_eq parse (JObj [("storage", JObj scs)]) m c0 Hg) as Hu.
  unfold updateStorageConfig. rewrite Hu. cbn [fst snd].
  exists (mergeConfig c0 (JObj [("storage", JObj scs)])). split; [reflexivity|]. split.
  - intros Hi Hprobe Hp.
    match type of Hi with ls_items ?M !! _ = _ => set (m' := M) in * end.
    apply isLocalStorageAvailable_true in Hprobe.
    assert (Hr : fst (getConfig parse m') = Ok (mergeConfig c0 (JObj [("storage", JObj scs)])))
      by (apply getConfig_reads_written; [exact Hprobe|exact Hi|apply mergeConfig_shaped, Hs0|exact Hp]).
    rewrite (getStorageConfig_fst parse m'), Hr.
    destruct Hs0 as (ckvs & -> & Hnd & _).
    rewrite mergeConfig_get by (first [exact Hnd | nodup_strings]).
    cbn [assoc_get String.eqb Ascii.eqb Bool.eqb]. cbn in Hold.
    eexists; split; [reflexivity|].
    intros j. cbn [merge_value get_prop]. rewrite Hold. cbn [from_option id].
    rewrite (spread_into_obj cs Hcs). apply spread_into_get, Hscs.
  - intros Hn.
    destruct (probe_ok m) eqn:E; [|exact Hold0].
    destruct (ls_fits m _).
    + exfalso; apply Hn. cbn [with_items ls_items]. apply lookup_insert_eq.
    + rewrite getStorageConfig_fst, getConfig_probed, <- getStorageConfig_fst. exact Hold0.
Qed.


Lemma lsp_save_then_load_witness :
  STORAGE_KEY cfg_default <> VERSION_KEY cfg_default
  /\ STORAGE_KEY cfg_default <> test_key
  /\ fst (loadAllData json_parse date_parse_iso cfg_default medium_empty) = Ok createEmptyData
  /\ lsp_save json_parse date_parse_iso cfg_default 5 (tl_to_jval doc_movies) medium_empty
     = (Ok tt, snd (lsp_save json_parse date_parse_iso cfg_default 5 (tl_to_jval doc_movies) medium_empty))
  /\ json_parse (stringify (ld_to_jval (upsert 5 (tl_to_jval doc_movies) createEmptyData)))
     = inr (json_erase (ld_to_jval (upsert 5 (tl_to_jval doc_movies) createEmptyData)))
  /\ validateTierList (json_erase (stamped 5 (tl_to_jval doc_movies))) = true
  /\ fst (isLocalStorageAvailable
           (snd (lsp_save json_parse date_parse_iso cfg_default 5 (tl_to_jval doc_movies) medium_empty)))
     = Ok true
  /\ fst (lsp_load json_parse date_parse_iso cfg_default (doc_key (tl_to_jval doc_movies))
            (snd (lsp_save json_parse date_parse_iso cfg_default 5 (tl_to_jval doc_movies) medium_empty)))
     = Ok (Some (parseDates date_parse_iso (json_erase (stamped 5 (tl_to_jval doc_movies))))).
Proof.
  assert (H1 : STORAGE_KEY cfg_default <> VERSION_KEY cfg_default) by discriminate.
  assert (H2 : STORAGE_KEY cfg_default <> test_key) by discriminate.
  assert (H3 : fst (loadAllData json_parse date_parse_iso cfg_default medium_empty)
               = Ok createEmptyData) by (vm_compute; reflexivity).
  assert (H4 : lsp_save json_parse date_parse_iso cfg_default 5 (tl_to_jval doc_movies) medium_empty
     = (Ok tt, snd (lsp_save json_parse date_parse_iso cfg_default 5 (tl_to_jval doc_movies) medium_empty)))
    by (vm_compute; reflexivity).
  assert (H5 : json_parse (stringify (ld_to_jval (upsert 5 (tl_to_jval doc_movies) createEmptyData)))
     = inr (json_erase (ld_to_jval (upsert 5 (tl_to_jval doc_movies) createEmptyData))))
    by (vm_compute; reflexivity).
  assert (H6 : validateTierList (json_erase (stamped 5 (tl_to_jval doc_movies))) = true)
    by (vm_compute; reflexivity).
  assert (H7 : fst (isLocalStorageAvailable
           (snd (lsp_save json_parse date_parse_iso cfg_default 5 (tl_to_jval doc_movies) medium_empty)))
     = Ok true) by (vm_compute; reflexivity).
  repeat (split; [assumption|]).
  exact (proj1 (lsp_save_then_load json_parse date_parse_iso cfg_default 5 (tl_to_jval doc_movies)
                  medium_empty _ createEmptyData H1 H2 H3 H4 H5 H6) H7).
Defined.

Lemma lsp_delete_then_load_witness :
  let data := match fst (loadAllData json_parse date_parse_iso cfg_default medium_one_doc) with
              | Ok d => d | Err _ => createEmptyData end in
  STORAGE_KEY cfg_default <> VERSION_KEY cfg_default
  /\ STORAGE_KEY cfg_default <> test_key
  /\ fst (loadAllData json_parse date_parse_iso cfg_default medium_one_doc) = Ok data
  /\ assoc_get "d1" (ld_tierLists data) <> None
  /\ lsp_delete json_parse date_parse_iso cfg_default "d1" medium_one_doc
     = (Ok tt, snd (lsp_delete json_parse date_parse_iso cfg_default "d1" medium_one_doc))
  /\ json_parse (stringify (ld_to_jval (delete_doc "d1" data)))
     = inr (json_erase (ld_to_jval (delete_doc "d1" data)))
  /\ fst (lsp_load json_parse date_parse_iso cfg_default "d1"
            (snd (lsp_delete json_parse date_parse_iso cfg_default "d1" medium_one_doc)))
     = Ok None.
Proof.
  intros data.
  assert (H1 : STORAGE_KEY cfg_default <> VERSION_KEY cfg_default) by discriminate.
  assert (H2 : STORAGE_KEY cfg_default <> test_key) by discriminate.
  assert (H3 : fst (loadAllData json_parse date_parse_iso cfg_default medium_one_doc) = Ok data)
    by (vm_compute; reflexivity).
  assert (H3' : assoc_get "d1" (ld_tierLists data) <> None) by (vm_compute; discriminate).
  assert (H4 : lsp_delete json_parse date_parse_iso cfg_default "d1" medium_one_doc
     = (Ok tt, snd (lsp_delete json_parse date_parse_iso cfg_default "d1" medium_one_doc)))
    by (vm_compute; reflexivity).
  assert (H5 : json_parse (stringify (ld_to_jval (delete_doc "d1" data)))
     = inr (json_erase (ld_to_jval (delete_doc "d1" data)))) by (vm_compute; reflexivity).
  repeat (split; [assumption|]).
  exact (lsp_delete_then_load json_parse date_parse_iso cfg_default "d1" medium_one_doc _
           data H1 H2 H3 H4 H5).
Defined.


Lemma loadAllData_falls_back_witness :
  (exists s e, delete test_key (ls_items medium_garbled) !! STORAGE_KEY cfg_default = Some s
               /\ json_parse s = inl e)
  /\ fst (loadAllData json_parse date_parse_iso cfg_default medium_garbled) = Ok createEmptyData.
Proof.
  assert (H : exists s e, delete test_key (ls_items medium_garbled) !! STORAGE_KEY cfg_default
                          = Some s /\ json_parse s = inl e).
  { do 2 eexists; split; vm_compute; reflexivity. }
  split; [exact H|].
  apply (proj2 (loadAllData_falls_back json_parse date_parse_iso cfg_default medium_garbled)).
  right; right; right; exact H.
Defined.

Lemma save_over_unreadable_blob_witness :
  STORAGE_KEY cfg_default <> VERSION_KEY cfg_default
  /\ STORAGE_KEY cfg_default <> test_key
  /\ ls_items medium_garbled !! STORAGE_KEY cfg_default = Some "{oops"%string
  /\ json_parse "{oops" = inl (match json_parse "{oops" with inl e => e | inr _ => ""%string end)
  /\ lsp_save json_parse date_parse_iso cfg_default 5 (tl_to_jval doc_movies) medium_garbled
     = (Ok tt, snd (lsp_save json_parse date_parse_iso cfg_default 5 (tl_to_jval doc_movies)
                     medium_garbled))
  /\ ls_items (snd (lsp_save json_parse date_parse_iso cfg_default 5 (tl_to_jval doc_movies)
                       medium_garbled)) !! STORAGE_KEY cfg_default
     = Some (stringify (ld_to_jval (upsert 5 (tl_to_jval doc_movies) createEmptyData))).
Proof.
  assert (H1 : STORAGE_KEY cfg_default <> VERSION_KEY cfg_default) by discriminate.
  assert (H2 : STORAGE_KEY cfg_default <> test_key) by discriminate.
  assert (H3 : ls_items medium_garbled !! STORAGE_KEY cfg_default = Some "{oops"%string)
    by (vm_compute; reflexivity).
  assert (H4 : json_parse "{oops"
               = inl (match json_parse "{oops" with inl e => e | inr _ => ""%string end))
    by (vm_compute; reflexivity).
  assert (H5 : lsp_save json_parse date_parse_iso cfg_default 5 (tl_to_jval doc_movies)
                 medium_garbled
     = (Ok tt, snd (lsp_save json_parse date_parse_iso cfg_default 5 (tl_to_jval doc_movies)
                     medium_garbled))) by (vm_compute; reflexivity).
  repeat (split; [assumption|]).
  exact (save_over_unreadable_blob json_parse date_parse_iso cfg_default 5 (tl_to_jval doc_movies)
           medium_garbled _ _ _ H1 H2 H3 H4 H5).
Defined.


Lemma probe_key_as_storage_key_witness :
  STORAGE_KEY cfg_probe_key = test_key
  /\ fst (lsp_load json_parse date_parse_iso cfg_probe_key "d1"
         {| ls_available := true; ls_items := {[ test_key := blob_one_doc ]}; ls_fits := no_quota |}) = Ok None.
Proof.
  assert (H : STORAGE_KEY cfg_probe_key = test_key) by reflexivity.
  split; [exact H|].
  exact (proj2 (probe_key_as_storage_key json_parse date_parse_iso cfg_probe_key
                  {| ls_available := true; ls_items := {[ test_key := blob_one_doc ]}; ls_fits := no_quota |} H) "d1").
Defined.

Lemma lsp_saveMultiple_upserts_in_order_witness :
  STORAGE_KEY cfg_default <> VERSION_KEY cfg_default
  /\ fst (loadAllData json_parse date_parse_iso cfg_default medium_empty) = Ok createEmptyData
  /\ lsp_saveMultiple json_parse date_parse_iso cfg_default 5
       [tl_to_jval doc_movies; tl_to_jval doc_movies] medium_empty
     = (Ok tt, snd (lsp_saveMultiple json_parse date_parse_iso cfg_default 5
                      [tl_to_jval doc_movies; tl_to_jval doc_movies] medium_empty))
  /\ lsp_saveMultiple json_parse date_parse_iso cfg_default 5 [tl_to_jval doc_movies] medium_empty
     = lsp_save json_parse date_parse_iso cfg_default 5 (tl_to_jval doc_movies) medium_empty.
Proof.
  assert (H1 : STORAGE_KEY cfg_default <> VERSION_KEY cfg_default) by discriminate.
  assert (H2 : fst (loadAllData json_parse date_parse_iso cfg_default medium_empty)
               = Ok createEmptyData) by (vm_compute; reflexivity).
  assert (H3 : lsp_saveMultiple json_parse date_parse_iso cfg_default 5
       [tl_to_jval doc_movies; tl_to_jval doc_movies] medium_empty
     = (Ok tt, snd (lsp_saveMultiple json_parse date_parse_iso cfg_default 5
                      [tl_to_jval doc_movies; tl_to_jval doc_movies] medium_empty)))
    by (vm_compute; reflexivity).
  repeat (split; [assumption|]).
  exact (proj1 (proj2 (lsp_saveMultiple_upserts_in_order json_parse date_parse_iso cfg_default 5
           _ medium_empty _ createEmptyData H1 H2 H3)) (tl_to_jval doc_movies)).
Defined.

Lemma tier_orders_stay_positions_witness :
  orders_contiguous doc_movies
  /\ moveItem_body doc_movies "b" (Some "t1"%string) 0
     = Ok (match moveItem_body doc_movies "b" (Some "t1"%string) 0 with
           | Ok t => t | Err _ => doc_movies end)
  /\ orders_contiguous (match moveItem_body doc_movies "b" (Some "t1"%string) 0 with
                        | Ok t => t | Err _ => doc_movies end)
  /\ NoDup ["t2"; "t1"]%string
  /\ reorderTiers_body doc_movies ["t2"; "t1"]%string
     = Ok (match reorderTiers_body doc_movies ["t2"; "t1"]%string with
           | Ok t => t | Err _ => doc_movies end)
  /\ orders_contiguous (match reorderTiers_body doc_movies ["t2"; "t1"]%string with
                        | Ok t => t | Err _ => doc_movies end).
Proof.
  assert (H1 : orders_contiguous doc_movies) by reflexivity.
  assert (H2 : moveItem_body doc_movies "b" (Some "t1"%string) 0
     = Ok (match moveItem_body doc_movies "b" (Some "t1"%string) 0 with
           | Ok t => t | Err _ => doc_movies end)) by (vm_compute; reflexivity).
  assert (H3 : NoDup ["t2"; "t1"]%string) by nodup_strings.
  assert (H4 : reorderTiers_body doc_movies ["t2"; "t1"]%string
     = Ok (match reorderTiers_body doc_movies ["t2"; "t1"]%string with
           | Ok t => t | Err _ => doc_movies end)) by (vm_compute; reflexivity).
  split; [exact H1|]. split; [exact H2|].
  split; [exact (proj1 (tier_orders_stay_positions doc_movies) _ _ _ _ H1 H2)|].
  split; [exact H3|]. split; [exact H4|].
  exact (proj1 (proj2 (proj2 (proj2 (proj2 (tier_orders_stay_positions doc_movies))))) _ _ H3 H4).
Defined.

Lemma on_off_registry_witness :
  listeners_of "tierListUpdated" svc_listening = [] ++ h_boom :: [h_quiet]
  /\ h_id h_boom = h_id h_boom
  /\ Forall (fun g => h_id g <> h_id h_boom) []
  /\ listeners_of "tierListUpdated" (snd (off "tierListUpdated" h_boom svc_listening)) = [h_quiet]
  /\ Forall (fun g => h_id g <> h_id h_quiet) (listeners_of "tierListCreated" svc_listening)
  /\ off "tierListCreated" h_quiet svc_listening = (Ok tt, svc_listening).
Proof.
  assert (H1 : listeners_of "tierListUpdated" svc_listening = [] ++ h_boom :: [h_quiet])
    by reflexivity.
  assert (H2 : Forall (fun g => h_id g <> h_id h_boom) []) by constructor.
  assert (H3 : Forall (fun g => h_id g <> h_id h_quiet)
                 (listeners_of "tierListCreated" svc_listening)) by constructor.
  split; [exact H1|]. split; [reflexivity|]. split; [exact H2|].
  split; [exact (proj1 (proj2 (proj2 (on_off_registry "tierListUpdated" h_boom svc_listening)))
                   [] h_boom [h_quiet] H1 eq_refl H2)|].
  split; [exact H3|].
  exact (proj1 (proj2 (proj2 (proj2 (on_off_registry "tierListCreated" h_quiet svc_listening))))
           H3).
Defined.


Lemma addItem_appends_to_pool_witness :
  mock_load doc_movies (storage svc0) "d1" = Some doc_movies
  /\ addItem (mock_load doc_movies) mock_save gen_ids "d1" Image "pic.png" None svc0
     = (Ok {| item_id := "id-0"; item_type := Image; content := "pic.png";
              item_metadata := None |},
        snd (addItem (mock_load doc_movies) mock_save gen_ids "d1" Image "pic.png" None svc0))
  /\ next_id (snd (addItem (mock_load doc_movies) mock_save gen_ids "d1" Image "pic.png"
                           None svc0)) = 1%nat.
Proof.
  assert (H1 : mock_load doc_movies (storage svc0) "d1" = Some doc_movies) by reflexivity.
  assert (H2 : addItem (mock_load doc_movies) mock_save gen_ids "d1" Image "pic.png" None svc0
     = (Ok {| item_id := "id-0"; item_type := Image; content := "pic.png";
              item_metadata := None |},
        snd (addItem (mock_load doc_movies) mock_save gen_ids "d1" Image "pic.png" None svc0)))
    by (vm_compute; reflexivity).
  split; [exact H1|]. split; [exact H2|].
  exact (proj1 (proj2 (addItem_appends_to_pool (mock_load doc_movies) mock_save gen_ids svc0 _
                          "d1" doc_movies Image "pic.png" None _ H1 H2))).
Defined.

Lemma createTierList_fresh_document_witness :
  createTierList mock_save gen_ids "Games" None svc0
  = (Ok (match fst (createTierList mock_save gen_ids "Games" None svc0) with
         | Ok t => t | Err _ => doc_movies end),
     snd (createTierList mock_save gen_ids "Games" None svc0))
  /\ map tier_id (tiers (match fst (createTierList mock_save gen_ids "Games" None svc0) with
                          | Ok t => t | Err _ => doc_movies end))
     = map gen_ids (seq 1 5).
Proof.
  assert (H : createTierList mock_save gen_ids "Games" None svc0
    = (Ok (match fst (createTierList mock_save gen_ids "Games" None svc0) with
           | Ok t => t | Err _ => doc_movies end),
       snd (createTierList mock_save gen_ids "Games" None svc0))) by (vm_compute; reflexivity).
  split; [exact H|].
  exact (proj1 (proj2 (createTierList_fresh_document mock_save gen_ids "Games" None svc0 _ _ H))).
Defined.

Lemma toSummary_reads_all_items_witness :
  moveItem_body doc_movies "a" None 0
  = Ok (match moveItem_body doc_movies "a" None 0 with Ok t => t | Err _ => doc_movies end)
  /\ itemCount (toSummary (match moveItem_body doc_movies "a" None 0 with
                           | Ok t => t | Err _ => doc_movies end))
     = itemCount (toSummary doc_movies).
Proof.
  assert (H : moveItem_body doc_movies "a" None 0
    = Ok (match moveItem_body doc_movies "a" None 0 with Ok t => t | Err _ => doc_movies end))
    by (vm_compute; reflexivity).
  split; [exact H|].
  exact (proj1 (proj2 (proj2 (toSummary_reads_all_items doc_movies))) _ _ _ _ H).
Defined.

Lemma validateAndMigrateData_tierLists_witness :
  let okvs := [("tierLists", JObj [("d1", json_erase (tl_to_jval doc_movies));
                                   ("junk", JNum 3)])]%string in
  assoc_get "tierLists" okvs
  = Some (JObj [("d1", json_erase (tl_to_jval doc_movies)); ("junk", JNum 3)])%string
  /\ NoDup (keys [("d1", json_erase (tl_to_jval doc_movies)); ("junk", JNum 3)])%string
  /\ assoc_get "junk" (ld_tierLists (validateAndMigrateData date_parse_iso (JObj okvs))) = None.
Proof.
  intros okvs.
  assert (H1 : assoc_get "tierLists" okvs
    = Some (JObj [("d1", json_erase (tl_to_jval doc_movies)); ("junk", JNum 3)])%string)
    by reflexivity.
  assert (H2 : NoDup (keys [("d1", json_erase (tl_to_jval doc_movies)); ("junk", JNum 3)])%string)
    by nodup_strings.
  split; [exact H1|]. split; [exact H2|].
  rewrite (validateAndMigrateData_tierLists date_parse_iso okvs _ "junk" H1 H2).
  reflexivity.
Defined.


Lemma config_write_then_read_witness :
  let m := medium_tight_config in
  let c0 := match fst (getConfig json_parse m) with Ok c => c | Err _ => JNull end in
  fst (getConfig json_parse m) = Ok c0
  /\ probe_ok m = true
  /\ ls_fits m (<[CONFIG_KEY := stringify (mergeConfig c0 ui_dark)]> (ls_items (probed m))) = false
  /\ fst (getConfig json_parse (snd (updateConfig json_parse ui_dark m))) = Ok c0.
Proof.
  intros m c0.
  assert (H1 : fst (getConfig json_parse m) = Ok c0) by (vm_compute; reflexivity).
  assert (H2 : probe_ok m = true) by (vm_compute; reflexivity).
  assert (H3 : ls_fits m (<[CONFIG_KEY := stringify (mergeConfig c0 ui_dark)]> (ls_items (probed m)))
               = false) by (vm_compute; reflexivity).
  split; [exact H1|]. split; [exact H2|]. split; [exact H3|].
  exact (proj1 (proj2 (proj2 (config_write_then_read json_parse m ui_dark c0 H1))) (or_intror H3)).
Defined.

Lemma importConfig_outcomes_witness :
  json_parse (squote "{'storage':{'type':'ftp'}}")
  = inr (JObj [("storage", JObj [("type", JStr "ftp")])])%string
  /\ validateConfig (JObj [("storage", JObj [("type", JStr "ftp")])])%string = false
  /\ importConfig json_parse (squote "{'storage':{'type':'ftp'}}") medium_one_doc
     = (Err "Failed to import configuration: Invalid configuration format"%string, medium_one_doc).
Proof.
  assert (H1 : json_parse (squote "{'storage':{'type':'ftp'}}")
               = inr (JObj [("storage", JObj [("type", JStr "ftp")])])%string)
    by (vm_compute; reflexivity).
  assert (H2 : validateConfig (JObj [("storage", JObj [("type", JStr "ftp")])])%string = false)
    by reflexivity.
  split; [exact H1|]. split; [exact H2|].
  exact (proj1 (proj2 (importConfig_outcomes json_parse (squote "{'storage':{'type':'ftp'}}")
                          medium_one_doc)) _ H1 H2).
Defined.

Lemma mergeConfig_deep_merge_witness :
  NoDup (keys (entries getDefaultConfig))
  /\ NoDup (keys [("ui", JObj [("theme", JStr "dark")])])%string
  /\ assoc_get "ui" [("ui", JObj [("theme", JStr "dark")])]%string
     = Some (JObj [("theme", JStr "dark")])%string
  /\ NoDup (keys [("theme", JStr "dark")])%string
  /\ assoc_get "ui" (entries getDefaultConfig)
     = Some (JObj [("theme", JStr "default"); ("animations", JBool true)])%string
  /\ NoDup (keys [("theme", JStr "default"); ("animations", JBool true)])%string
  /\ exists r, get_prop "ui" (mergeConfig getDefaultConfig ui_dark) = Some (JObj r)
       /\ assoc_get "animations" r = Some (JBool true).
Proof.
  assert (H1 : NoDup (keys (entries getDefaultConfig))) by nodup_strings.
  assert (H2 : NoDup (keys [("ui", JObj [("theme", JStr "dark")])])%string) by nodup_strings.
  assert (H3 : assoc_get "ui" [("ui", JObj [("theme", JStr "dark")])]%string
               = Some (JObj [("theme", JStr "dark")])%string) by reflexivity.
  assert (H4 : NoDup (keys [("theme", JStr "dark")])%string) by nodup_strings.
  assert (H5 : assoc_get "ui" (entries getDefaultConfig)
               = Some (JObj [("theme", JStr "default"); ("animations", JBool true)])%string)
    by reflexivity.
  assert (H6 : NoDup (keys [("theme", JStr "default"); ("animations", JBool true)])%string)
    by nodup_strings.
  repeat (split; [assumption|]).
  destruct (proj1 (proj2 (proj2 (mergeConfig_deep_merge (entries getDefaultConfig)
              [("ui", JObj [("theme", JStr "dark")])]%string "ui" H1 H2)) _ H3 H4) _ H5 H6)
    as (r & Hr & Hj).
  exists r; split; [exact Hr|]. rewrite Hj. reflexivity.
Defined.


Lemma updateStorageConfig_merges_witness :
  let r := updateStorageConfig json_parse (JObj [("type", JStr "api")])%string medium_custom_config in
  let cs := [("type", JStr "local");
             ("local", JObj [("storageKey", JStr "mine")])]%string in
  fst (getStorageConfig json_parse medium_custom_config) = Ok (Some (JObj cs))
  /\ NoDup (keys cs) /\ NoDup (keys [("type", JStr "api")])%string
  /\ exists r', fst (getStorageConfig json_parse (snd r)) = Ok (Some (JObj r'))
       /\ assoc_get "local" r' = Some (JObj [("storageKey", JStr "mine")])%string
       /\ assoc_get "type" r' = Some (JStr "api")%string.
Proof.
  intros r cs.
  assert (H1 : fst (getStorageConfig json_parse medium_custom_config) = Ok (Some (JObj cs)))
    by (vm_compute; reflexivity).
  assert (H2 : NoDup (keys cs)) by nodup_strings.
  assert (H3 : NoDup (keys [("type", JStr "api")])%string) by nodup_strings.
  split; [exact H1|]. split; [exact H2|]. split; [exact H3|].
  destruct (updateStorageConfig_merges json_parse medium_custom_config _ cs H1 H2 H3)
    as (c & Hc & Hin & _).
  assert (Ec : c = match fst r with Ok c => c | Err _ => JNull end)
    by (unfold r; rewrite Hc; reflexivity).
  assert (H4 : ls_items (snd r) !! CONFIG_KEY = Some (stringify c))
    by (rewrite Ec; vm_compute; reflexivity).
  assert (H5 : fst (isLocalStorageAvailable (snd r)) = Ok true) by (vm_compute; reflexivity).
  assert (H6 : json_parse (stringify c) = inr c) by (rewrite Ec; vm_compute; reflexivity).
  destruct (Hin H4 H5 H6) as (r' & Hr & Hj).
  exists r'; split; [exact Hr|]. rewrite !Hj. split; reflexivity.
Defined.

Lemma getConfig_always_config_witness :
  let s := squote "{'storage':{'type':'local','local':{'storageKey':'mine'}}}" in
  let p := JObj [("storage", JObj [("type", JStr "local");
                                   ("local", JObj [("storageKey", JStr "mine")])])]%string in
  fst (isLocalStorageAvailable medium_custom_config) = Ok true
  /\ ls_items medium_custom_config !! CONFIG_KEY = Some s
  /\ s <> ""%string
  /\ json_parse s = inr p
  /\ NoDup (keys (spread_entries p))
  /\ exists c, fst (getConfig json_parse medium_custom_config) = Ok c
       /\ get_prop "ui" c = get_prop "ui" getDefaultConfig.
Proof.
  intros s p.
  assert (H1 : fst (isLocalStorageAvailable medium_custom_config) = Ok true)
    by (vm_compute; reflexivity).
  assert (H2 : ls_items medium_custom_config !! CONFIG_KEY = Some s) by (vm_compute; reflexivity).
  assert (H3 : s <> ""%string) by discriminate.
  assert (H4 : json_parse s = inr p) by (vm_compute; reflexivity).
  assert (H5 : NoDup (keys (spread_entries p))) by nodup_strings.
  repeat (split; [assumption|]).
  destruct (proj2 (proj2 (getConfig_always_config json_parse medium_custom_config)) s p
              H1 H2 H3 H4 H5) as (c & Hc & Hk).
  exists c; split; [exact Hc|]. rewrite Hk. reflexivity.
Defined.
